(** * Arkham Horror engine: a shallow embedding of the Python sources

    Every Python class whose behaviour is specified is embedded as a record,
    every method as a function in an exception-and-state monad.  Mutable
    objects that are shared by reference (monsters, locations, investigators,
    combat components, deque nodes) live in stores indexed by an address, so
    that the embedding has the aliasing of the program. *)

From Stdlib Require Import ZArith Lia.
From Stdlib Require SpecFloat QArith Qpower.
From stdpp Require Import base option list strings gmap fin_maps.

Local Open Scope string_scope.
Local Open Scope Z_scope.

(** ** custom_errors.py and the built-in exceptions the sources raise *)

Module Errors.

(** [NegativeValueError] and [NotFoundError] are the two [CustomError]
    subclasses; the others are Python built-ins.  [NotFoundError] keeps the
    value looked for and the collection searched, as its [__init__] does.
    [DanglingReference] is no Python exception: it is what a store of the
    embedding answers for an address that holds no object, which no Python
    reference can be. *)
Inductive PyExc : Type :=
| NegativeValueError (value : Z)
| NotFoundError (value : string) (values : list string)
| AttributeError (message : string)
| ValueError (message : string)
| KeyError (message : string)
| IndexError (message : string)
| RuntimeError (message : string)
| OverflowError (message : string)
| DanglingReference.

#[global] Instance PyExc_eq_dec : EqDecision PyExc.
Proof. solve_decision. Defined.

(** The outcome of a call: a value returned or an exception raised. *)
Inductive outcome (A : Type) : Type :=
| Return (a : A)
| Raise (e : PyExc).
Arguments Return {A} a.
Arguments Raise {A} e.

(** A method over a mutable state [S]: the outcome and the state left
    behind, which is the state at the [raise] when the call fails. *)
Definition M (S A : Type) : Type := S -> outcome A * S.

Definition ret {S A} (a : A) : M S A := fun s => (Return a, s).
Definition raise {S A} (e : PyExc) : M S A := fun s => (Raise e, s).
Definition bind {S A B} (m : M S A) (k : A -> M S B) : M S B :=
  fun s => match m s with
           | (Return a, s') => k a s'
           | (Raise e, s') => (Raise e, s')
           end.
Definition get {S} : M S S := fun s => (Return s, s).
Definition put {S} (s : S) : M S unit := fun _ => (Return tt, s).
Definition modify {S} (f : S -> S) : M S unit := fun s => (Return tt, f s).

(** Run a method of a component object held in a field of [S]: the field is
    read with [proj], the method runs on it, and the (mutated) component is
    written back with [upd], also when the method raises. *)
Definition zoom {S T A} (proj : S -> T) (upd : T -> S -> S) (m : M T A)
  : M S A :=
  fun s => let '(o, t') := m (proj s) in (o, upd t' s).

(** A constructor or a pure check that may raise. *)
Definition lift_outcome {S A} (o : outcome A) : M S A := fun s => (o, s).

End Errors.
Export Errors.

Declare Scope py_scope.
Delimit Scope py_scope with py.
Notation "x <- m ;; k" := (bind m (fun x => k))
  (at level 100, m at next level, right associativity) : py_scope.
Notation "m ;;; k" := (bind m (fun _ => k))
  (at level 100, right associativity) : py_scope.
Local Open Scope py_scope.

(** ** monster.py *)

(** [MonsterStages = Literal["ready", "exhausted", "engaged"]] *)
Inductive MonsterStages : Type := Ready | Exhausted | Engaged.

#[global] Instance MonsterStages_eq_dec : EqDecision MonsterStages.
Proof. solve_decision. Defined.

(** The text a stage is formatted as inside an f-string. *)
Definition stage_str (s : MonsterStages) : string :=
  match s with
  | Ready => "ready"
  | Exhausted => "exhausted"
  | Engaged => "engaged"
  end.

(** [class MonsterState]: one mutable attribute. *)
Module MonsterState.

Record t : Type := { _stage : MonsterStages }.

Definition __init__ (stage : MonsterStages) : t := {| _stage := stage |}.
Definition stage (self : t) : MonsterStages := _stage self.
Definition engage : M t unit := put {| _stage := Engaged |}.
Definition exhaust : M t unit := put {| _stage := Exhausted |}.
Definition ready : M t unit := put {| _stage := Ready |}.

End MonsterState.

(** [class MonsterHealth]: the health counter and the [MonsterState] object
    the monster's stage is read from. *)
Module MonsterHealth.

Record t : Type := {
  __health : Z;
  _state : MonsterState.t
}.

Definition with_health (h : Z) (self : t) : t :=
  {| __health := h; _state := _state self |}.
Definition with_state (st : MonsterState.t) (self : t) : t :=
  {| __health := __health self; _state := st |}.

Definition _validate_health (health : Z) : outcome Z :=
  if health <? 0 then Raise (NegativeValueError health) else Return health.

(** [__set_health]: validate, then assign. *)
Definition __set_health (health : Z) : M t unit :=
  h <- lift_outcome (_validate_health health) ;;
  modify (with_health h).

(** [__init__(health, state)]: the health goes through [__set_health]. *)
Definition __init__ (health : Z) (state : MonsterState.t) : outcome t :=
  match _validate_health health with
  | Return h => Return {| __health := h; _state := state |}
  | Raise e => Raise e
  end.

(** The [health] property and its setter. *)
Definition health (self : t) : Z := __health self.
Definition set_health (val : Z) : M t unit := __set_health val.

Definition get_damaged (amount : Z) : M t unit :=
  self <- get ;;
  if amount <? 0 then raise (NegativeValueError amount)
  else if health self <=? 0
  then raise (AttributeError "Monster has already been defeated")
  else
    (if decide (MonsterState.stage (_state self) = Exhausted)
     then modify (fun s => with_health (__health s - amount * 2) s)
     else modify (fun s => with_health (__health s - amount) s)) ;;;
    self' <- get ;;
    if __health self' <? 0 then modify (with_health 0) else ret tt.

Definition check_health_status (self : t) : bool := 0 <? __health self.

End MonsterHealth.

(** [class MonsterEngagement]: the prey (an investigator, by address) and a
    [MonsterState] object of its own, the one handed to [__init__].  No
    method of the sources ever mutates that object, so it is held by value. *)
Module MonsterEngagement.

Record t : Type := {
  _prey : option nat;
  _state : MonsterState.t
}.

Definition __init__ (state : MonsterState.t) (prey : option nat) : t :=
  {| _prey := prey; _state := state |}.

Definition with_prey (p : option nat) (self : t) : t :=
  {| _prey := p; _state := _state self |}.

Definition start_engagement (investigator : nat) : M t unit :=
  self <- get ;;
  if decide (MonsterState.stage (_state self) <> Ready)
  then raise (AttributeError
    ("Already engaged or exhausted monsters cannot engage investigators. The state is "
       +:+ stage_str (MonsterState.stage (_state self))))
  else modify (with_prey (Some investigator)).

Definition no_fight : M t unit :=
  self <- get ;;
  if decide (MonsterState.stage (_state self) <> Engaged)
  then raise (AttributeError "Monster must be engaged to disengage.")
  else modify (with_prey None).

Definition prey (self : t) : option nat := _prey self.

End MonsterEngagement.

(** [class MonsterActivation]: speed, name, evade modifier and location (a
    [Space], by address). *)
Module MonsterActivation.

Record t : Type := {
  _speed : Z;
  _name : string;
  _evade_modifier : Z;
  _location : nat
}.

Definition __init__ (speed : Z) (name : string) (modifier : Z) (location : nat)
  : t :=
  {| _speed := speed; _name := name; _evade_modifier := modifier;
     _location := location |}.

Definition set_location (loc : nat) (self : t) : t :=
  {| _speed := _speed self; _name := _name self;
     _evade_modifier := _evade_modifier self; _location := loc |}.

Definition evade_modifier (self : t) : Z := _evade_modifier self.

End MonsterActivation.

(** [class Monster].  The class body annotates [_monster_state], but
    [__new__] never assigns it: the attribute is absent ([None] here) on
    every monster the constructor returns, and the stage lives in
    [_monster_health._state]. *)
Module Monster.

Record t : Type := {
  _name : string;
  _damage : Z;
  _monster_health : MonsterHealth.t;
  _monster_engagement : MonsterEngagement.t;
  _monster_activation : MonsterActivation.t;
  _monster_state : option MonsterState.t
}.

Definition with_monster_health (h : MonsterHealth.t) (self : t) : t :=
  {| _name := _name self; _damage := _damage self; _monster_health := h;
     _monster_engagement := _monster_engagement self;
     _monster_activation := _monster_activation self;
     _monster_state := _monster_state self |}.
Definition with_monster_engagement (e : MonsterEngagement.t) (self : t) : t :=
  {| _name := _name self; _damage := _damage self;
     _monster_health := _monster_health self; _monster_engagement := e;
     _monster_activation := _monster_activation self;
     _monster_state := _monster_state self |}.
Definition with_monster_activation (a : MonsterActivation.t) (self : t) : t :=
  {| _name := _name self; _damage := _damage self;
     _monster_health := _monster_health self;
     _monster_engagement := _monster_engagement self;
     _monster_activation := a;
     _monster_state := _monster_state self |}.
Definition with_monster_state (st : option MonsterState.t) (self : t) : t :=
  {| _name := _name self; _damage := _damage self;
     _monster_health := _monster_health self;
     _monster_engagement := _monster_engagement self;
     _monster_activation := _monster_activation self;
     _monster_state := st |}.

(** [__new__]: the health component gets a fresh [MonsterState("ready")]. *)
Definition __new__ (name : string) (damage health : Z)
    (monster_engagement : MonsterEngagement.t)
    (monster_activation : MonsterActivation.t) : outcome t :=
  match MonsterHealth.__init__ health (MonsterState.__init__ Ready) with
  | Return mh =>
      Return {| _name := name; _damage := damage; _monster_health := mh;
                _monster_engagement := monster_engagement;
                _monster_activation := monster_activation;
                _monster_state := None |}
  | Raise e => Raise e
  end.

(** The properties [name], [health], [state]. *)
Definition name (self : t) : string := _name self.
Definition health (self : t) : Z := MonsterHealth.health (_monster_health self).
Definition state (self : t) : MonsterStages :=
  MonsterState.stage (MonsterHealth._state (_monster_health self)).
Definition prey (self : t) : option nat :=
  MonsterEngagement.prey (_monster_engagement self).

(** Methods of the components, run on the component held by the monster. *)
Definition on_health {A} (m : M MonsterHealth.t A) : M t A :=
  zoom _monster_health with_monster_health m.
Definition on_health_state {A} (m : M MonsterState.t A) : M t A :=
  on_health (zoom MonsterHealth._state MonsterHealth.with_state m).
Definition on_engagement {A} (m : M MonsterEngagement.t A) : M t A :=
  zoom _monster_engagement with_monster_engagement m.

Definition take_damage (amount : Z) : M t unit :=
  on_health (MonsterHealth.get_damaged amount).

Definition attack : M t Z :=
  self <- get ;;
  if decide (state self <> Engaged)
  then raise (AttributeError
                ("Monster cannot attack in stage " +:+ stage_str (state self) +:+ "."))
  else ret (_damage self).

Definition is_defeated (self : t) : bool :=
  negb (MonsterHealth.check_health_status (_monster_health self)).

(** The four transitions.  Each returns [self] in the source (a [cast] for
    the type checker); the model returns unit and leaves the monster in the
    state. *)
Definition engage (investigator : nat) : M t unit :=
  self <- get ;;
  if decide (state self <> Ready)
  then raise (AttributeError
    ("Monster can only engage in the 'ready' state. The state is "
       +:+ stage_str (state self)))
  else
    on_engagement (MonsterEngagement.start_engagement investigator) ;;;
    on_health_state MonsterState.engage.

Definition exhaust : M t unit :=
  self <- get ;;
  if decide (state self <> Engaged)
  then raise (AttributeError
    ("Monster can only be exhausted in the 'engaged' state. The current state is "
       +:+ stage_str (state self)))
  else on_health_state MonsterState.exhaust.

Definition disengage : M t unit :=
  self <- get ;;
  if decide (state self <> Engaged)
  then raise (AttributeError
    ("Monster can only disengage in the 'engaged' state. The current state is "
       +:+ stage_str (state self)))
  else
    on_engagement MonsterEngagement.no_fight ;;;
    on_health_state MonsterState.ready.

Definition ready : M t unit :=
  self <- get ;;
  if decide (state self <> Exhausted)
  then raise (AttributeError
    ("Monster can only be readied from the 'exhausted' state. The current state is "
       +:+ stage_str (state self)))
  else on_health_state MonsterState.ready.

Definition set_location (location : nat) : M t unit :=
  modify (fun self =>
    with_monster_activation
      (MonsterActivation.set_location location (_monster_activation self)) self).

Definition evade_modifier (self : t) : Z :=
  MonsterActivation.evade_modifier (_monster_activation self).

End Monster.

(** ** investigator_status.py *)

Module InvestigatorStatus.

Record t : Type := {
  __health : Z;
  __sanity : Z;
  _is_defeated : bool
}.

Definition with_health (h : Z) (self : t) : t :=
  {| __health := h; __sanity := __sanity self;
     _is_defeated := _is_defeated self |}.
Definition with_sanity (s : Z) (self : t) : t :=
  {| __health := __health self; __sanity := s;
     _is_defeated := _is_defeated self |}.

Definition _validate_args (health sanity : Z) : outcome (Z * Z) :=
  if health <? 0 then Raise (NegativeValueError health)
  else if sanity <? 0 then Raise (NegativeValueError sanity)
  else Return (health, sanity).

(** Truth value of the pair [_validate_args] returns: a non-empty tuple. *)
Definition tuple_truthy (_ : Z * Z) : bool := true.

Definition __set_health_sanity (health sanity : Z) : M t (Z * Z) :=
  hs <- lift_outcome (_validate_args health sanity) ;;
  modify (fun self => with_sanity (snd hs) (with_health (fst hs) self)) ;;;
  ret hs.

Definition __new__ (health sanity : Z) (is_defeated : bool) : outcome t :=
  match _validate_args health sanity with
  | Return (h, s) =>
      Return {| __health := h; __sanity := s; _is_defeated := is_defeated |}
  | Raise e => Raise e
  end.

Definition health (self : t) : Z := __health self.
Definition sanity (self : t) : Z := __sanity self.
Definition is_defeated (self : t) : bool := _is_defeated self.

Definition set_health (val : Z) : M t unit :=
  self <- get ;;
  hs <- __set_health_sanity val (__sanity self) ;;
  modify (with_health (fst hs)) ;;;
  modify (with_health val).

Definition set_sanity (val : Z) : M t unit :=
  self <- get ;;
  hs <- __set_health_sanity (__health self) val ;;
  modify (with_sanity (snd hs)) ;;;
  modify (with_sanity val).

Definition take_damage (amount : Z) : M t unit :=
  self <- get ;;
  v <- lift_outcome (_validate_args (__health self) (__sanity self)) ;;
  if tuple_truthy v then
    if amount <? 0 then raise (NegativeValueError amount)
    else modify (fun s => with_health (__health s - amount) s)
  else ret tt.

Definition check_defeat (self : t) : bool :=
  (__sanity self =? 0) || (__health self =? 0).

Definition lose_sanity (amount : Z) : M t unit :=
  self <- get ;;
  v <- lift_outcome (_validate_args (__health self) (__sanity self)) ;;
  if tuple_truthy v then
    if amount <? 0 then raise (NegativeValueError amount)
    else modify (fun s => with_sanity (__sanity s - amount) s)
  else ret tt.

Definition heal (amount : Z) : M t unit :=
  self <- get ;;
  v <- lift_outcome (_validate_args (__health self) (__sanity self)) ;;
  if tuple_truthy v then
    if amount <? 0 then raise (NegativeValueError amount)
    else modify (fun s => with_health (__health s + amount) s)
  else ret tt.

Definition restore_sanity (amount : Z) : M t unit :=
  self <- get ;;
  v <- lift_outcome (_validate_args (__health self) (__sanity self)) ;;
  if tuple_truthy v then
    if amount <? 0 then raise (NegativeValueError amount)
    else modify (fun s => with_sanity (__sanity s + amount) s)
  else ret tt.

End InvestigatorStatus.

(** ** Python numbers *)

(** The coordinates of a location are annotated [float]; the objects met at
    run time are [int]s, which are unbounded, or [float]s.  A [float] is an
    IEEE 754 binary64 number, embedded as a [spec_float] of the Standard
    Library (one that [valid_binary] accepts) with the arithmetic specified
    there for a precision of 53 bits and exponents below 1024: subtraction,
    addition, the square root and the conversion of an [int] give the exact
    result rounded to the nearest double, ties to even. *)
Module PyNum.
Import SpecFloat QArith_base.
Local Open Scope Z_scope.

Definition prec : Z := 53.
Definition emax : Z := 1024.

Inductive t : Type :=
| Int (n : Z)
| Float (x : spec_float).

(** The double nearest to an integer; it is infinite from 2^1024 - 2^970
    on. *)
Definition nearest (n : Z) : spec_float :=
  binary_normalize prec emax n 0 false.

(** [float(n)] of an [int], as every mixed operation converts it. *)
Definition float_of_int (n : Z) : outcome spec_float :=
  match nearest n with
  | S754_infinity _ =>
      Raise (OverflowError "int too large to convert to float")
  | x => Return x
  end.

Definition as_float (a : t) : outcome spec_float :=
  match a with
  | Int n => float_of_int n
  | Float x => Return x
  end.

(** An operation of [float] on two numbers one of which is a [float]. *)
Definition float_op (op : spec_float -> spec_float -> spec_float) (a b : t)
  : outcome t :=
  match as_float a with
  | Raise e => Raise e
  | Return x =>
      match as_float b with
      | Raise e => Raise e
      | Return y => Return (Float (op x y))
      end
  end.

(** [a - b] and [a + b]: exact on two [int]s; a [float] result that
    overflows is infinite, without an exception. *)
Definition sub (a b : t) : outcome t :=
  match a, b with
  | Int m, Int n => Return (Int (m - n))
  | _, _ => float_op (SFsub prec emax) a b
  end.

Definition add (a b : t) : outcome t :=
  match a, b with
  | Int m, Int n => Return (Int (m + n))
  | _, _ => float_op (SFadd prec emax) a b
  end.

(** [1.0] *)
Definition one : spec_float := S754_finite false 4503599627370496 (-52).

(** [a ** 2].  Exact on an [int].  On a [float] the interpreter answers
    NaN, an infinity, zero and 1.0 itself and calls the C library's
    [pow(x, 2.0)] on the absolute value otherwise.  That function is not
    part of the sources and the last digit of its answer is the platform's
    choice (glibc's answer is not always the nearest double): it is the
    parameter [pow_2].  An infinite answer of it is the
    [OverflowError]; a library is assumed to report no range error with
    another answer than an infinity or zero. *)
Definition pow2 (pow_2 : spec_float -> spec_float) (a : t) : outcome t :=
  match a with
  | Int n => Return (Int (n * n))
  | Float S754_nan => Return (Float S754_nan)
  | Float (S754_infinity _) => Return (Float (S754_infinity false))
  | Float (S754_zero _) => Return (Float (S754_zero false))
  | Float (S754_finite _ m e) =>
      if SFeqb (S754_finite false m e) one then Return (Float one)
      else match pow_2 (S754_finite false m e) with
           | S754_infinity _ =>
               Raise (OverflowError "(34, 'Numerical result out of range')")
           | y => Return (Float y)
           end
  end.

(** The [pow(x, 2.0)] of a C library that rounds to the nearest double. *)
Definition correctly_rounded (x : spec_float) : spec_float :=
  SFmul prec emax x x.


(** [int(x)] of a [float]: the integer part, towards zero. *)
Definition int (x : spec_float) : outcome Z :=
  match x with
  | S754_nan => Raise (ValueError "cannot convert float NaN to integer")
  | S754_infinity _ =>
      Raise (OverflowError "cannot convert float infinity to integer")
  | S754_zero _ => Return 0
  | S754_finite s m e => Return (cond_Zopp s (Z.shiftl (Zpos m) e))
  end.

(** The exact value of a number, a rational: a finite [float] is its
    mantissa times a power of two; an infinity and NaN have no value. *)
Definition exact (a : t) : option Q :=
  match a with
  | Int n => Some (inject_Z n)
  | Float (S754_zero _) => Some (inject_Z 0)
  | Float (S754_finite s m e) =>
      Some (Qmult (inject_Z (cond_Zopp s (Zpos m)))
                  (Qpower (inject_Z 2) e))
  | Float _ => None
  end.


End PyNum.

(** [math.sqrt]: the argument is converted to a [float]; the square root
    is rounded to the nearest double. *)
Module math.
Import SpecFloat.

Definition sqrt (a : PyNum.t) : outcome spec_float :=
  match PyNum.as_float a with
  | Raise e => Raise e
  | Return (S754_finite true _ _) | Return (S754_infinity true) =>
      Raise (ValueError "math domain error")
  | Return x => Return (SFsqrt PyNum.prec PyNum.emax x)
  end.

End math.

(** ** space.py *)

(** [class Space].  The position is a pair of numbers. *)
Module Space.

Record t : Type := {
  _name : string;
  _position : PyNum.t * PyNum.t;
  _doom_tokens : Z
}.

Definition __new__ (name : string) (position : PyNum.t * PyNum.t)
    (doom_token : Z) : t :=
  {| _name := name; _position := position; _doom_tokens := doom_token |}.

Definition name (self : t) : string := _name self.
Definition position (self : t) : PyNum.t * PyNum.t := _position self.
Definition doom_tokens (self : t) : Z := _doom_tokens self.

Definition set_doom_tokens (value : Z) : M t unit :=
  if value <? 0 then raise (NegativeValueError value)
  else modify (fun self =>
    {| _name := _name self; _position := _position self;
       _doom_tokens := value |}).

End Space.

(** ** skills.py *)

Inductive SkillName : Type := COMBAT | LORE | WILL | LUCK | OBSERVATION.

#[global] Instance SkillName_eq_dec : EqDecision SkillName.
Proof. solve_decision. Defined.

#[global] Instance SkillName_countable : Countable SkillName.
Proof.
  refine (inj_countable'
    (fun s => match s with
              | COMBAT => 0 | LORE => 1 | WILL => 2 | LUCK => 3
              | OBSERVATION => 4
              end%nat)
    (fun n => match n with
              | 0 => COMBAT | 1 => LORE | 2 => WILL | 3 => LUCK
              | _ => OBSERVATION
              end%nat) _).
  intros []; reflexivity.
Defined.

Module Skill.

Record t : Type := {
  _name : SkillName;
  __skill_levels : gmap SkillName Z
}.

(** [__new__]: four levels start at 0, then the named one is assigned. *)
Definition __new__ (name : SkillName) (level : Z) : t :=
  {| _name := name;
     __skill_levels :=
       <[name := level]>
         (<[LUCK := 0]> (<[WILL := 0]> (<[LORE := 0]> (<[COMBAT := 0]> ∅)))) |}.

Definition name (self : t) : SkillName := _name self.

Definition level (self : t) (skill : SkillName) : outcome Z :=
  match __skill_levels self !! skill with
  | None => Raise (KeyError "Skill cannot be found.")
  | Some l => Return l
  end.

Definition with_skill_levels (d : gmap SkillName Z) (self : t) : t :=
  {| _name := _name self; __skill_levels := d |}.

Definition improve (skill : SkillName) (amount : Z) : M t unit :=
  self <- get ;;
  if amount <=? 0 then raise (NegativeValueError amount)
  else match __skill_levels self !! skill with
       | None => raise (KeyError "Skill cannot be found.")
       | Some l =>
           modify (with_skill_levels
                     (<[skill := l + amount]> (__skill_levels self)))
       end.

Definition reduce (skill : SkillName) (amount : Z) : M t unit :=
  self <- get ;;
  if amount <=? 0 then raise (NegativeValueError amount)
  else match __skill_levels self !! skill with
       | None => raise (KeyError "Skill cannot be found.")
       | Some l =>
           let new_level := l - amount in
           if new_level <? 0 then raise (NegativeValueError new_level)
           else modify (with_skill_levels
                          (<[skill := new_level]> (__skill_levels self)))
       end.

End Skill.

(** ** The [random] module: [random.randint]

    The source of randomness is an arbitrary stream of integers and a cursor
    into it; [randint lo hi] reduces the next element into [lo..hi]. *)
Module Random.

Record t : Type := { stream : nat -> Z; cursor : nat }.

Definition face (lo hi : Z) (r : t) (i : nat) : Z :=
  lo + stream r (cursor r + i)%nat `mod` (hi - lo + 1).

Definition randint (lo hi : Z) : M t Z :=
  fun r => (Return (face lo hi r 0),
            {| stream := stream r; cursor := S (cursor r) |}).

End Random.

(** ** fight_prep.py *)

(** [class InvestigatorItems]: the attributes the combat and movement code
    reads or writes.  [_focus_tokens] is the dictionary of the
    investigator's [InvestigatorTokens] (the same object). *)
Module InvestigatorItems.

Record t : Type := {
  _money : Z;
  __skill : gmap SkillName Skill.t;
  _focus_tokens : gmap string Z
}.

Definition with_focus_tokens (d : gmap string Z) (self : t) : t :=
  {| _money := _money self; __skill := __skill self; _focus_tokens := d |}.
Definition with_skill (d : gmap SkillName Skill.t) (self : t) : t :=
  {| _money := _money self; __skill := d;
     _focus_tokens := _focus_tokens self |}.
Definition with_money (m : Z) (self : t) : t :=
  {| _money := m; __skill := __skill self;
     _focus_tokens := _focus_tokens self |}.

(** The dictionary [InvestigatorTokens.__init__] builds. *)
Definition initial_tokens : gmap string Z :=
  <["activation_token" := 0]> (<["doom_tokens" := 0]> (<["clue_tokens" := 0]>
  (<["remnant_tokens" := 0]> (<["money_tokens" := 0]>
  (<["focus_tokens" := 0]> (<["horror_tokens" := 0]> ∅)))))).

Definition __new__ (focus_tokens : gmap string Z) : t :=
  {| _money := 0; __skill := ∅; _focus_tokens := focus_tokens |}.

Definition skills (self : t) : gmap SkillName Skill.t := __skill self.

Definition add_skill (skill : Skill.t) : M t unit :=
  self <- get ;;
  match __skill self !! Skill.name skill with
  | Some _ => raise (KeyError
      "the skill exists already. Cannot add duplicate entries to dictionary")
  | None => modify (with_skill (<[Skill.name skill := skill]> (__skill self)))
  end.

(** [self._focus_tokens["money_tokens"] += amount]: a missing key raises. *)
Definition add_money (amount : Z) : M t unit :=
  self <- get ;;
  if amount <? 0 then raise (NegativeValueError amount)
  else
    modify (with_money (_money self + amount)) ;;;
    match _focus_tokens self !! "money_tokens" with
    | None => raise (KeyError "money_tokens")
    | Some v =>
        modify (fun s => with_focus_tokens
                  (<["money_tokens" := v + amount]> (_focus_tokens s)) s)
    end.

(** [spend_money].  [value := d.get("money_tokens") == 0] binds [value] to
    the comparison (a [bool]), so the [value < 0] test compares [False]
    with 0. *)
Definition spend_money (amount : Z) : M t unit :=
  self <- get ;;
  match _focus_tokens self !! "money_tokens" with
  | None => raise (KeyError "key 'money_tokens' not found")
  | Some money_tokens =>
      let value : bool := money_tokens =? 0 in
      if value then raise (ValueError "no money left to spend")
      else if Z.b2z value <? 0 then raise (NegativeValueError (Z.b2z value))
      else if money_tokens <? amount
      then raise (ValueError "Not enough money tokens to spend.")
      else modify (fun s => with_focus_tokens
                     (<["money_tokens" := money_tokens - amount]>
                        (_focus_tokens s)) s)
  end.

(** The [money] property, and its setter, which subtracts the value it is
    given from [_money]. *)
Definition money (self : t) : Z := _money self.
Definition set_money (money : Z) : M t unit :=
  modify (fun self => with_money (_money self - money) self).

End InvestigatorItems.

(** [class Investigator] (investigator.py): the components, and the
    [_location] attribute, which [__new__] does not assign (it stores its
    argument as [_inv_location]); the [location] setter and [Move.move]
    do. *)
Module Investigator.

Record t : Type := {
  _inv_items : InvestigatorItems.t;
  _inv_status : InvestigatorStatus.t;
  _inv_location : nat;
  _inv_combat : nat;
  _location : option nat
}.

Definition with_inv_items (i : InvestigatorItems.t) (self : t) : t :=
  {| _inv_items := i; _inv_status := _inv_status self;
     _inv_location := _inv_location self; _inv_combat := _inv_combat self;
     _location := _location self |}.
Definition with_location (l : option nat) (self : t) : t :=
  {| _inv_items := _inv_items self; _inv_status := _inv_status self;
     _inv_location := _inv_location self; _inv_combat := _inv_combat self;
     _location := l |}.

Definition __new__ (inv_items : InvestigatorItems.t)
    (inv_status : InvestigatorStatus.t) (inv_location inv_combat : nat) : t :=
  {| _inv_items := inv_items; _inv_status := inv_status;
     _inv_location := inv_location; _inv_combat := inv_combat;
     _location := None |}.

(** The [location] property and its setter. *)
Definition location (self : t) : outcome nat :=
  match _location self with
  | Some l => Return l
  | None =>
      Raise (AttributeError "'Investigator' object has no attribute '_location'")
  end.
Definition set_location (new_space : nat) : M t unit :=
  modify (with_location (Some new_space)).

Definition spend_money (amount : Z) : M t unit :=
  zoom _inv_items with_inv_items (InvestigatorItems.spend_money amount).

Definition with_inv_status (s : InvestigatorStatus.t) (self : t) : t :=
  {| _inv_items := _inv_items self; _inv_status := s;
     _inv_location := _inv_location self; _inv_combat := _inv_combat self;
     _location := _location self |}.

(** A method called on [self.status], which is [self._inv_status]
    ([get_status] returns the status object itself). *)
Definition on_status {A} (m : M InvestigatorStatus.t A) : M t A :=
  zoom _inv_status with_inv_status m.

Definition assign_damage (damage : Z) : M t unit :=
  on_status (InvestigatorStatus.take_damage damage).

Definition assign_horror (horror : Z) : M t unit :=
  on_status (InvestigatorStatus.lose_sanity horror).

End Investigator.

(** What the name [obl] can be bound to in [Combat.evade_monster]: the
    source tests it against [None] and [int]. *)
Inductive PyVal : Type :=
| PyNone
| PyInt (z : Z)
| PyBoundMethod (receiver : Skill.t) (method : string).

Definition isinstance_int (v : PyVal) : bool :=
  match v with PyInt _ => true | _ => false end.

(** The attributes of a [Combat] object: [__init__] assigns
    [_investigator], [_inventory] (an item, never read again), [_location]
    and the engaged list; the class body also annotates [_inv_items], which
    [__init__] leaves unassigned ([None] here) and [ward_doom] reads. *)
Module CombatObj.

Record t : Type := {
  _investigator : nat;
  _location : nat;
  __engaged_monsters : list nat;
  _inv_items : option InvestigatorItems.t
}.

Definition with_engaged_monsters (l : list nat) (self : t) : t :=
  {| _investigator := _investigator self; _location := _location self;
     __engaged_monsters := l; _inv_items := _inv_items self |}.
Definition with_inv_items (i : option InvestigatorItems.t) (self : t) : t :=
  {| _investigator := _investigator self; _location := _location self;
     __engaged_monsters := __engaged_monsters self; _inv_items := i |}.

Definition engaged_monsters (self : t) : list nat := __engaged_monsters self.

End CombatObj.

(** The object stores: every [Space], [Monster], [Investigator] and [Combat]
    is reached through its address, as Python reaches them by reference. *)
Record World : Type := {
  spaces : gmap nat Space.t;
  monsters : gmap nat Monster.t;
  investigators : gmap nat Investigator.t;
  combats : gmap nat CombatObj.t;
  rng : Random.t
}.

Definition with_spaces (x : gmap nat Space.t) (w : World) : World :=
  {| spaces := x; monsters := monsters w; investigators := investigators w;
     combats := combats w; rng := rng w |}.
Definition with_monsters (x : gmap nat Monster.t) (w : World) : World :=
  {| spaces := spaces w; monsters := x; investigators := investigators w;
     combats := combats w; rng := rng w |}.
Definition with_investigators (x : gmap nat Investigator.t) (w : World)
  : World :=
  {| spaces := spaces w; monsters := monsters w; investigators := x;
     combats := combats w; rng := rng w |}.
Definition with_combats (x : gmap nat CombatObj.t) (w : World) : World :=
  {| spaces := spaces w; monsters := monsters w;
     investigators := investigators w; combats := x; rng := rng w |}.
Definition with_rng (x : Random.t) (w : World) : World :=
  {| spaces := spaces w; monsters := monsters w;
     investigators := investigators w; combats := combats w; rng := x |}.

(** Dereference an address, and run a method on the object behind it. *)
Definition deref {A} (store : World -> gmap nat A) (a : nat) : M World A :=
  fun w => match store w !! a with
           | Some x => (Return x, w)
           | None => (Raise DanglingReference, w)
           end.

Definition on_object {A B} (store : World -> gmap nat A)
    (upd : gmap nat A -> World -> World) (a : nat) (m : M A B) : M World B :=
  fun w => match store w !! a with
           | Some x => let '(o, x') := m x in (o, upd (<[a := x']> (store w)) w)
           | None => (Raise DanglingReference, w)
           end.

Definition on_space {B} := @on_object Space.t B spaces with_spaces.
Definition on_monster {B} := @on_object Monster.t B monsters with_monsters.
Definition on_investigator {B} :=
  @on_object Investigator.t B investigators with_investigators.
Definition on_combat {B} := @on_object CombatObj.t B combats with_combats.
Definition on_rng {B} (m : M Random.t B) : M World B := zoom rng with_rng m.

(** [sum(random.randint(1, 6) >= 5 for _ in range(n))] *)
Fixpoint roll_successes (n : nat) : M World Z :=
  match n with
  | O => ret 0
  | S n' =>
      face <- on_rng (Random.randint 1 6) ;;
      rest <- roll_successes n' ;;
      ret (Z.b2z (5 <=? face) + rest)
  end.

(** [list.remove(x)]: drop the first occurrence, [ValueError] when absent. *)
Fixpoint list_remove (x : nat) (l : list nat) : option (list nat) :=
  match l with
  | [] => None
  | y :: l' =>
      if decide (y = x) then Some l'
      else match list_remove x l' with
           | Some r => Some (y :: r)
           | None => None
           end
  end.

(** The methods of [class Combat]; [self] is the address of the object. *)
Module Combat.

(** [__init__(investigator, inventory, parent_cls)]: the new object gets a
    fresh address, which is returned; [parent_cls.location] is read through
    the [location] property of the investigator [parent_cls]. *)
Definition __init__ (investigator parent_cls : nat) : M World nat :=
  parent <- deref investigators parent_cls ;;
  loc <- lift_outcome (Investigator.location parent) ;;
  w <- get ;;
  let self := fresh (dom (combats w)) in
  modify (with_combats
    (<[self := {| CombatObj._investigator := investigator;
                  CombatObj._location := loc;
                  CombatObj.__engaged_monsters := [];
                  CombatObj._inv_items := None |}]> (combats w))) ;;;
  ret self.

Definition ward_doom (self : nat) : M World unit :=
  c <- deref combats self ;;
  match CombatObj._inv_items c with
  | None =>
      raise (AttributeError "'Combat' object has no attribute '_inv_items'")
  | Some inv_items =>
      match InvestigatorItems.skills inv_items !! LORE with
      | None => raise (KeyError "Lore skill not found")
      | Some lore_skill =>
          lev <- lift_outcome (Skill.level lore_skill LORE) ;;
          num_successes <- roll_successes (Z.to_nat lev) ;;
          loc <- deref spaces (CombatObj._location c) ;;
          let removed_dooms := Z.min num_successes (Space.doom_tokens loc) in
          loc' <- deref spaces (CombatObj._location c) ;;
          on_space (CombatObj._location c)
            (Space.set_doom_tokens (Space.doom_tokens loc' - removed_dooms))
      end
  end.

(** [monster._monster_health.health -= 1]: the property is read, then the
    validating setter is called with the difference. *)
Definition attack_monster (self monster : nat) : M World unit :=
  c <- deref combats self ;;
  if decide (monster ∉ CombatObj.__engaged_monsters c)
  then raise (ValueError "Monster must be engaged to be attacked")
  else
    m <- deref monsters monster ;;
    on_monster monster
      (Monster.on_health (MonsterHealth.set_health (Monster.health m - 1))).

(** [evade_monster].  [obl = obs_s.level] binds the method itself, not the
    result of a call.  [self._investigator.engaged_monsters] is the list of
    the investigator's own combat component ([_inv_combat]). *)
Definition evade_monster (self monster : nat) : M World unit :=
  c <- deref combats self ;;
  if decide (monster ∉ CombatObj.__engaged_monsters c)
  then raise (ValueError "investigator is not engaged with monster.")
  else
    inv <- deref investigators (CombatObj._investigator c) ;;
    match InvestigatorItems.skills (Investigator._inv_items inv) !! OBSERVATION with
    | None => raise (KeyError "Observation skill not found")
    | Some obs_s =>
        let obl := PyBoundMethod obs_s "level" in
        match obl with
        | PyNone => raise (ValueError "Observation skill level is None")
        | _ =>
          if negb (isinstance_int obl)
          then raise (AttributeError "observation level isnt an integer.")
          else
            m <- deref monsters monster ;;
            let num_rolls :=
              Z.max (match obl with PyInt z => z | _ => 0 end
                     + Monster.evade_modifier m) 1 in
            num_succ <- roll_successes (Z.to_nat num_rolls) ;;
            if 0 <? num_succ then
              ic <- deref combats (Investigator._inv_combat inv) ;;
              match list_remove monster (CombatObj.engaged_monsters ic) with
              | None => raise (ValueError "list.remove(x): x not in list")
              | Some l =>
                  on_combat (Investigator._inv_combat inv)
                    (modify (CombatObj.with_engaged_monsters l)) ;;;
                  m' <- deref monsters monster ;;
                  match Monster._monster_state m' with
                  | None => raise (AttributeError
                      "'Monster' object has no attribute '_monster_state'")
                  | Some st =>
                      on_monster monster
                        (zoom (fun _ => st)
                              (fun st' => Monster.with_monster_state (Some st'))
                              MonsterState.exhaust)
                  end
              end
            else attack_monster self monster
        end
    end.

End Combat.

(** [class Move].  [pow_2] is the [pow(x, 2.0)] of the C library the
    interpreter runs on, which [**] calls on a [float]. *)
Module Move.

Definition calc_distance {S : Type}
    (pow_2 : SpecFloat.spec_float -> SpecFloat.spec_float)
    (start end_ : Space.t) : M S Z :=
  diff_x_axis <- lift_outcome
    (PyNum.sub (fst (Space._position start)) (fst (Space._position end_))) ;;
  diff_y_axis <- lift_outcome
    (PyNum.sub (snd (Space._position start)) (snd (Space._position end_))) ;;
  square_x <- lift_outcome (PyNum.pow2 pow_2 diff_x_axis) ;;
  square_y <- lift_outcome (PyNum.pow2 pow_2 diff_y_axis) ;;
  total <- lift_outcome (PyNum.add square_x square_y) ;;
  root <- lift_outcome (math.sqrt total) ;;
  lift_outcome (PyNum.int root).

Definition move (pow_2 : SpecFloat.spec_float -> SpecFloat.spec_float)
    (investigator new_space : nat) : M World unit :=
  inv <- deref investigators investigator ;;
  cur <- lift_outcome (Investigator.location inv) ;;
  start <- deref spaces cur ;;
  end_ <- deref spaces new_space ;;
  distance <- calc_distance pow_2 start end_ ;;
  if 4 <? distance
  then raise (ValueError
    "Maximum distance is 2 extra distances an investigator is allowed to spend money on in order to move.")
  else if distance <=? 2
  then on_investigator investigator
         (modify (Investigator.with_location (Some new_space)))
  else
    let additional_cost := distance - 2 in
    on_investigator investigator (Investigator.spend_money additional_cost) ;;;
    on_investigator investigator
      (modify (Investigator.with_location (Some new_space))).

End Move.

(** ** deque.py *)

(** [class QueueNode]: an item and the two links, each the address of a
    node or [None]. *)
Module QueueNode.

Record t (ItemT : Type) : Type := {
  _value : ItemT;
  _next : option nat;
  _prev : option nat
}.
Arguments _value {ItemT} _.
Arguments _next {ItemT} _.
Arguments _prev {ItemT} _.

Definition __new__ {ItemT} (value : ItemT) (next_node prev_node : option nat)
  : t ItemT :=
  {| _value := value; _next := next_node; _prev := prev_node |}.

Definition with_next {ItemT} (n : option nat) (self : t ItemT) : t ItemT :=
  {| _value := _value self; _next := n; _prev := _prev self |}.
Definition with_prev {ItemT} (p : option nat) (self : t ItemT) : t ItemT :=
  {| _value := _value self; _next := _next self; _prev := p |}.

End QueueNode.

(** [class Deque].  The state is the deque object together with the node
    objects allocated so far ([nodes], by address).  Inside the class body
    [self.__front_items], [self.__rear_items] and [self.__size] are the
    private (name-mangled) attributes; [self.rear] and [self.front], which
    [dequeue_rear] assigns, are two further, public attributes: they do not
    exist until that method creates them ([None] here), and then hold a
    link. *)
Module Deque.

Section WithItem.
Context {ItemT : Type}.

Record t : Type := {
  nodes : gmap nat (QueueNode.t ItemT);
  __front_items : option nat;
  __rear_items : option nat;
  __size : Z;
  rear : option (option nat);
  front : option (option nat)
}.

Definition with_nodes (h : gmap nat (QueueNode.t ItemT)) (self : t) : t :=
  {| nodes := h; __front_items := __front_items self;
     __rear_items := __rear_items self; __size := __size self;
     rear := rear self; front := front self |}.
Definition with_front_items (p : option nat) (self : t) : t :=
  {| nodes := nodes self; __front_items := p;
     __rear_items := __rear_items self; __size := __size self;
     rear := rear self; front := front self |}.
Definition with_rear_items (p : option nat) (self : t) : t :=
  {| nodes := nodes self; __front_items := __front_items self;
     __rear_items := p; __size := __size self;
     rear := rear self; front := front self |}.
Definition with_size (n : Z) (self : t) : t :=
  {| nodes := nodes self; __front_items := __front_items self;
     __rear_items := __rear_items self; __size := n;
     rear := rear self; front := front self |}.
Definition with_rear (p : option nat) (self : t) : t :=
  {| nodes := nodes self; __front_items := __front_items self;
     __rear_items := __rear_items self; __size := __size self;
     rear := Some p; front := front self |}.
Definition with_front (p : option nat) (self : t) : t :=
  {| nodes := nodes self; __front_items := __front_items self;
     __rear_items := __rear_items self; __size := __size self;
     rear := rear self; front := Some p |}.

(** The read-only properties. *)
Definition front_items (self : t) : option nat := __front_items self.
Definition rear_items (self : t) : option nat := __rear_items self.
Definition size (self : t) : Z := __size self.
Definition __len__ (self : t) : Z := __size self.

Definition is_empty (self : t) : bool :=
  match __front_items self with None => true | Some _ => false end.

(** Node objects: allocation, attribute read, attribute write. *)
Definition alloc (n : QueueNode.t ItemT) : M t nat :=
  fun self => let a := fresh (dom (nodes self)) in
              (Return a, with_nodes (<[a := n]> (nodes self)) self).
Definition node (a : nat) : M t (QueueNode.t ItemT) :=
  fun self => match nodes self !! a with
              | Some n => (Return n, self)
              | None => (Raise DanglingReference, self)
              end.
Definition set_node (a : nat) (f : QueueNode.t ItemT -> QueueNode.t ItemT)
  : M t unit :=
  n <- node a ;;
  modify (fun self => with_nodes (<[a := f n]> (nodes self)) self).

Definition dequeue_front : M t ItemT :=
  self <- get ;;
  if is_empty self then raise (IndexError "dequeue from empty deque")
  else match __front_items self with
  | None => raise (RuntimeError
      "Deque internal state error: front item is None despite non-empty deque")
  | Some f =>
      fnode <- node f ;;
      let item := QueueNode._value fnode in
      modify (with_front_items (QueueNode._next fnode)) ;;;
      (match QueueNode._next fnode with
       | Some f' => set_node f' (QueueNode.with_prev None)
       | None => modify (with_rear_items None)
       end) ;;;
      modify (fun s => with_size (__size s - 1) s) ;;;
      ret item
  end.

(** [dequeue_rear]: the new rear link goes to [self.rear], and [None] to
    [self.front], as the source writes them. *)
Definition dequeue_rear : M t ItemT :=
  self <- get ;;
  if is_empty self then raise (IndexError "dequeue from empty deque")
  else match __rear_items self with
  | None => raise (RuntimeError
      "Deque internal state error: rear item is None despite non-empty deque")
  | Some r =>
      rnode <- node r ;;
      let item := QueueNode._value rnode in
      modify (with_rear (QueueNode._prev rnode)) ;;;
      (match QueueNode._prev rnode with
       | Some r' => set_node r' (QueueNode.with_next None)
       | None => modify (with_front None)
       end) ;;;
      modify (fun s => with_size (__size s - 1) s) ;;;
      ret item
  end.

Definition enqueue_front (item : ItemT) : M t unit :=
  new_node <- alloc (QueueNode.__new__ item None None) ;;
  self <- get ;;
  (if is_empty self then
     modify (with_front_items (Some new_node)) ;;;
     modify (with_rear_items (Some new_node))
   else
     set_node new_node (QueueNode.with_next (__front_items self)) ;;;
     (match __front_items self with
      | Some f => set_node f (QueueNode.with_prev (Some new_node))
      | None => ret tt
      end) ;;;
     modify (with_front_items (Some new_node))) ;;;
  modify (fun s => with_size (__size s + 1) s).

Definition enqueue_rear (item : ItemT) : M t unit :=
  new_node <- alloc (QueueNode.__new__ item None None) ;;
  self <- get ;;
  (if is_empty self then
     modify (with_front_items (Some new_node)) ;;;
     modify (with_rear_items (Some new_node))
   else
     set_node new_node (QueueNode.with_prev (__rear_items self)) ;;;
     (match __rear_items self with
      | Some r => set_node r (QueueNode.with_next (Some new_node))
      | None => ret tt
      end) ;;;
     modify (with_rear_items (Some new_node))) ;;;
  modify (fun s => with_size (__size s + 1) s).

Definition peek_front : M t ItemT :=
  self <- get ;;
  if is_empty self then raise (IndexError "peek from empty deque")
  else match __front_items self with
  | None => raise (ValueError "cannot peak at front")
  | Some f => fnode <- node f ;; ret (QueueNode._value fnode)
  end.

Definition peek_rear : M t ItemT :=
  self <- get ;;
  if is_empty self then raise (IndexError "peek from empty deque")
  else match __rear_items self with
  | None => raise (ValueError "cannot peak at rear")
  | Some r => rnode <- node r ;; ret (QueueNode._value rnode)
  end.

(** [for item in items: self.enqueue_front(item)] *)
Fixpoint enqueue_all (items : list ItemT) : M t unit :=
  match items with
  | [] => ret tt
  | item :: items' => enqueue_front item ;;; enqueue_all items'
  end.

(** The object [__new__] starts from, and [__new__(items)] itself. *)
Definition empty : t :=
  {| nodes := ∅; __front_items := None; __rear_items := None; __size := 0;
     rear := None; front := None |}.

Definition __new__ (items : list ItemT) : outcome unit * t :=
  enqueue_all items empty.

(** The nodes met from link [p] on, following [_next]: what [__iter__]
    walks.  [fuel] bounds the walk; a walk that stops at [None] within the
    fuel is complete ([Some]). *)
Fixpoint walk (fuel : nat) (h : gmap nat (QueueNode.t ItemT)) (p : option nat)
  : option (list nat) :=
  match p with
  | None => Some []
  | Some a =>
      match fuel with
      | O => None
      | S fuel' =>
          match h !! a with
          | None => None
          | Some n =>
              match walk fuel' h (QueueNode._next n) with
              | Some l => Some (a :: l)
              | None => None
              end
          end
      end
  end.

(** [__iter__]: the items met from link [current] on, following [_next]
    until [None].  [fuel] bounds the walk: a walk still going when the fuel
    is spent is [None]. *)
Fixpoint iterate (fuel : nat) (h : gmap nat (QueueNode.t ItemT))
    (current : option nat) : option (list ItemT) :=
  match current with
  | None => Some []
  | Some a =>
      match fuel with
      | O => None
      | S fuel' =>
          match h !! a with
          | None => None
          | Some n =>
              match iterate fuel' h (QueueNode._next n) with
              | Some l => Some (QueueNode._value n :: l)
              | None => None
              end
          end
      end
  end.

(** The items [__iter__] yields, which [list(deque)] collects.  A walk
    from the front that takes more steps than there are nodes goes round a
    cycle of links and never ends ([None]). *)
Definition to_list (self : t) : option (list ItemT) :=
  iterate (base.size (nodes self)) (nodes self) (__front_items self).

End WithItem.
Arguments t ItemT : clear implicits.

End Deque.

(** ** digraph.py *)

(** A Python [set] is embedded as a duplicate-free list; the order of the
    list is the order in which the set is iterated, which the language
    leaves open, so that every order stands for a possible run. *)
Definition set_add {A} `{EqDecision A} (x : A) (s : list A) : list A :=
  if decide (x ∈ s) then s else s ++ [x].

Module DiGraph.

Section WithNode.
Context {NodeT : Type} `{EqDecision NodeT}.

Record t : Type := {
  _nodes : list NodeT;
  _edges : list (NodeT * NodeT)
}.

Definition __new__ : t := {| _nodes := []; _edges := [] |}.

Definition nodes (self : t) : list NodeT := _nodes self.
Definition edges (self : t) : list (NodeT * NodeT) := _edges self.

Definition add_node (node : NodeT) : M t unit :=
  modify (fun self =>
    {| _nodes := set_add node (_nodes self); _edges := _edges self |}).

Definition add_edge (tail head : NodeT) : M t unit :=
  modify (fun self =>
    {| _nodes := set_add head (set_add tail (_nodes self));
       _edges := set_add (tail, head) (_edges self) |}).

End WithNode.
Arguments t NodeT : clear implicits.

End DiGraph.

Module PartialOrder.

Section WithNode.
Context {NodeT : Type} `{EqDecision NodeT}.

Definition add_node (node : NodeT) : M (DiGraph.t NodeT) unit :=
  DiGraph.add_node node.

(** [[h for t, h in self._edges if t == node]] *)
Definition neighbors (edges : list (NodeT * NodeT)) (node : NodeT)
  : list NodeT :=
  snd <$> filter (fun e => fst e = node) edges.

(** The [while stack:] loop of [_creates_cycle].  The stack is kept with
    its top first: [stack.pop()] takes the head, [stack.extend(neighbors)]
    puts the neighbours on top, the last one topmost.  [None] is a loop
    still running when the fuel is spent. *)
Fixpoint search (fuel : nat) (edges : list (NodeT * NodeT)) (tail : NodeT)
    (visited stack : list NodeT) : option (outcome bool) :=
  match fuel with
  | O => None
  | S fuel' =>
      match stack with
      | [] => Some (Return false)
      | node :: stack' =>
          if decide (node = tail) then Some (Return true)
          else if decide (node ∈ visited)
          then Some (Raise (AttributeError
                 "{node} is in {visited} and cannot be added"))
          else search fuel' edges tail (node :: visited)
                 (reverse (neighbors edges node) ++ stack')
      end
  end.

(** Enough fuel for any run: each turn of the loop that goes on puts a new
    node into [visited], and there are at most [length edges + 1] nodes to
    meet. *)
Definition enough_fuel (self : DiGraph.t NodeT) : nat :=
  S (S (length (DiGraph._edges self))).

Definition _creates_cycle (self : DiGraph.t NodeT) (tail head : NodeT)
  : option (outcome bool) :=
  search (enough_fuel self) (DiGraph._edges self) tail [] [head].

Definition add_edge (tail head : NodeT) (self : DiGraph.t NodeT)
  : option (outcome unit * DiGraph.t NodeT) :=
  match _creates_cycle self tail head with
  | None => None
  | Some (Raise e) => Some (Raise e, self)
  | Some (Return true) =>
      Some (Raise (ValueError
        "Adding this edge creates a cycle, which is not allowed in a partial order."),
        self)
  | Some (Return false) => Some (DiGraph.add_edge tail head self)
  end.

End WithNode.

End PartialOrder.

(** ** arkham_horror.py: the action registry and the dispatcher *)

(** [str.replace(old, new)] for a non-empty [old]: every occurrence, left
    to right, without overlap.  [skip] counts the characters of a match
    still to be dropped. *)
Fixpoint replace_from (old new : string) (skip : nat) (s : string) : string :=
  match s with
  | EmptyString => EmptyString
  | String c s' =>
      match skip with
      | S k => replace_from old new k s'
      | O =>
          if String.prefix old s
          then new +:+ replace_from old new (String.length old - 1) s'
          else String c (replace_from old new 0 s')
      end
  end.

Definition str_replace (s old new : string) : string :=
  replace_from old new 0 s.

(** [str.startswith] *)
Definition startswith (s prefix : string) : bool := String.prefix prefix s.

(** A Python [dict] with string keys, in insertion order: [d[k] = v] and
    [d.get(k)]. *)
Fixpoint dict_set {V} (k : string) (v : V) (d : list (string * V))
  : list (string * V) :=
  match d with
  | [] => [(k, v)]
  | (k', v') :: d' =>
      if decide (k' = k) then (k, v) :: d' else (k', v') :: dict_set k v d'
  end.

Fixpoint dict_get {V} (k : string) (d : list (string * V)) : option V :=
  match d with
  | [] => None
  | (k', v) :: d' => if decide (k' = k) then Some v else dict_get k d'
  end.

Definition dict_keys {V} (d : list (string * V)) : list string := fst <$> d.

(** The functions defined in the body of [class ActionManager]. *)
Inductive Function : Type :=
| def___new__
| def_get_action_map
| def_perform_investigator_action
| def__move_investigator
| def__attack_monster
| def__evade_monster
| def__ward_doom
| def_resolve_encounter.

#[global] Instance Function_eq_dec : EqDecision Function.
Proof. solve_decision. Defined.

(** A value bound in a class body: a function (callable) or anything else
    (the docstring, the module name, the annotations). *)
Inductive ClassValue : Type :=
| Callable (f : Function)
| NotCallable.

Definition callable (v : ClassValue) : bool :=
  match v with Callable _ => true | NotCallable => false end.

(** [class Action(type)]: the metaclass. *)
Module Action.

(** [__new__(cls, name, bases_tup, dic_vals)]: the [_registered_actions]
    dictionary of the new class. *)
Fixpoint register (dic_vals : list (string * ClassValue))
    (registered : list (string * Function)) : list (string * Function) :=
  match dic_vals with
  | [] => registered
  | (key, value) :: rest =>
      match value with
      | Callable f =>
          if startswith key "_action"
          then register rest (dict_set key f registered)
          else register rest registered
      | NotCallable => register rest registered
      end
  end.

Definition __new__ (dic_vals : list (string * ClassValue))
  : list (string * Function) :=
  register dic_vals [].

End Action.

(** What a positional argument of a dispatched call is: the investigator
    object, or one of the caller's extra arguments. *)
Inductive Arg : Type :=
| InvestigatorArg (investigator : nat)
| ExtraArg (value : string).

(** The call the dispatcher ends with. *)
Record Invocation : Type := {
  callee : Function;
  arguments : list Arg
}.

(** [class ActionManager(metaclass=Action)] *)
Module ActionManager.

(** The namespace of the class body, in definition order.  The entries the
    interpreter adds are all named with two leading underscores. *)
Definition dic_vals : list (string * ClassValue) :=
  [ ("__module__", NotCallable);
    ("__qualname__", NotCallable);
    ("__doc__", NotCallable);
    ("__annotations__", NotCallable);
    ("__new__", Callable def___new__);
    ("get_action_map", Callable def_get_action_map);
    ("perform_investigator_action", Callable def_perform_investigator_action);
    ("_move_investigator", Callable def__move_investigator);
    ("_attack_monster", Callable def__attack_monster);
    ("_evade_monster", Callable def__evade_monster);
    ("_ward_doom", Callable def__ward_doom);
    ("resolve_encounter", Callable def_resolve_encounter) ].

(** The class attribute the metaclass sets. *)
Definition _registered_actions : list (string * Function) :=
  Action.__new__ dic_vals.

(** [get_action_map], for a class whose registry is [registered]. *)
Definition get_action_map_of (registered : list (string * Function))
  : list (string * Function) :=
  fold_left (fun d kf => dict_set (str_replace (fst kf) "_action" "") (snd kf) d)
            registered [].

Definition get_action_map : list (string * Function) :=
  get_action_map_of _registered_actions.

(** [InvestigatorManager.get_investigator] *)
Definition get_investigator (investigators : gmap string nat) (name : string)
  : outcome nat :=
  match investigators !! name with
  | None => Raise (KeyError
      "the investigator {name} doesn't exit in {self._investigator}")
  | Some i => Return i
  end.

Definition niladic (action : string) : bool :=
  bool_decide (action ∈ ["draw_token"; "draw_event_token"; "draw_monster"]).

(** [perform_investigator_action], for a class whose registry is
    [registered]: the outcome is the call made. *)
Definition perform_investigator_action_of
    (registered : list (string * Function))
    (investigators : gmap string nat)
    (investigator_name action : string) (args : list string)
  : outcome Invocation :=
  match get_investigator investigators investigator_name with
  | Raise e => Raise e
  | Return investigator =>
      let action_map := get_action_map_of registered in
      match dict_get action action_map with
      | None => Raise (NotFoundError action (dict_keys action_map))
      | Some action_func =>
          if niladic action
          then Return {| callee := action_func; arguments := [] |}
          else Return {| callee := action_func;
                         arguments := InvestigatorArg investigator
                                        :: (ExtraArg <$> args) |}
      end
  end.

Definition perform_investigator_action :=
  perform_investigator_action_of _registered_actions.

End ActionManager.

(** * Specification vocabulary *)

(** The damage a call [take_damage(amount)] deals before the floor. *)
Definition damage_dealt (m : Monster.t) (amount : Z) : Z :=
  if decide (Monster.state m = Exhausted) then 2 * amount else amount.

(** The distance the specification of [move] names. *)
Section Distance.
Import QArith_base.
Local Open Scope Z_scope.



End Distance.


(** Where an investigator is, and how many money tokens it holds. *)
Definition location_of (w : World) (investigator : nat) : option nat :=
  match investigators w !! investigator with
  | Some inv => Investigator._location inv
  | None => None
  end.

Definition money_of (w : World) (investigator : nat) : option Z :=
  match investigators w !! investigator with
  | Some inv =>
      InvestigatorItems._focus_tokens (Investigator._inv_items inv)
        !! "money_tokens"
  | None => None
  end.

(** The doom tokens lying on a location. *)
Definition doom_of (w : World) (space : nat) : option Z :=
  Space.doom_tokens <$> spaces w !! space.

(** The faces of the next [n] dice, and how many of them succeed. *)
Definition faces (r : Random.t) (n : nat) : list Z :=
  Random.face 1 6 r <$> seq 0 n.

Definition successes (r : Random.t) (n : nat) : Z :=
  Z.of_nat (length (filter (fun f => 5 <= f) (faces r n))).

(** The source of randomness after [n] calls of [randint]. *)
Definition advance (n : nat) (r : Random.t) : Random.t :=
  {| Random.stream := Random.stream r;
     Random.cursor := (n + Random.cursor r)%nat |}.

(** A monster to try the operations on: health 3, damage 1, created ready
    with an engagement component that starts ready too. *)
Definition ghoul_activation : MonsterActivation.t :=
  MonsterActivation.__init__ 1 "ghoul" 0 0.

Definition ghoul (stage : MonsterStages) (health : Z) : Monster.t :=
  {| Monster._name := "ghoul"; Monster._damage := 1;
     Monster._monster_health :=
       {| MonsterHealth.__health := health;
          MonsterHealth._state := MonsterState.__init__ stage |};
     Monster._monster_engagement :=
       MonsterEngagement.__init__ (MonsterState.__init__ Ready) None;
     Monster._monster_activation := ghoul_activation;
     Monster._monster_state := None |}.


Definition engaged_ghoul : Monster.t := snd (Monster.engage 0 (ghoul Ready 3)).

(** The calls a client can make on a monster, and the monster a sequence of
    calls leaves behind (a call that raises leaves what it had done up to
    the [raise]; the client goes on with the next call). *)
Inductive MonsterCall : Type :=
| CallEngage (investigator : nat)
| CallExhaust
| CallDisengage
| CallReady
| CallTakeDamage (amount : Z)
| CallSetLocation (location : nat).

Definition call (c : MonsterCall) : M Monster.t unit :=
  match c with
  | CallEngage investigator => Monster.engage investigator
  | CallExhaust => Monster.exhaust
  | CallDisengage => Monster.disengage
  | CallReady => Monster.ready
  | CallTakeDamage amount => Monster.take_damage amount
  | CallSetLocation location => Monster.set_location location
  end.

Fixpoint after (cs : list MonsterCall) (m : Monster.t) : Monster.t :=
  match cs with
  | [] => m
  | c :: cs' => after cs' (snd (call c m))
  end.

(** The stage held by the engagement component of a monster. *)
Definition engagement_stage (m : Monster.t) : MonsterStages :=
  MonsterState.stage (MonsterEngagement._state (Monster._monster_engagement m)).

(** An investigator status to try the operations on. *)
Definition status (health sanity : Z) : InvestigatorStatus.t :=
  {| InvestigatorStatus.__health := health;
     InvestigatorStatus.__sanity := sanity;
     InvestigatorStatus._is_defeated := false |}.

(** A small board to try combat and movement on.  Downtown lies at (0,0),
    Uptown at (0,1), the Docks at (0,3), the Woods at (3,4) and the Square
    at (2,2), each with 3 doom tokens.  One investigator, holding 5 money tokens and the
    skills lore 2 and observation 2, stands Downtown; its combat component
    has address 0 and is engaged with monster 0, an engaged ghoul of
    health 3. *)
Definition board_spaces : gmap nat Space.t :=
  <[4%nat := Space.__new__ "Square" (PyNum.Int 2, PyNum.Int 2) 3]>
  (<[3%nat := Space.__new__ "Woods" (PyNum.Int 3, PyNum.Int 4) 3]>
  (<[2%nat := Space.__new__ "Docks" (PyNum.Int 0, PyNum.Int 3) 3]>
  (<[1%nat := Space.__new__ "Uptown" (PyNum.Int 0, PyNum.Int 1) 3]>
  (<[0%nat := Space.__new__ "Downtown" (PyNum.Int 0, PyNum.Int 0) 3]> ∅)))).

Definition board_items : InvestigatorItems.t :=
  {| InvestigatorItems._money := 5;
     InvestigatorItems.__skill :=
       <[OBSERVATION := Skill.__new__ OBSERVATION 2]>
       (<[LORE := Skill.__new__ LORE 2]> ∅);
     InvestigatorItems._focus_tokens :=
       <["money_tokens" := 5]> InvestigatorItems.initial_tokens |}.

Definition board_investigator : Investigator.t :=
  {| Investigator._inv_items := board_items;
     Investigator._inv_status := status 3 3;
     Investigator._inv_location := 0%nat;
     Investigator._inv_combat := 0%nat;
     Investigator._location := Some 0%nat |}.

(** The board before the combat component is built. *)
Definition board_before_combat (r : Random.t) : World :=
  {| spaces := board_spaces;
     monsters := <[0%nat := engaged_ghoul]> ∅;
     investigators := <[0%nat := board_investigator]> ∅;
     combats := ∅;
     rng := r |}.

(** The combat component as [__init__] makes it, then engaged with
    monster 0. *)
Definition board_combat : CombatObj.t :=
  {| CombatObj._investigator := 0%nat;
     CombatObj._location := 0%nat;
     CombatObj.__engaged_monsters := [0%nat];
     CombatObj._inv_items := None |}.

Definition board (r : Random.t) : World :=
  with_combats (<[0%nat := board_combat]> ∅) (board_before_combat r).

(** The same board once a client has assigned the attribute [_inv_items]
    of the combat component to the investigator's items. *)
Definition board_patched (r : Random.t) : World :=
  with_combats
    (<[0%nat := CombatObj.with_inv_items (Some board_items) board_combat]> ∅)
    (board_before_combat r).

(** Dice that always show 6, and dice that always show 1. *)
Definition sixes : Random.t := {| Random.stream := fun _ => 5; Random.cursor := 0 |}.
Definition ones : Random.t := {| Random.stream := fun _ => 0; Random.cursor := 0 |}.




(** The board with the monster brought to health 0. *)
Definition board_defeated (r : Random.t) : World :=
  with_monsters (<[0%nat := ghoul Engaged 0]> ∅) (board r).

(** A graph to try the partial order on: the diamond 0 -> 1 -> 3,
    0 -> 2 -> 3, as four calls of [PartialOrder.add_edge] build it. *)
Definition diamond_edges : list (nat * nat) :=
  [(0, 1); (0, 2); (1, 3); (2, 3)]%nat.

Definition diamond_with (edges : list (nat * nat)) : DiGraph.t nat :=
  {| DiGraph._nodes := [0; 1; 2; 3]%nat; DiGraph._edges := edges |}.

Definition diamond : DiGraph.t nat := diamond_with diamond_edges.

(** Run [add_edge] on a graph that earlier calls may have failed to
    produce. *)
Definition then_add_edge (tail head : nat)
    (g : option (outcome unit * DiGraph.t nat))
  : option (outcome unit * DiGraph.t nat) :=
  match g with
  | Some (Return _, g') => PartialOrder.add_edge tail head g'
  | _ => None
  end.

(** The investigators registered with the dispatcher in the examples. *)
Definition roster : gmap string nat := {[ "Lakshmi Patel" := 0%nat ]}.

(** Paths and cycles of a graph given by its edges. *)
Section Reachability.
Context {NodeT : Type} `{EqDecision NodeT}.

Inductive reaches (edges : list (NodeT * NodeT)) : NodeT -> NodeT -> Prop :=
| reaches_here (x : NodeT) : reaches edges x x
| reaches_step (x y z : NodeT) :
    (x, y) ∈ edges -> reaches edges y z -> reaches edges x z.

(** No edge is closed into a cycle by a path from its head to its tail. *)
Definition acyclic (edges : list (NodeT * NodeT)) : Prop :=
  forall x y, (x, y) ∈ edges -> ~ reaches edges y x.

(** The graph a call of [PartialOrder.add_edge] leaves, raised or not. *)
Definition graph_after (tail head : NodeT) (g : DiGraph.t NodeT)
  : DiGraph.t NodeT :=
  match PartialOrder.add_edge tail head g with
  | Some (_, g') => g'
  | None => g
  end.

(** The graph a sequence of calls leaves, the client going on after a call
    that raises. *)
Fixpoint graph_after_all (calls : list (NodeT * NodeT)) (g : DiGraph.t NodeT)
  : DiGraph.t NodeT :=
  match calls with
  | [] => g
  | (tail, head) :: calls' => graph_after_all calls' (graph_after tail head g)
  end.

End Reachability.

(** What a well-formed deque looks like: the nodes [l] (address and item)
    are linked through [_next] from the front link down to [None], each
    [_prev] points to the node before, and the rear link is the last node
    ([prev], the link before the first node, when there is none). *)
Section DequeRepresentation.
Context {ItemT : Type}.

Fixpoint chain (h : gmap nat (QueueNode.t ItemT)) (prev p : option nat)
    (l : list (nat * ItemT)) (last : option nat) : Prop :=
  match l with
  | [] => p = None /\ last = prev
  | (a, x) :: l' =>
      p = Some a /\
      exists n, h !! a = Some n /\
                QueueNode._value n = x /\
                QueueNode._prev n = prev /\
                chain h (Some a) (QueueNode._next n) l' last
  end.

(** The deque [d] holds the items [xs], front first: its private links
    delimit a chain of distinct nodes carrying [xs], and its size counter is
    their number. *)
Definition represents (d : Deque.t ItemT) (xs : list ItemT) : Prop :=
  exists l : list (nat * ItemT),
    NoDup (fst <$> l) /\
    snd <$> l = xs /\
    chain (Deque.nodes d) None (Deque.front_items d) l (Deque.rear_items d) /\
    Deque.size d = Z.of_nat (length l).

End DequeRepresentation.

(** A class body whose handlers do carry the prefix, to try the registry
    on. *)
Definition prefixed_dic_vals : list (string * ClassValue) :=
  [ ("__doc__", NotCallable);
    ("_actionmove_investigator", Callable def__move_investigator);
    ("_actionward_doom", Callable def__ward_doom);
    ("_action_table", NotCallable);
    ("resolve_encounter", Callable def_resolve_encounter) ].

(** * Further vocabulary *)

From stdpp Require Import pretty.

Local Open Scope string_scope.
Local Open Scope Z_scope.
Local Open Scope list_scope.

(** ** Calls on a deque, and the list they are meant to behave as *)
Section DequeCalls.
Context {ItemT : Type}.

(** The calls that go through the private links ([dequeue_rear] writes
    other attributes and is left out). *)
Inductive DequeCall : Type :=
| CallEnqueueFront (item : ItemT)
| CallEnqueueRear (item : ItemT)
| CallDequeueFront
| CallPeekFront
| CallPeekRear.

(** What a call answers: the item for a dequeue or a peek, [None] for an
    enqueue. *)
Definition deque_call (c : DequeCall) : M (Deque.t ItemT) (option ItemT) :=
  match c with
  | CallEnqueueFront item => Deque.enqueue_front item ;;; ret None
  | CallEnqueueRear item => Deque.enqueue_rear item ;;; ret None
  | CallDequeueFront => x <- Deque.dequeue_front ;; ret (Some x)
  | CallPeekFront => x <- Deque.peek_front ;; ret (Some x)
  | CallPeekRear => x <- Deque.peek_rear ;; ret (Some x)
  end.

(** The same calls on a plain list, front first. *)
Definition list_call (c : DequeCall) : M (list ItemT) (option ItemT) :=
  fun xs =>
    match c with
    | CallEnqueueFront item => (Return None, item :: xs)
    | CallEnqueueRear item => (Return None, xs ++ [item])
    | CallDequeueFront =>
        match xs with
        | [] => (Raise (IndexError "dequeue from empty deque"), xs)
        | x :: xs' => (Return (Some x), xs')
        end
    | CallPeekFront =>
        match xs with
        | [] => (Raise (IndexError "peek from empty deque"), xs)
        | x :: _ => (Return (Some x), xs)
        end
    | CallPeekRear =>
        match last xs with
        | None => (Raise (IndexError "peek from empty deque"), xs)
        | Some x => (Return (Some x), xs)
        end
    end.

(** A client making the calls one after the other, going on after a call
    that raises: the answers, and the state left. *)
Fixpoint run_calls {S A C} (call : C -> M S A) (cs : list C) (s : S)
  : list (outcome A) * S :=
  match cs with
  | [] => ([], s)
  | c :: cs' =>
      let '(o, s') := call c s in
      let '(os, s'') := run_calls call cs' s' in
      (o :: os, s'')
  end.

End DequeCalls.
Arguments DequeCall ItemT : clear implicits.

(** ** encounter_deck.py, event_deck.py, monster_deck.py *)

(** [class EncounterDeck], [class EventDeck] and [class MonsterDeck] have
    the same methods over their [_cards] attribute, a [Deque]; the deck is
    embedded as that deque.  [random.shuffle] is the argument
    [shuffle_func]: the rearrangement it makes of the list it is given. *)
Module Deck.

Section WithCard.
Context {CardT : Type}.

Definition __init__ : Deque.t CardT := Deque.empty.

(** [len(self._cards)]: the built-in [len] calls [Deque.__len__] and
    refuses a negative answer. *)
Definition len (_cards : Deque.t CardT) : outcome Z :=
  if Deque.__len__ _cards <? 0
  then Raise (ValueError "__len__() should return >= 0")
  else Return (Deque.__len__ _cards).

(** [list(self._cards)]: the built-in [list] asks [len] for the size to
    allot before it iterates, and passes on the [ValueError]; [None] when the
    iteration never ends. *)
Definition list_of (_cards : Deque.t CardT) : option (outcome (list CardT)) :=
  match len _cards with
  | Raise e => Some (Raise e)
  | Return _ =>
      match Deque.to_list _cards with
      | None => None
      | Some cards => Some (Return cards)
      end
  end.

(** [cards = list(self._cards); random.shuffle(cards);
    self._cards = Deque(cards)]: [None] when the iteration never ends; when
    [list] raises the deck is left as it is. *)
Definition shuffle (shuffle_func : list CardT -> list CardT)
    (self : Deque.t CardT) : option (outcome unit * Deque.t CardT) :=
  match list_of self with
  | None => None
  | Some (Raise e) => Some (Raise e, self)
  | Some (Return cards) =>
      Some (Return tt, snd (Deque.__new__ (shuffle_func cards)))
  end.

Definition draw_front : M (Deque.t CardT) CardT := Deque.dequeue_front.
Definition draw_rear : M (Deque.t CardT) CardT := Deque.dequeue_rear.
Definition add_card_rear (card : CardT) : M (Deque.t CardT) unit :=
  Deque.enqueue_rear card.
Definition add_card_front (card : CardT) : M (Deque.t CardT) unit :=
  Deque.enqueue_front card.
Definition __len__ (self : Deque.t CardT) : outcome Z := len self.

End WithCard.

End Deck.

(** ** fight_prep.py, continued *)

(** [class InvestigatorTokens]: the object is its dictionary
    [__focus_tokens], which [__init__] fills with the seven counters. *)
Module InvestigatorTokens.

Definition __init__ : gmap string Z := InvestigatorItems.initial_tokens.

Definition _validate_operations (token_type : string)
  : M (gmap string Z) unit :=
  self <- get ;;
  match self !! token_type with
  | None => raise (KeyError ("Token type '" +:+ token_type +:+ "' not found"))
  | Some _ => ret tt
  end.

Definition add_token (token_type : string) (amount : Z)
  : M (gmap string Z) unit :=
  _validate_operations token_type ;;;
  self <- get ;;
  match self !! token_type with
  | None => raise (KeyError token_type)
  | Some v => put (<[token_type := v + amount]> self)
  end.

Definition spend_token (token_type : string) (amount : Z)
  : M (gmap string Z) unit :=
  if amount <? 0 then raise (NegativeValueError amount)
  else
    _validate_operations token_type ;;;
    self <- get ;;
    match self !! token_type with
    | None => raise (KeyError token_type)
    | Some v =>
        if v <? amount
        then raise (ValueError ("Not enough " +:+ token_type +:+ " to spend"))
        else put (<[token_type := v - amount]> self)
    end.

Definition get_token_count (token_type : string) : M (gmap string Z) Z :=
  self <- get ;;
  match self !! token_type with
  | None => raise (KeyError ("Token type '" +:+ token_type +:+ "' not found"))
  | Some v => ret v
  end.

(** [for token in self.__focus_tokens: self.__focus_tokens[token] = 0] *)
Definition reset_tokens : M (gmap string Z) unit :=
  modify (fmap (fun _ => 0)).

End InvestigatorTokens.

(** The calls a client can make on the tokens of an investigator. *)
Inductive TokenCall : Type :=
| CallAddToken (token_type : string) (amount : Z)
| CallSpendToken (token_type : string) (amount : Z)
| CallResetTokens.

Definition token_call (c : TokenCall) : M (gmap string Z) unit :=
  match c with
  | CallAddToken token_type amount =>
      InvestigatorTokens.add_token token_type amount
  | CallSpendToken token_type amount =>
      InvestigatorTokens.spend_token token_type amount
  | CallResetTokens => InvestigatorTokens.reset_tokens
  end.

(** The calls that put nothing negative in: every amount added is at
    least 0. *)
Definition adds_no_debt (c : TokenCall) : Prop :=
  match c with
  | CallAddToken _ amount => 0 <= amount
  | _ => True
  end.

(** [class Trade]: the transfer of money.  The two investigators are given
    by address.  [inv._inv_items.money -= money] reads the property,
    subtracts, and hands the difference to the setter. *)
Module Trade.

Definition on_items {A} (investigator : nat) (m : M InvestigatorItems.t A)
  : M World A :=
  on_investigator investigator
    (zoom Investigator._inv_items Investigator.with_inv_items m).

Definition _trade_money (inv ally : nat) (money : Z) : M World unit :=
  i <- deref investigators inv ;;
  if InvestigatorItems.money (Investigator._inv_items i) <? money
  then raise (ValueError
    ("You cannot spend what you don't have. Your money is "
     +:+ pretty (InvestigatorItems.money (Investigator._inv_items i))
     +:+ " and you are practically broke, mate!"))
  else if money <? 0 then raise (NegativeValueError money)
  else
    i' <- deref investigators inv ;;
    on_items inv
      (InvestigatorItems.set_money
         (InvestigatorItems.money (Investigator._inv_items i') - money)) ;;;
    on_items ally (InvestigatorItems.add_money money).

End Trade.

(** The money attribute of an investigator's items. *)
Definition purse_of (w : World) (investigator : nat) : option Z :=
  match investigators w !! investigator with
  | Some inv => Some (InvestigatorItems.money (Investigator._inv_items inv))
  | None => None
  end.

(** The calls a client can make on a skill. *)
Inductive SkillCall : Type :=
| CallImprove (skill : SkillName) (amount : Z)
| CallReduce (skill : SkillName) (amount : Z).

Definition skill_call (c : SkillCall) : M Skill.t unit :=
  match c with
  | CallImprove skill amount => Skill.improve skill amount
  | CallReduce skill amount => Skill.reduce skill amount
  end.

(** ** Calls on a partial order *)
Section GraphCalls.
Context {NodeT : Type} `{EqDecision NodeT}.

Inductive GraphCall : Type :=
| CallAddNode (node : NodeT)
| CallAddEdge (tail head : NodeT).

(** The graph a call leaves, raised or not. *)
Definition partial_order_call (g : DiGraph.t NodeT) (c : GraphCall)
  : DiGraph.t NodeT :=
  match c with
  | CallAddNode node => snd (PartialOrder.add_node node g)
  | CallAddEdge tail head => graph_after tail head g
  end.

(** No node has two edges coming in. *)
Definition forest (edges : list (NodeT * NodeT)) : Prop :=
  forall x y z, (x, z) ∈ edges -> (y, z) ∈ edges -> x = y.

(** What every graph built through [PartialOrder] satisfies. *)
Definition well_formed (g : DiGraph.t NodeT) : Prop :=
  acyclic (DiGraph.edges g) /\
  (forall x y, (x, y) ∈ DiGraph.edges g ->
               x ∈ DiGraph.nodes g /\ y ∈ DiGraph.nodes g) /\
  NoDup (DiGraph.nodes g) /\ NoDup (DiGraph.edges g).

End GraphCalls.
Arguments GraphCall NodeT : clear implicits.

(** ** mythos_token.py, mythos_cup.py, token_pools.py *)

(** [NotImplementedError] and [RecursionError] are subclasses of
    [RuntimeError]. *)
Definition NotImplementedError : PyExc := RuntimeError "NotImplementedError".
Definition RecursionError : PyExc :=
  RuntimeError "RecursionError: maximum recursion depth exceeded".

(** [list.pop()]: the last element and the elements before it. *)
Definition list_pop {A} (l : list A) : option (A * list A) :=
  match reverse l with
  | [] => None
  | x :: r => Some (x, reverse r)
  end.

(** [for _ in range(n): body] *)
Fixpoint for_range {S} (n : nat) (body : M S unit) : M S unit :=
  match n with
  | O => ret tt
  | S n' => body ;;; for_range n' body
  end.

(** [class MythosCup] and the commands.  A [MythosToken] is embedded as its
    [type]; a command holds the address of the cup it was created with
    ([Blank] holds none); the cups live in a store. *)
Module MythosCup.

Inductive Mythos_CMD : Type :=
| Replenish (_cup : nat)
| SpreadDoom (_cup : nat)
| SpawnMonster (_cup : nat)
| ReadHeadline (_cup : nat)
| SpawnClue (_cup : nat)
| GateBurst (_cup : nat)
| Reckoning (_cup : nat)
| Blank.

Record t : Type := {
  _tokens : list string;
  _commands : gmap string Mythos_CMD
}.

Definition with_tokens (l : list string) (self : t) : t :=
  {| _tokens := l; _commands := _commands self |}.
Definition with_commands (d : gmap string Mythos_CMD) (self : t) : t :=
  {| _tokens := _tokens self; _commands := d |}.

Definition __init__ : t := {| _tokens := []; _commands := ∅ |}.

Definition tokens (self : t) : list string := _tokens self.

Definition __size__ (self : t) : Z := Z.of_nat (length (tokens self)).

Definition draw_token : M t string :=
  self <- get ;;
  if __size__ self =? 0 then raise (ValueError "the mythos cup is empty")
  else match list_pop (_tokens self) with
       | None => raise (IndexError "pop from empty list")
       | Some (token, rest) => put (with_tokens rest self) ;;; ret token
       end.

Definition token_types : list string :=
  ["spread_doom"; "spawn_monster"; "read_headline"; "spawn_clue";
   "gate_burst"; "reckoning"; "blank"].

Definition replenish : M t unit := modify (with_tokens token_types).

Definition spread_doom : M t unit := raise NotImplementedError.
Definition spawn_monster : M t unit := raise NotImplementedError.
Definition read_headline : M t unit := raise NotImplementedError.
Definition spawn_clue : M t unit := raise NotImplementedError.
Definition gate_burst : M t unit := raise NotImplementedError.
Definition reckoning : M t unit := raise NotImplementedError.

Definition register_command (token : string) (command : Mythos_CMD)
  : M t unit :=
  modify (fun self => with_commands (<[token := command]> (_commands self))
                        self).

(** A method called on the cup behind an address. *)
Definition on_cup {A} (cup : nat) (m : M t A) : M (gmap nat t) A :=
  fun cups => match cups !! cup with
              | Some c => let '(o, c') := m c in (o, <[cup := c']> cups)
              | None => (Raise DanglingReference, cups)
              end.

(** [execute] of each command class. *)
Definition execute (command : Mythos_CMD) : M (gmap nat t) unit :=
  match command with
  | Replenish cup => on_cup cup replenish
  | SpreadDoom cup => on_cup cup spread_doom
  | SpawnMonster cup => on_cup cup spawn_monster
  | ReadHeadline cup => on_cup cup read_headline
  | SpawnClue cup => on_cup cup spawn_clue
  | GateBurst cup => on_cup cup gate_burst
  | Reckoning cup => on_cup cup reckoning
  | Blank => raise NotImplementedError
  end.

Definition execute_command (self : nat) (token : string)
  : M (gmap nat t) Mythos_CMD :=
  cup <- on_cup self get ;;
  match _commands cup !! token with
  | None => raise (ValueError "command doesnt exists")
  | Some command => execute command ;;; ret command
  end.

End MythosCup.

(** [class TokensInteractions]: [draw_token], on the cup [_cup]. *)
Module TokensInteractions.

Definition draw_token (_cup : nat) : M (gmap nat MythosCup.t) unit :=
  cup <- MythosCup.on_cup _cup get ;;
  if MythosCup.__size__ cup <? 2
  then raise (ValueError
                "the cup needs to have at least 2 mythos inside to draw")
  else for_range 2
         (token <- MythosCup.on_cup _cup MythosCup.draw_token ;;
          MythosCup.execute_command _cup token ;;; ret tt).

End TokensInteractions.

(** The commands that replenish a cup. *)
Definition replenishes (command : MythosCup.Mythos_CMD) : bool :=
  match command with
  | MythosCup.Replenish _ => true
  | _ => false
  end.

(** The cup a command holds in [_cup]; a [Blank] holds none. *)
Definition cup_of (command : MythosCup.Mythos_CMD) : option nat :=
  match command with
  | MythosCup.Replenish cup | MythosCup.SpreadDoom cup
  | MythosCup.SpawnMonster cup | MythosCup.ReadHeadline cup
  | MythosCup.SpawnClue cup | MythosCup.GateBurst cup
  | MythosCup.Reckoning cup => Some cup
  | MythosCup.Blank => None
  end.

(** The tokens in the cup behind an address. *)
Definition tokens_of (cups : gmap nat MythosCup.t) (cup : nat)
  : option (list string) :=
  MythosCup.tokens <$> cups !! cup.

(** ** spell_effects.py, spell.py *)

(** [class SpellEffect] and its three subclasses; [apply] is dispatched on
    the class of the effect.  The investigator is given by address. *)
Module SpellEffect.

Inductive t : Type :=
| Base
| HealEffect
| BoostSanityEffect
| DamageMonsterEffect.

(** [investigator.engaged_monsters]: the list of the combat component. *)
Definition engaged_monsters (investigator : nat) : M World (list nat) :=
  inv <- deref investigators investigator ;;
  combat <- deref combats (Investigator._inv_combat inv) ;;
  ret (CombatObj.engaged_monsters combat).

Definition validate_args (investigator : nat) : M World unit :=
  engaged <- engaged_monsters investigator ;;
  match engaged with
  | [] => raise (ValueError "No monster found to engage with.")
  | _ :: _ =>
      inv <- deref investigators investigator ;;
      let status := Investigator._inv_status inv in
      if (InvestigatorStatus.health status <=? 0)
         || (InvestigatorStatus.sanity status <=? 0)
      then raise (AttributeError
                    "Investigator is dead and unable to cast spells.")
      else ret tt
  end.

Definition apply (self : t) (investigator loc : nat) : M World unit :=
  match self with
  | Base => raise NotImplementedError
  | HealEffect =>
      validate_args investigator ;;;
      on_investigator investigator
        (Investigator.on_status (InvestigatorStatus.heal 2)) ;;;
      on_investigator investigator (Investigator.assign_horror 1)
  | BoostSanityEffect =>
      validate_args investigator ;;;
      on_investigator investigator
        (Investigator.on_status (InvestigatorStatus.restore_sanity 2)) ;;;
      on_investigator investigator (Investigator.assign_horror 1)
  | DamageMonsterEffect =>
      validate_args investigator ;;;
      engaged <- engaged_monsters investigator ;;
      match engaged with
      | [] => raise (IndexError "list index out of range")
      | monster :: _ =>
          on_monster monster (Monster.take_damage 2) ;;;
          on_investigator investigator (Investigator.assign_horror 1) ;;;
          m <- deref monsters monster ;;
          if Monster.is_defeated m
          then
            inv <- deref investigators investigator ;;
            combat <- deref combats (Investigator._inv_combat inv) ;;
            match list_remove monster (CombatObj.engaged_monsters combat) with
            | None => raise (ValueError "list.remove(x): x not in list")
            | Some l =>
                on_combat (Investigator._inv_combat inv)
                  (modify (CombatObj.with_engaged_monsters l))
            end
          else ret tt
      end
  end.

End SpellEffect.

Module Spell.

Record t : Type := {
  _name : string;
  _effect : SpellEffect.t;
  _horror : Z
}.

Definition __init__ (name : string) (effect : SpellEffect.t) (horror : Z)
  : t :=
  {| _name := name; _effect := effect; _horror := horror |}.

Definition name (self : t) : string := _name self.
Definition effect (self : t) : SpellEffect.t := _effect self.
Definition horror (self : t) : Z := _horror self.

Definition cast (self : t) (investigator loc : nat) : M World unit :=
  SpellEffect.apply (_effect self) investigator loc.

End Spell.

(** The health and the sanity of the investigator behind an address. *)
Definition status_of (w : World) (investigator : nat) : option (Z * Z) :=
  match investigators w !! investigator with
  | Some inv =>
      Some (InvestigatorStatus.health (Investigator._inv_status inv),
            InvestigatorStatus.sanity (Investigator._inv_status inv))
  | None => None
  end.

(** The monsters the investigator behind an address is engaged with. *)
Definition engaged_of (w : World) (investigator : nat) : option (list nat) :=
  match investigators w !! investigator with
  | Some inv =>
      CombatObj.engaged_monsters <$> combats w !! Investigator._inv_combat inv
  | None => None
  end.

(** What the healing effects do to health and sanity when they go
    through. *)
Definition healed (effect : SpellEffect.t) (status : Z * Z) : Z * Z :=
  match effect with
  | SpellEffect.HealEffect => (fst status + 2, snd status - 1)
  | SpellEffect.BoostSanityEffect => (fst status, snd status + 2 - 1)
  | _ => status
  end.

(** ** The commands of fight_prep.py and the facade of investigator.py *)

(** Each command object holds what its [__init__] assigns.  The methods of
    [Investigator] that a command calls back are passed to
    [execute_action] as an argument. *)
Module MoveCommand.
Record t : Type := { _investigator : nat; _new_space : nat }.
Definition __init__ (investigator new_space : nat) : t :=
  {| _investigator := investigator; _new_space := new_space |}.
Definition execute_action (move : nat -> nat -> M World unit) (self : t)
  : M World unit :=
  move (_investigator self) (_new_space self).
End MoveCommand.

(** [AttackMonsterCommand.__init__] assigns [_investigator] and [_monster];
    [_combat], which [execute_action] reads, is only annotated in the class
    body. *)
Module AttackMonsterCommand.
Record t : Type := {
  _investigator : nat;
  _monster : nat;
  _combat : option nat
}.
Definition __init__ (investigator monster : nat) : t :=
  {| _investigator := investigator; _monster := monster; _combat := None |}.
Definition execute_action (self : t) : M World unit :=
  match _combat self with
  | None =>
      raise (AttributeError
        "'AttackMonsterCommand' object has no attribute '_combat'")
  | Some combat => Combat.attack_monster combat (_monster self)
  end.
End AttackMonsterCommand.

Module CastSpellCommand.
Record t : Type := { _spell : Spell.t; _investigator : nat; _monster : nat }.
Definition __init__ (spell : Spell.t) (investigator monster : nat) : t :=
  {| _spell := spell; _investigator := investigator; _monster := monster |}.
Definition execute_action
    (cast_spell : nat -> Spell.t -> nat -> M World unit) (self : t)
  : M World unit :=
  cast_spell (_investigator self) (_spell self) (_monster self).
End CastSpellCommand.

Module WardDoomCommand.
Record t : Type := { _investigator : nat }.
Definition __init__ (investigator : nat) : t :=
  {| _investigator := investigator |}.
Definition execute_action (ward_doom : nat -> M World unit) (self : t)
  : M World unit :=
  ward_doom (_investigator self).
End WardDoomCommand.

(** The action methods of [class Investigator]; [self] is the address of
    the investigator.  [depth] is the number of calls the interpreter's
    stack still has room for: a method that calls itself through its
    command ends in [RecursionError] when the room is used up. *)
Module InvestigatorActions.

Fixpoint move (depth : nat) (self space : nat) : M World unit :=
  match depth with
  | O => raise RecursionError
  | S depth' =>
      MoveCommand.execute_action (move depth') (MoveCommand.__init__ self space)
  end.

Definition attack_monster (self monster : nat) : M World unit :=
  AttackMonsterCommand.execute_action
    (AttackMonsterCommand.__init__ self monster).

Fixpoint cast_spell (depth : nat) (self : nat) (spell : Spell.t)
    (monster : nat) : M World unit :=
  match depth with
  | O => raise RecursionError
  | S depth' =>
      CastSpellCommand.execute_action (cast_spell depth')
        (CastSpellCommand.__init__ spell self monster)
  end.

Fixpoint ward_doom (depth : nat) (self : nat) : M World unit :=
  match depth with
  | O => raise RecursionError
  | S depth' =>
      WardDoomCommand.execute_action (ward_doom depth')
        (WardDoomCommand.__init__ self)
  end.

Definition evade_monster (self monster : nat) : M World unit :=
  inv <- deref investigators self ;;
  Combat.evade_monster (Investigator._inv_combat inv) monster.

End InvestigatorActions.

(** [class InvestigatorSpells]: the combat component, and the status, which
    is given as the address of the investigator whose [_inv_status] it
    is. *)
Module InvestigatorSpells.

Record t : Type := { _combat : nat; _status : nat }.

Definition __init__ (combat status : nat) : t :=
  {| _combat := combat; _status := status |}.

Definition on_status {A} (self : t) (m : M InvestigatorStatus.t A)
  : M World A :=
  on_investigator (_status self) (Investigator.on_status m).

Definition cast_spell (self : t) (spell : Spell.t) (monster : nat)
  : M World unit :=
  is_defeated <- on_status self
                   (s <- get ;; ret (InvestigatorStatus.is_defeated s)) ;;
  if is_defeated : bool
  then raise (AttributeError
                "the investigator is defeated and cant perform action")
  else
    Combat.attack_monster (_combat self) monster ;;;
    on_status self (InvestigatorStatus.lose_sanity (Spell.horror spell)).

Definition assign_damage (self : t) (damage : Z) : M World unit :=
  if damage <? 0 then raise (NegativeValueError damage)
  else on_status self (InvestigatorStatus.take_damage damage).

Definition assign_horror (self : t) (horror : Z) : M World unit :=
  if horror <=? 0 then raise (NegativeValueError horror)
  else on_status self (InvestigatorStatus.lose_sanity horror).

End InvestigatorSpells.

(** The health of the monster behind an address. *)
Definition health_of (w : World) (monster : nat) : option Z :=
  Monster.health <$> monsters w !! monster.

(** ** fight_prep.py: the transfer of remnants *)

(** The [InvestigatorTokens] objects live in a store; [_trade_remnants] is
    given the addresses of [inv._invest_token] and [ally._invest_token]. *)
Definition on_tokens {A} (tokens : nat) (m : M (gmap string Z) A)
  : M (gmap nat (gmap string Z)) A :=
  fun store => match store !! tokens with
               | Some d => let '(o, d') := m d in (o, <[tokens := d']> store)
               | None => (Raise DanglingReference, store)
               end.

Definition _trade_remnants (inv ally : nat) (remnants : Z)
  : M (gmap nat (gmap string Z)) unit :=
  count <- on_tokens inv
             (InvestigatorTokens.get_token_count "remnant_tokens") ;;
  if count <? remnants
  then raise (ValueError ("not enough remnants to spend " +:+ pretty remnants))
  else if remnants <? 0 then raise (NegativeValueError remnants)
  else
    on_tokens inv (InvestigatorTokens.spend_token "remnant_tokens" remnants) ;;;
    on_tokens ally (InvestigatorTokens.add_token "remnant_tokens" remnants).

(** The remnants held in the tokens behind an address. *)
Definition remnants_of (store : gmap nat (gmap string Z)) (tokens : nat)
  : option Z :=
  match store !! tokens with
  | Some d => d !! "remnant_tokens"
  | None => None
  end.

(** ** arkham_horror.py: [class SpaceManager] *)

(** The graph of the locations (a plain [DiGraph], its nodes the addresses
    of the [Space] objects) and the dictionary from names to locations.
    [add_space] reads the name of the location in the store [spaces]. *)
Module SpaceManager.

Record t : Type := {
  _graph : DiGraph.t nat;
  __spaces : gmap string nat
}.

Definition with_graph (g : DiGraph.t nat) (self : t) : t :=
  {| _graph := g; __spaces := __spaces self |}.
Definition with_spaces (d : gmap string nat) (self : t) : t :=
  {| _graph := _graph self; __spaces := d |}.

Definition __init__ : t := {| _graph := DiGraph.__new__; __spaces := ∅ |}.

Definition on_graph {A} (m : M (DiGraph.t nat) A) : M t A :=
  zoom _graph with_graph m.

Definition add_space (spaces : gmap nat Space.t) (loc : nat) : M t unit :=
  on_graph (DiGraph.add_node loc) ;;;
  match spaces !! loc with
  | None => raise DanglingReference
  | Some space =>
      modify (fun self =>
        with_spaces (<[Space.name space := loc]> (__spaces self)) self)
  end.

Definition connect_spaces (space1_name space2_name : string) : M t unit :=
  self <- get ;;
  match __spaces self !! space1_name with
  | None => raise (KeyError space1_name)
  | Some loc1 =>
      match __spaces self !! space2_name with
      | None => raise (KeyError space2_name)
      | Some loc2 => on_graph (DiGraph.add_edge loc1 loc2)
      end
  end.

Definition get_space (name : string) : M t nat :=
  self <- get ;;
  match __spaces self !! name with
  | None => raise (KeyError name)
  | Some loc => ret loc
  end.

End SpaceManager.

(** The calls a client can make on a space manager. *)
Inductive SpaceCall : Type :=
| CallAddSpace (loc : nat)
| CallConnectSpaces (space1_name space2_name : string).

Definition space_call (spaces : gmap nat Space.t) (c : SpaceCall)
  : M SpaceManager.t unit :=
  match c with
  | CallAddSpace loc => SpaceManager.add_space spaces loc
  | CallConnectSpaces space1_name space2_name =>
      SpaceManager.connect_spaces space1_name space2_name
  end.

(** A location of the graph is one that was added with [add_space]: it is a
    node, and the store holds a space for it. *)
Definition placed (spaces : gmap nat Space.t) (self : SpaceManager.t)
    (loc : nat) : Prop :=
  loc ∈ DiGraph.nodes (SpaceManager._graph self) /\ is_Some (spaces !! loc).

(** ** investigator_status.py: [class InvestigatorClues] *)

(** The object is its list [__clues]; a clue is the address of a [Clue]
    object ([Clue] defines no [__eq__]: two clues are equal when they are
    the same object). *)
Module InvestigatorClues.

Definition __init__ (clue : list nat) : list nat := clue.

Definition clues (self : list nat) : list nat := self.

Definition add_clue (clue : nat) : M (list nat) unit :=
  modify (fun self => self ++ [clue]).

Definition validate_clue (clue : nat) (self : list nat) : bool :=
  bool_decide (clue ∈ self).

Definition remove_clue (clue : nat) : M (list nat) unit :=
  self <- get ;;
  if decide (clue ∉ self)
  then raise (ValueError
    "Clue not found in the clues list and hence cannot be removed.")
  else match list_remove clue self with
       | None => raise (ValueError "list.remove(x): x not in list")
       | Some l => put l
       end.

End InvestigatorClues.

(** ** arkham_horror.py: [class GameSetup] *)

(** [for x in l: body(x)] *)
Fixpoint for_each {S A} (l : list A) (body : A -> M S unit) : M S unit :=
  match l with
  | [] => ret tt
  | x :: l' => body x ;;; for_each l' body
  end.

(** The components [__new__] stores: the space manager, the dictionary
    [_investigators] of the investigator manager (names and addresses, in
    insertion order), the three decks and the cup.  [shuffle_encounter],
    [shuffle_event] and [shuffle_monster] are what [random.shuffle] does to
    the cards of each deck; the locations and the investigators are read in
    the world [w]. *)
Module GameSetup.

Section WithCards.
Context {EncounterCardT EventCardT MonsterT : Type}.

Record t : Type := {
  _space_manager : SpaceManager.t;
  _investigator_manager : list (string * nat);
  _encounter_deck : Deque.t EncounterCardT;
  _event_deck : Deque.t EventCardT;
  _monster_deck : Deque.t MonsterT;
  _mythos_cup : MythosCup.t
}.

Definition with_space_manager (sm : SpaceManager.t) (self : t) : t :=
  {| _space_manager := sm;
     _investigator_manager := _investigator_manager self;
     _encounter_deck := _encounter_deck self;
     _event_deck := _event_deck self;
     _monster_deck := _monster_deck self;
     _mythos_cup := _mythos_cup self |}.
Definition with_mythos_cup (cup : MythosCup.t) (self : t) : t :=
  {| _space_manager := _space_manager self;
     _investigator_manager := _investigator_manager self;
     _encounter_deck := _encounter_deck self;
     _event_deck := _event_deck self;
     _monster_deck := _monster_deck self;
     _mythos_cup := cup |}.
Definition with_decks (encounter_deck : Deque.t EncounterCardT)
    (event_deck : Deque.t EventCardT) (monster_deck : Deque.t MonsterT)
    (self : t) : t :=
  {| _space_manager := _space_manager self;
     _investigator_manager := _investigator_manager self;
     _encounter_deck := encounter_deck;
     _event_deck := event_deck;
     _monster_deck := monster_deck;
     _mythos_cup := _mythos_cup self |}.

Definition on_space_manager {A} (m : M SpaceManager.t A) : M t A :=
  zoom _space_manager with_space_manager m.

(** The part of [setup_game] after the three shuffles. *)
Definition place (w : World) (locations : list nat)
    (loc_to_conn : list (string * string)) : M t unit :=
  zoom _mythos_cup with_mythos_cup MythosCup.replenish ;;;
  match locations with
  | [] => raise (ValueError "No locations found")
  | _ :: _ =>
      match loc_to_conn with
      | [] => raise (ValueError
                "No connections possible as there are no {loc_to_conn}")
      | _ :: _ =>
          for_each locations (fun loc =>
            on_space_manager (SpaceManager.add_space (spaces w) loc)) ;;;
          for_each loc_to_conn (fun names =>
            on_space_manager
              (SpaceManager.connect_spaces (fst names) (snd names))) ;;;
          self <- get ;;
          for_each (snd <$> _investigator_manager self) (fun investigator =>
            match investigators w !! investigator with
            | None => raise DanglingReference
            | Some inv =>
                loc <- lift_outcome (Investigator.location inv) ;;
                on_space_manager (SpaceManager.add_space (spaces w) loc)
            end)
      end
  end.

(** [setup_game]: [None] when iterating one of the decks never ends.  A
    shuffle that raises ends the call with the decks shuffled so far. *)
Definition setup_game
    (shuffle_encounter : list EncounterCardT -> list EncounterCardT)
    (shuffle_event : list EventCardT -> list EventCardT)
    (shuffle_monster : list MonsterT -> list MonsterT)
    (w : World) (locations : list nat)
    (loc_to_conn : list (string * string)) (self : t)
  : option (outcome unit * t) :=
  match Deck.shuffle shuffle_encounter (_encounter_deck self) with
  | None => None
  | Some (Raise e, encounter_deck) =>
      Some (Raise e,
            with_decks encounter_deck (_event_deck self) (_monster_deck self)
              self)
  | Some (Return _, encounter_deck) =>
      match Deck.shuffle shuffle_event (_event_deck self) with
      | None => None
      | Some (Raise e, event_deck) =>
          Some (Raise e,
                with_decks encounter_deck event_deck (_monster_deck self)
                  self)
      | Some (Return _, event_deck) =>
          match Deck.shuffle shuffle_monster (_monster_deck self) with
          | None => None
          | Some (Raise e, monster_deck) =>
              Some (Raise e,
                    with_decks encounter_deck event_deck monster_deck self)
          | Some (Return _, monster_deck) =>
              Some (place w locations loc_to_conn
                      (with_decks encounter_deck event_deck monster_deck
                         self))
          end
      end
  end.

End WithCards.
Arguments t : clear implicits.

End GameSetup.

(** The name of the location behind an address. *)
Definition name_of (spaces : gmap nat Space.t) (loc : nat) : option string :=
  Space.name <$> spaces !! loc.

(** A space manager whose names are those of the locations they stand
    for, all of them nodes of its graph; every space manager that was only
    used through [add_space] and [connect_spaces] is one. *)
Definition names_agree (spaces : gmap nat Space.t) (sm : SpaceManager.t)
  : Prop :=
  forall name loc, SpaceManager.__spaces sm !! name = Some loc ->
    placed spaces sm loc /\ name_of spaces loc = Some name.

(** What a call of [setup_game] that returns has put on the board. *)
Definition board_is_set (w : World) (locations : list nat)
    (loc_to_conn : list (string * string))
    (investigator_manager : list (string * nat)) (sm : SpaceManager.t)
  : Prop :=
  (forall loc, loc ∈ locations -> placed (spaces w) sm loc) /\
  (forall names, names ∈ loc_to_conn ->
     exists loc1 loc2,
       (loc1, loc2) ∈ DiGraph.edges (SpaceManager._graph sm) /\
       name_of (spaces w) loc1 = Some (fst names) /\
       name_of (spaces w) loc2 = Some (snd names)) /\
  (forall investigator, investigator ∈ snd <$> investigator_manager ->
     exists loc, location_of w investigator = Some loc /\
                 placed (spaces w) sm loc).

(** A step of [setup_game] that touches nothing but the space manager. *)
Definition only_places {EncounterCardT EventCardT MonsterT : Type}
    (m : M (GameSetup.t EncounterCardT EventCardT MonsterT) unit) : Prop :=
  forall self, exists o sm',
    m self = (o, GameSetup.with_space_manager sm' self).

(** ** item.py, encounter_deck.py: the cards, and [resolve_encounter] *)

(** [class Card] and [class Item]: [Card.__init__] stores its [card_type]
    argument as [type]. *)
Module Item.

Record t : Type := {
  name : string;
  type : string;
  description : string;
  effect : string;
  amount : Z
}.

Definition __init__ (name description effect : string) (amount : Z) : t :=
  {| name := name; type := "Item"; description := description;
     effect := effect; amount := amount |}.

Definition with_amount (a : Z) (self : t) : t :=
  {| name := name self; type := type self; description := description self;
     effect := effect self; amount := a |}.

End Item.

(** What an encounter acts on: the world, the [Item] objects (by address),
    the list [_items] of the [InvestigatorItems] of each investigator, and
    the encounter deck of the action manager, a deck of cards [CardT]. *)
Record Table (CardT : Type) : Type := {
  world : World;
  item_objects : gmap nat Item.t;
  inventories : gmap nat (list nat);
  encounter_deck : Deque.t CardT
}.
Arguments world {CardT} _.
Arguments item_objects {CardT} _.
Arguments inventories {CardT} _.
Arguments encounter_deck {CardT} _.

Section Tables.
Context {CardT : Type}.

Definition with_world (w : World) (t : Table CardT) : Table CardT :=
  {| world := w; item_objects := item_objects t;
     inventories := inventories t; encounter_deck := encounter_deck t |}.
Definition with_item_objects (x : gmap nat Item.t) (t : Table CardT)
  : Table CardT :=
  {| world := world t; item_objects := x;
     inventories := inventories t; encounter_deck := encounter_deck t |}.
Definition with_inventories (x : gmap nat (list nat)) (t : Table CardT)
  : Table CardT :=
  {| world := world t; item_objects := item_objects t;
     inventories := x; encounter_deck := encounter_deck t |}.
Definition with_encounter_deck (d : Deque.t CardT) (t : Table CardT)
  : Table CardT :=
  {| world := world t; item_objects := item_objects t;
     inventories := inventories t; encounter_deck := d |}.

Definition on_world {A} (m : M World A) : M (Table CardT) A :=
  zoom world with_world m.

(** [InvestigatorItems.add_item], on the items of an investigator: an item
    is in the list when the very object is ([Item] defines no [__eq__]). *)
Definition add_item (investigator item : nat) : M (Table CardT) unit :=
  t <- get ;;
  match inventories t !! investigator with
  | None => raise DanglingReference
  | Some _items =>
      if decide (item ∈ _items)
      then match item_objects t !! item with
           | None => raise DanglingReference
           | Some object =>
               put (with_item_objects
                      (<[item := Item.with_amount (Item.amount object + 1)
                                   object]> (item_objects t)) t)
           end
      else put (with_inventories
                  (<[investigator := _items ++ [item]]> (inventories t)) t)
  end.

End Tables.

Inductive EncounterEffect : Type :=
| TAKE_DAMAGE
| LOSE_SANITY
| GAIN_ITEM
| GAIN_CLUE.

(** The dictionary a strategy returns. *)
Inductive Changes : Type :=
| HealthChange (health : Z)
| SanityChange (sanity : Z)
| ItemChange (item : nat).

(** [class StrategyTakeDamage], [class StrategyLoseSanity] and
    [class StrategyGainItem]; [apply] is dispatched on the class. *)
Module StratEncounterEffect.

Inductive t : Type :=
| StrategyTakeDamage
| StrategyLoseSanity
| StrategyGainItem.

Definition apply {CardT} (self : t) (investigator : nat) (value : Z)
  : M (Table CardT) Changes :=
  match self with
  | StrategyTakeDamage =>
      on_world (on_investigator investigator
        (Investigator.on_status (InvestigatorStatus.take_damage value))) ;;;
      ret (HealthChange (- value))
  | StrategyLoseSanity =>
      on_world (on_investigator investigator
        (Investigator.on_status (InvestigatorStatus.lose_sanity value))) ;;;
      ret (SanityChange (- value))
  | StrategyGainItem =>
      t <- get ;;
      let item_new := fresh (dom (item_objects t)) in
      put (with_item_objects
             (<[item_new := Item.__init__ ("Item " +:+ pretty value)
                              "Item gain from encounter" "gain_item" 1]>
                (item_objects t)) t) ;;;
      add_item investigator item_new ;;;
      ret (ItemChange item_new)
  end.

End StratEncounterEffect.

Module EncounterCard.

(** [_strategy] is assigned for three of the four effects. *)
Record t : Type := {
  _description : string;
  _effect : EncounterEffect;
  _val : Z;
  _strategy : option StratEncounterEffect.t
}.

Definition __new__ (description : string) (effect : EncounterEffect)
    (value : Z) : t :=
  {| _description := description; _effect := effect; _val := value;
     _strategy :=
       match effect with
       | TAKE_DAMAGE => Some StratEncounterEffect.StrategyTakeDamage
       | LOSE_SANITY => Some StratEncounterEffect.StrategyLoseSanity
       | GAIN_ITEM => Some StratEncounterEffect.StrategyGainItem
       | GAIN_CLUE => None
       end |}.

(** The dictionary [resolve_encounter] returns. *)
Record Resolution : Type := {
  description : string;
  effect : EncounterEffect;
  value : Z;
  changes : Changes
}.

Definition resolve_encounter (self : t) (investigator : nat)
  : M (Table t) Resolution :=
  match _strategy self with
  | None =>
      raise (AttributeError
               "'EncounterCard' object has no attribute '_strategy'")
  | Some strategy =>
      changes <- StratEncounterEffect.apply strategy investigator
                   (_val self) ;;
      ret {| description := _description self; effect := _effect self;
             value := _val self; changes := changes |}
  end.

End EncounterCard.

(** [ActionManager.resolve_encounter]; a card object is always true, so the
    test on the card drawn never raises. *)
Module ActionHandlers.

Definition resolve_encounter (investigator : nat)
  : M (Table EncounterCard.t) unit :=
  engaged <- on_world (SpellEffect.engaged_monsters investigator) ;;
  match engaged with
  | [] =>
      encounter_card <- zoom encounter_deck with_encounter_deck
                          Deck.draw_front ;;
      EncounterCard.resolve_encounter encounter_card investigator ;;; ret tt
  | _ :: _ => ret tt
  end.

End ActionHandlers.

(** The items of the investigator behind an address, each with its
    amount. *)
Definition inventory_of {CardT} (t : Table CardT) (investigator : nat)
  : option (list (option Item.t)) :=
  match inventories t !! investigator with
  | Some l => Some ((fun item => item_objects t !! item) <$> l)
  | None => None
  end.

(** How often an item occurs among the items handed to [add_item]. *)
Definition times_added (item : nat) (added : list nat) : Z :=
  Z.of_nat (length (filter (fun x => x = item) added)).
(** * Theorems *)

Local Open Scope list_scope.

Ltac unfold_monad :=
  unfold bind, ret, raise, get, put, modify, zoom, lift_outcome in *.

Ltac crunch := repeat (first [ progress simplify_eq/= | case_match | done ]).

(** ** Monster health *)

Lemma Monster_new_health name damage health eng act m :
  Monster.__new__ name damage health eng act = Return m ->
  0 <= Monster.health m /\ Monster.health m = health /\
  Monster.state m = Ready.
Proof.
  unfold Monster.__new__, MonsterHealth.__init__,
    MonsterHealth._validate_health.
  destruct (health <? 0) eqn:E; [done|].
  apply Z.ltb_ge in E. intros [= <-]. by cbn.
Qed.

(** C6: [take_damage(amount)] raises [NegativeValueError] on a negative
    amount and raises when the health is already 0, the monster being left
    as it was; otherwise it subtracts twice the amount from the health of an
    exhausted monster and the amount itself in any other state, floors the
    result at 0 and changes nothing else.  Whatever the call does, the
    health it leaves is not below 0. *)
Theorem take_damage_spec (m : Monster.t) (amount : Z) :
  0 <= Monster.health m ->
  (amount < 0 ->
     Monster.take_damage amount m = (Raise (NegativeValueError amount), m)) /\
  (0 <= amount -> Monster.health m = 0 ->
     Monster.take_damage amount m =
       (Raise (AttributeError "Monster has already been defeated"), m)) /\
  (0 <= amount -> 0 < Monster.health m ->
     exists m',
       Monster.take_damage amount m = (Return tt, m') /\
       Monster.health m' = Z.max 0 (Monster.health m - damage_dealt m amount) /\
       Monster.state m' = Monster.state m /\
       Monster.with_monster_health (Monster._monster_health m) m' = m) /\
  0 <= Monster.health (snd (Monster.take_damage amount m)).
Proof.
  intros Hh.
  destruct m as [nm dmg [h st] eng act ms].
  unfold Monster.health, MonsterHealth.health in *; simpl in *.
  unfold Monster.take_damage, Monster.on_health, MonsterHealth.get_damaged,
    damage_dealt, Monster.state, MonsterHealth.health.
  unfold_monad; simpl.
  repeat split.
  - intros Ha. apply Z.ltb_lt in Ha. by rewrite Ha.
  - intros Ha ->.
    destruct (amount <? 0) eqn:E; [apply Z.ltb_lt in E; lia|]. done.
  - intros Ha Hp.
    destruct (amount <? 0) eqn:E; [apply Z.ltb_lt in E; lia|].
    destruct (h <=? 0) eqn:E2; [apply Z.leb_le in E2; lia|].
    destruct (decide (MonsterState.stage st = Exhausted)); simpl.
    + destruct (h - amount * 2 <? 0) eqn:E3; simpl; eexists;
        (split; [reflexivity|]); simpl;
        [apply Z.ltb_lt in E3|apply Z.ltb_ge in E3]; repeat split; lia.
    + destruct (h - amount <? 0) eqn:E3; simpl; eexists;
        (split; [reflexivity|]); simpl;
        [apply Z.ltb_lt in E3|apply Z.ltb_ge in E3]; repeat split; lia.
  - destruct (amount <? 0) eqn:E; simpl; [done|].
    destruct (h <=? 0) eqn:E2; simpl; [done|].
    destruct (decide (MonsterState.stage st = Exhausted)); simpl.
    + destruct (h - amount * 2 <? 0) eqn:E3; simpl;
        [lia | by apply Z.ltb_ge in E3].
    + destruct (h - amount <? 0) eqn:E3; simpl;
        [lia | by apply Z.ltb_ge in E3].
Qed.

Lemma ghoul_is_new :
  Monster.__new__ "ghoul" 1 3
    (MonsterEngagement.__init__ (MonsterState.__init__ Ready) None)
    ghoul_activation = Return (ghoul Ready 3).
Proof. reflexivity. Qed.

Lemma take_damage_spec_witness :
  0 <= Monster.health (ghoul Exhausted 3) /\
  Monster.take_damage 1 (ghoul Exhausted 3) = (Return tt, ghoul Exhausted 1) /\
  Monster.take_damage 2 (ghoul Exhausted 3) = (Return tt, ghoul Exhausted 0) /\
  Monster.take_damage 2 (ghoul Engaged 3) = (Return tt, ghoul Engaged 1) /\
  0 <= Monster.health (snd (Monster.take_damage 2 (ghoul Exhausted 3))).
Proof.
  assert (H : 0 <= Monster.health (ghoul Exhausted 3)) by (cbn; lia).
  split; [exact H|].
  split; [reflexivity|]. split; [reflexivity|]. split; [reflexivity|].
  exact (proj2 (proj2 (proj2 (take_damage_spec (ghoul Exhausted 3) 2 H)))).
Defined.

(** ** Monster life cycle *)

Ltac unfold_monster :=
  unfold Monster.engage, Monster.exhaust, Monster.disengage, Monster.ready,
    Monster.take_damage, Monster.set_location,
    Monster.on_engagement, Monster.on_health_state, Monster.on_health,
    MonsterEngagement.start_engagement, MonsterEngagement.no_fight,
    MonsterState.engage, MonsterState.exhaust, MonsterState.ready,
    Monster.state, Monster.prey, Monster.health, engagement_stage,
    MonsterEngagement.prey, MonsterHealth.health, MonsterState.stage in *.

(** A transition called outside its source state raises an
    [AttributeError] whose message names the required and the actual state,
    and leaves the monster as it was. *)
Lemma transition_guard (m : Monster.t) (investigator : nat) :
  (Monster.state m <> Ready ->
     Monster.engage investigator m =
       (Raise (AttributeError
          ("Monster can only engage in the 'ready' state. The state is "
             +:+ stage_str (Monster.state m))), m)) /\
  (Monster.state m <> Engaged ->
     Monster.exhaust m =
       (Raise (AttributeError
          ("Monster can only be exhausted in the 'engaged' state. The current state is "
             +:+ stage_str (Monster.state m))), m)) /\
  (Monster.state m <> Engaged ->
     Monster.disengage m =
       (Raise (AttributeError
          ("Monster can only disengage in the 'engaged' state. The current state is "
             +:+ stage_str (Monster.state m))), m)) /\
  (Monster.state m <> Exhausted ->
     Monster.ready m =
       (Raise (AttributeError
          ("Monster can only be readied from the 'exhausted' state. The current state is "
             +:+ stage_str (Monster.state m))), m)).
Proof.
  destruct m as [nm dmg [h [st]] eng act ms].
  unfold_monster; unfold_monad; simpl.
  repeat split; intros Hst; by rewrite decide_True.
Qed.

(** From their source state, [exhaust] and [ready] always go through, and
    [engage] and [disengage] go through when the stage held by the
    engagement component agrees with the stage of the monster. *)
Lemma transition_from_source (m : Monster.t) (investigator : nat) :
  (Monster.state m = Engaged ->
     exists m', Monster.exhaust m = (Return tt, m') /\
                Monster.state m' = Exhausted /\
                Monster.health m' = Monster.health m /\
                Monster.prey m' = Monster.prey m) /\
  (Monster.state m = Exhausted ->
     exists m', Monster.ready m = (Return tt, m') /\
                Monster.state m' = Ready /\
                Monster.health m' = Monster.health m /\
                Monster.prey m' = Monster.prey m) /\
  (Monster.state m = Ready -> engagement_stage m = Ready ->
     exists m', Monster.engage investigator m = (Return tt, m') /\
                Monster.state m' = Engaged /\
                Monster.health m' = Monster.health m /\
                Monster.prey m' = Some investigator) /\
  (Monster.state m = Engaged -> engagement_stage m = Engaged ->
     exists m', Monster.disengage m = (Return tt, m') /\
                Monster.state m' = Ready /\
                Monster.health m' = Monster.health m /\
                Monster.prey m' = None).
Proof.
  destruct m as [nm dmg [h [st]] [pr [est]] act ms].
  unfold_monster; unfold_monad; simpl.
  repeat split; intros; subst; simpl; eexists; (split; [reflexivity|done]).
Qed.

(** [disengage] fails whenever the engagement component does not hold the
    stage [engaged], whatever the stage of the monster. *)
Lemma disengage_needs_engagement_stage (m : Monster.t) :
  engagement_stage m <> Engaged ->
  exists e, Monster.disengage m = (Raise e, m).
Proof.
  destruct m as [nm dmg [h [st]] [pr [est]] act ms].
  unfold_monster; unfold_monad; simpl. intros Hne.
  destruct (decide (st <> Engaged)); simpl; [by eexists|].
  rewrite decide_True by done. by eexists.
Qed.

(** No method of the monster writes the stage of the engagement
    component. *)
Lemma call_engagement_stage (c : MonsterCall) (m : Monster.t) :
  engagement_stage (snd (call c m)) = engagement_stage m.
Proof.
  destruct m as [nm dmg [h [st]] [pr [est]] act ms].
  destruct c; simpl; unfold_monster; unfold MonsterHealth.get_damaged;
    unfold_monad; simpl; crunch.
Qed.

(** A monster gets to the stage [engaged] only through [engage], which
    needs the engagement component to hold [ready]. *)
Lemma call_engaged_invariant (c : MonsterCall) (m : Monster.t) :
  (Monster.state m = Engaged -> engagement_stage m = Ready) ->
  Monster.state (snd (call c m)) = Engaged ->
  engagement_stage (snd (call c m)) = Ready.
Proof.
  destruct m as [nm dmg [h [st]] [pr [est]] act ms].
  destruct c; simpl; unfold_monster; unfold MonsterHealth.get_damaged;
    unfold_monad; simpl; intros Hinv; crunch; intros; simplify_eq/=; auto;
    try (destruct est; done).
Qed.

Lemma after_engaged_invariant (cs : list MonsterCall) (m : Monster.t) :
  (Monster.state m = Engaged -> engagement_stage m = Ready) ->
  Monster.state (after cs m) = Engaged -> engagement_stage (after cs m) = Ready.
Proof.
  revert m. induction cs as [|c cs IH]; intros m Hinv; simpl; [done|].
  apply IH. by apply call_engaged_invariant.
Qed.

(** On a monster made by [__new__], whatever engagement component it was
    given and whatever calls were made on it since, [disengage] raises and
    changes nothing. *)
Lemma disengage_never_succeeds name damage health eng act m
    (cs : list MonsterCall) :
  Monster.__new__ name damage health eng act = Return m ->
  exists e, Monster.disengage (after cs m) = (Raise e, after cs m).
Proof.
  intros Hnew. apply Monster_new_health in Hnew as (_ & _ & Hst).
  destruct (decide (Monster.state (after cs m) = Engaged)) as [He|Hne].
  - apply disengage_needs_engagement_stage.
    assert (Hr : engagement_stage (after cs m) = Ready).
    { apply after_engaged_invariant; [|done]. by rewrite Hst. }
    by rewrite Hr.
  - destruct (transition_guard (after cs m) 0%nat) as (_ & _ & Hd & _).
    eexists. by apply Hd.
Qed.

(** The health of a monster made by [__new__] is never negative, whatever
    calls are made on it. *)
Lemma call_health_nonneg (c : MonsterCall) (m : Monster.t) :
  0 <= Monster.health m -> 0 <= Monster.health (snd (call c m)).
Proof.
  destruct m as [nm dmg [h [st]] [pr [est]] act ms].
  destruct c; simpl; unfold_monster; unfold MonsterHealth.get_damaged;
    unfold_monad; simpl; intros Hh; crunch; lia.
Qed.

Lemma after_health_nonneg name damage health eng act m
    (cs : list MonsterCall) :
  Monster.__new__ name damage health eng act = Return m ->
  0 <= Monster.health (after cs m).
Proof.
  intros Hnew. apply Monster_new_health in Hnew as (Hh & _ & _).
  revert m Hh. induction cs as [|c cs IH]; intros m Hh; simpl; [done|].
  apply IH. by apply call_health_nonneg.
Qed.

(** C8, on the input where it fails: a monster created ready and engaged by
    investigator 0 is in the stage [engaged], the source stage of
    [disengage]; yet [disengage] raises, from the guard of the engagement
    component, with a message that names no actual stage, and the monster
    stays engaged to its prey. *)
Theorem disengage_engaged_monster_raises :
  Monster.__new__ "ghoul" 1 3
    (MonsterEngagement.__init__ (MonsterState.__init__ Ready) None)
    ghoul_activation = Return (ghoul Ready 3) /\
  Monster.engage 0 (ghoul Ready 3) = (Return tt, engaged_ghoul) /\
  Monster.state engaged_ghoul = Engaged /\
  Monster.prey engaged_ghoul = Some 0%nat /\
  Monster.disengage engaged_ghoul =
    (Raise (AttributeError "Monster must be engaged to disengage."),
     engaged_ghoul).
Proof. repeat split. Qed.

(** ** Investigator status *)

(** [take_damage] and [lose_sanity] subtract the amount as it is: on a
    status with non-negative health and sanity and for a non-negative
    amount, the new value is the difference, with no floor, and the
    [_is_defeated] attribute keeps its value. *)
Lemma status_subtracts_unclamped (s : InvestigatorStatus.t) (amount : Z) :
  0 <= InvestigatorStatus.health s -> 0 <= InvestigatorStatus.sanity s ->
  0 <= amount ->
  InvestigatorStatus.take_damage amount s =
    (Return tt,
     InvestigatorStatus.with_health (InvestigatorStatus.health s - amount) s) /\
  InvestigatorStatus.lose_sanity amount s =
    (Return tt,
     InvestigatorStatus.with_sanity (InvestigatorStatus.sanity s - amount) s).
Proof.
  destruct s as [h sn d].
  unfold InvestigatorStatus.take_damage, InvestigatorStatus.lose_sanity,
    InvestigatorStatus._validate_args, InvestigatorStatus.health,
    InvestigatorStatus.sanity; unfold_monad; simpl.
  intros Hh Hs Ha.
  destruct (h <? 0) eqn:E1; [apply Z.ltb_lt in E1; lia|].
  destruct (sn <? 0) eqn:E2; [apply Z.ltb_lt in E2; lia|].
  destruct (amount <? 0) eqn:E3; [apply Z.ltb_lt in E3; lia|].
  done.
Qed.

(** No status operation writes [_is_defeated]. *)
Lemma status_defeated_flag_constant (s : InvestigatorStatus.t) (amount : Z) :
  InvestigatorStatus.is_defeated
    (snd (InvestigatorStatus.take_damage amount s)) =
    InvestigatorStatus.is_defeated s /\
  InvestigatorStatus.is_defeated
    (snd (InvestigatorStatus.lose_sanity amount s)) =
    InvestigatorStatus.is_defeated s.
Proof.
  destruct s as [h sn d].
  unfold InvestigatorStatus.take_damage, InvestigatorStatus.lose_sanity,
    InvestigatorStatus._validate_args, InvestigatorStatus.is_defeated;
    unfold_monad; simpl.
  split; crunch.
Qed.

(** C7, on the input where it fails: a status created with health 3 and
    sanity 3 takes 5 points of damage; the health becomes -2, the
    [is_defeated] property still answers [False], and so does
    [check_defeat], which tests for the value 0 only.  Damage of exactly 3
    brings the health to 0 and the flag stays [False] as well; the same
    holds of [lose_sanity]. *)
Theorem take_damage_leaves_negative_health :
  InvestigatorStatus.__new__ 3 3 false = Return (status 3 3) /\
  InvestigatorStatus.take_damage 5 (status 3 3) = (Return tt, status (-2) 3) /\
  InvestigatorStatus.is_defeated (status (-2) 3) = false /\
  InvestigatorStatus.check_defeat (status (-2) 3) = false /\
  InvestigatorStatus.take_damage 3 (status 3 3) = (Return tt, status 0 3) /\
  InvestigatorStatus.is_defeated (status 0 3) = false /\
  InvestigatorStatus.lose_sanity 5 (status 3 3) = (Return tt, status 3 (-2)) /\
  InvestigatorStatus.is_defeated (status 3 (-2)) = false.
Proof. repeat split. Qed.

(** ** Dice *)
Lemma faces_S (r : Random.t) (n : nat) :
  faces r (S n) = Random.face 1 6 r 0 :: faces (advance 1 r) n.
Proof.
  unfold faces. simpl. f_equal.
  rewrite <- fmap_S_seq, <- list_fmap_compose.
  apply list_fmap_ext. intros _ i _. unfold Random.face, advance; simpl.
  do 3 f_equal. lia.
Qed.

Lemma successes_S (r : Random.t) (n : nat) :
  successes r (S n) =
    Z.b2z (5 <=? Random.face 1 6 r 0) + successes (advance 1 r) n.
Proof.
  unfold successes. rewrite faces_S, filter_cons.
  destruct (decide (5 <= Random.face 1 6 r 0)) as [H|H].
  - apply Z.leb_le in H as ->. simpl length. cbn [Z.b2z]. lia.
  - apply Z.leb_nle in H as ->. cbn [Z.b2z]. lia.
Qed.

Lemma successes_bounds (r : Random.t) (n : nat) :
  0 <= successes r n <= Z.of_nat n.
Proof.
  unfold successes. split; [lia|].
  apply inj_le. etrans; [apply length_filter|].
  unfold faces. by rewrite length_fmap, length_seq.
Qed.

Lemma advance_advance (n k : nat) (r : Random.t) :
  advance n (advance k r) = advance (n + k) r.
Proof. unfold advance; simpl. f_equal. lia. Qed.

Lemma advance_0 (r : Random.t) : advance 0 r = r.
Proof. by destruct r. Qed.

Lemma with_rng_id (w : World) : with_rng (rng w) w = w.
Proof. by destruct w. Qed.

Lemma roll_successes_spec (n : nat) (w : World) :
  roll_successes n w =
    (Return (successes (rng w) n), with_rng (advance n (rng w)) w).
Proof.
  revert w. induction n as [|n IH]; intros w.
  - simpl. unfold ret. by rewrite advance_0, with_rng_id.
  - cbn [roll_successes]. unfold bind at 1. unfold on_rng, zoom, Random.randint.
    unfold bind at 1. rewrite IH. unfold ret.
    rewrite successes_S. destruct w as [sp mo iv co r]; simpl.
    f_equal. unfold with_rng; simpl. f_equal.
    change ({| Random.stream := Random.stream r; Random.cursor := S (Random.cursor r) |}) with (advance 1 r).
    rewrite advance_advance. f_equal. lia.
Qed.

(** ** Combat: the baseline attack *)

Lemma with_monsters_id (w : World) : with_monsters (monsters w) w = w.
Proof. by destruct w. Qed.
Lemma with_spaces_id (w : World) : with_spaces (spaces w) w = w.
Proof. by destruct w. Qed.

Lemma MonsterHealth_with_health_id (h : MonsterHealth.t) :
  MonsterHealth.with_health (MonsterHealth.__health h) h = h.
Proof. by destruct h. Qed.

(** C10: when a monster of the engaged list has health 0, [attack_monster]
    raises [NegativeValueError(-1)], the error of the validating health
    setter it writes [health - 1] through, and the world, the health of the
    monster included, is as before: the health stays 0. *)
Theorem attack_monster_at_zero_health (w : World) (self monster : nat)
    (c : CombatObj.t) (m : Monster.t) :
  combats w !! self = Some c ->
  monster ∈ CombatObj.engaged_monsters c ->
  monsters w !! monster = Some m ->
  Monster.health m = 0 ->
  Combat.attack_monster self monster w = (Raise (NegativeValueError (-1)), w) /\
  Monster.health <$> monsters (snd (Combat.attack_monster self monster w)) !! monster
    = Some 0.
Proof.
  intros Hc Hin Hm Hh.
  assert (E : Combat.attack_monster self monster w
              = (Raise (NegativeValueError (-1)), w)).
  { unfold Combat.attack_monster, deref, on_monster, on_object.
    unfold bind at 1. rewrite Hc.
    rewrite decide_False by (intros Hn; by apply Hn).
    unfold bind at 1. rewrite Hm. rewrite Hm.
    unfold Monster.on_health, MonsterHealth.set_health,
      MonsterHealth.__set_health, MonsterHealth._validate_health.
    rewrite Hh. unfold_monad. simpl.
    destruct m; simpl. rewrite insert_id by done. by rewrite with_monsters_id. }
  split; [exact E|]. rewrite E. simpl. by rewrite Hm, <- Hh.
Qed.

Lemma attack_monster_at_zero_health_witness :
  Combat.attack_monster 0 0 (board_defeated ones)
    = (Raise (NegativeValueError (-1)), board_defeated ones) /\
  Monster.health <$>
    monsters (snd (Combat.attack_monster 0 0 (board_defeated ones))) !! 0%nat
    = Some 0.
Proof.
  apply (attack_monster_at_zero_health (board_defeated ones) 0 0 board_combat
           (ghoul Engaged 0));
    [reflexivity | apply list_elem_of_here | reflexivity | reflexivity].
Defined.

(** With health left, the same attack takes exactly 1 point. *)
Lemma attack_monster_on_board (r : Random.t) :
  Monster.health <$>
    monsters (snd (Combat.attack_monster 0 0 (board r))) !! 0%nat = Some 2 /\
  fst (Combat.attack_monster 0 0 (board r)) = Return tt.
Proof. by vm_compute. Qed.

(** ** Combat: warding doom *)

Lemma skill_new_level (name : SkillName) (level : Z) :
  Skill.level (Skill.__new__ name level) LORE =
    Return (if decide (name = LORE) then level else 0).
Proof. destruct name; reflexivity. Qed.

(** What [ward_doom] does on a combat component whose [_inv_items]
    attribute has been assigned: without a lore entry it raises [KeyError]
    and changes nothing; with one it rolls as many dice as the lore level
    and takes [min(successes, doom_tokens)] doom tokens off the location the
    component holds, which leaves a non-negative count, and no other
    location changes. *)
Lemma ward_doom_spec (w : World) (self : nat) (c : CombatObj.t)
    (items : InvestigatorItems.t) (loc : Space.t) :
  combats w !! self = Some c ->
  CombatObj._inv_items c = Some items ->
  spaces w !! CombatObj._location c = Some loc ->
  (InvestigatorItems.skills items !! LORE = None ->
     Combat.ward_doom self w = (Raise (KeyError "Lore skill not found"), w)) /\
  (forall lore_skill lev,
     InvestigatorItems.skills items !! LORE = Some lore_skill ->
     Skill.level lore_skill LORE = Return lev ->
     let removed_dooms :=
       Z.min (successes (rng w) (Z.to_nat lev)) (Space.doom_tokens loc) in
     exists w',
       Combat.ward_doom self w = (Return tt, w') /\
       doom_of w' (CombatObj._location c)
         = Some (Space.doom_tokens loc - removed_dooms) /\
       0 <= Space.doom_tokens loc - removed_dooms /\
       (forall other, other <> CombatObj._location c ->
          spaces w' !! other = spaces w !! other) /\
       rng w' = advance (Z.to_nat lev) (rng w)).
Proof.
  intros Hc Hi Hl. split.
  - intros Hs. unfold Combat.ward_doom, deref. unfold bind at 1.
    by rewrite Hc, Hi, Hs.
  - intros lore_skill lev Hs Hlev removed.
    unfold Combat.ward_doom, deref. unfold bind at 1.
    rewrite Hc, Hi, Hs. unfold lift_outcome. unfold bind at 1. rewrite Hlev.
    unfold bind at 1. rewrite roll_successes_spec.
    unfold bind at 1. cbn [spaces with_rng]. rewrite Hl.
    unfold bind at 1. cbn [spaces with_rng]. rewrite Hl.
    unfold on_space, on_object. cbn [spaces with_rng]. rewrite Hl.
    unfold Space.set_doom_tokens.
    fold removed.
    assert (Hr : 0 <= Space.doom_tokens loc - removed) by (unfold removed; lia).
    destruct (Space.doom_tokens loc - removed <? 0) eqn:E;
      [apply Z.ltb_lt in E; lia|].
    unfold modify. eexists. split; [reflexivity|].
    unfold doom_of. cbn [spaces with_spaces with_rng rng].
    rewrite lookup_insert_eq. cbn. repeat split; [done|].
    intros other Hne. by rewrite lookup_insert_ne.
Qed.

(** C3, on the inputs where it fails: on every combat component that
    [Combat.__init__] has built, [ward_doom] raises [AttributeError] when it
    reads [self._inv_items], an attribute the constructor does not assign;
    no die is rolled and no doom token is removed, whatever lore skill the
    investigator has. *)
Theorem ward_doom_after_init_raises (w w' : World)
    (self investigator parent_cls : nat) :
  Combat.__init__ investigator parent_cls w = (Return self, w') ->
  Combat.ward_doom self w' =
    (Raise (AttributeError "'Combat' object has no attribute '_inv_items'"), w').
Proof.
  unfold Combat.__init__, deref. unfold bind at 1.
  destruct (investigators w !! parent_cls) as [p|]; [|done].
  unfold lift_outcome, bind at 1.
  destruct (Investigator.location p) as [l|]; [|done].
  unfold_monad. intros [= <- <-].
  unfold Combat.ward_doom, deref. unfold bind at 1.
  cbn [combats with_combats]. by rewrite lookup_insert_eq.
Qed.

Lemma ward_doom_after_init_raises_witness :
  Combat.ward_doom 0 (snd (Combat.__init__ 0 0 (board_before_combat sixes)))
    = (Raise (AttributeError "'Combat' object has no attribute '_inv_items'"),
       snd (Combat.__init__ 0 0 (board_before_combat sixes))).
Proof.
  apply (ward_doom_after_init_raises (board_before_combat sixes) _ 0 0 0).
  reflexivity.
Defined.

(** The component built on the board is the one the examples use, before it
    is engaged with the monster. *)
Lemma board_combat_is_built (r : Random.t) :
  fst (Combat.__init__ 0 0 (board_before_combat r)) = Return 0%nat /\
  combats (snd (Combat.__init__ 0 0 (board_before_combat r))) !! 0%nat
    = Some (CombatObj.with_engaged_monsters [] board_combat).
Proof. by vm_compute. Qed.

(** Once a client has assigned [_inv_items], the location warded is the one
    the component took from its investigator when it was built: after the
    investigator has moved from Downtown to Uptown, two successes take two
    doom tokens off Downtown and none off Uptown, where the investigator
    stands. *)
Lemma ward_doom_wards_location_at_construction :
  let w1 := snd (Move.move PyNum.correctly_rounded 0 1
                   (board_patched sixes)) in
  let w2 := snd (Combat.ward_doom 0 w1) in
  fst (Move.move PyNum.correctly_rounded 0 1 (board_patched sixes))
    = Return tt /\
  location_of w1 0 = Some 1%nat /\
  fst (Combat.ward_doom 0 w1) = Return tt /\
  doom_of w1 0 = Some 3 /\ doom_of w2 0 = Some 1 /\
  doom_of w1 1 = Some 3 /\ doom_of w2 1 = Some 3.
Proof. by vm_compute. Qed.

(** ** Combat: evading *)

(** [evade_monster] never returns: every path through it ends in a
    [raise] before any die is rolled, and the world is left as it was. *)
Lemma evade_monster_never_returns (w : World) (self monster : nat) :
  exists e, Combat.evade_monster self monster w = (Raise e, w).
Proof.
  unfold Combat.evade_monster, deref. unfold bind at 1.
  destruct (combats w !! self) as [c|]; [|by eexists].
  destruct (decide (monster ∉ CombatObj.__engaged_monsters c)); [by eexists|].
  unfold bind at 1.
  destruct (investigators w !! CombatObj._investigator c) as [inv|];
    [|by eexists].
  destruct (InvestigatorItems.skills (Investigator._inv_items inv)
              !! OBSERVATION) as [obs_s|]; by eexists.
Qed.

(** With the monster engaged and an observation skill present, the
    [raise] is the [AttributeError] of the integer test: [obl] is the bound
    method [obs_s.level], not a level. *)
Lemma evade_monster_engaged_raises (w : World) (self monster : nat)
    (c : CombatObj.t) (inv : Investigator.t) (obs_s : Skill.t) :
  combats w !! self = Some c ->
  monster ∈ CombatObj.engaged_monsters c ->
  investigators w !! CombatObj._investigator c = Some inv ->
  InvestigatorItems.skills (Investigator._inv_items inv) !! OBSERVATION
    = Some obs_s ->
  Combat.evade_monster self monster w =
    (Raise (AttributeError "observation level isnt an integer."), w).
Proof.
  intros Hc Hin Hi Hs.
  unfold Combat.evade_monster, deref. unfold bind at 1. rewrite Hc.
  rewrite decide_False by (intros Hn; by apply Hn).
  unfold bind at 1. by rewrite Hi, Hs.
Qed.

(** C2, on the input where it fails: the investigator of the board has
    observation 2 and is engaged with a ghoul of health 3 whose stage is
    [engaged]; whatever the dice would show, [evade_monster] raises
    [AttributeError] and leaves the world as it was: the ghoul is still in
    the engaged list, still [engaged] and still has health 3, so neither of
    the two outcomes of the claim takes place. *)
Theorem evade_monster_on_board (r : Random.t) :
  Combat.evade_monster 0 0 (board r) =
    (Raise (AttributeError "observation level isnt an integer."), board r) /\
  (CombatObj.engaged_monsters <$> combats (board r) !! 0%nat) = Some [0%nat] /\
  (Monster.state <$> monsters (board r) !! 0%nat) = Some Engaged /\
  (Monster.health <$> monsters (board r) !! 0%nat) = Some 3.
Proof.
  split; [|by vm_compute].
  apply (evade_monster_engaged_raises (board r) 0 0 board_combat
           board_investigator (Skill.__new__ OBSERVATION 2));
    [reflexivity | apply list_elem_of_here | reflexivity | reflexivity].
Qed.

(** ** Movement *)

(** ** Doubles that hold integers *)

Section Doubles.
Import SpecFloat.





















End Doubles.

(** ** Numbers that hold integers *)

Section Integers.
Import SpecFloat.











End Integers.

(** ** The distance computed and the Euclidean distance *)

Section Exact.
Import SpecFloat QArith_base Stdlib.QArith.Qpower.
Local Open Scope Z_scope.



End Exact.

Lemma with_investigators_id (w : World) :
  with_investigators (investigators w) w = w.
Proof. by destruct w. Qed.




(** What the distance is out of the reach of the theorem, with a correctly
    rounded [pow]: an integer coordinate of 2^53 + 1 is rounded when the sum
    of the squares is converted, one of 2^600 cannot be converted; the
    square of 1e200 is out of range, the sum of the squares of 1e154 and
    1e154 is infinite, and an infinite coordinate makes an infinite or
    undefined difference.  [int], [float] and their mixture agree on a grid
    point. *)
Lemma calc_distance_examples :
  let distance (x1 y1 x2 y2 : PyNum.t) :=
    fst (Move.calc_distance PyNum.correctly_rounded
           (Space.__new__ "Here" (x1, y1) 0)
           (Space.__new__ "There" (x2, y2) 0) tt) in
  let int := PyNum.Int in
  let float s m e := PyNum.Float (SpecFloat.S754_finite s m e) in
  let inf := PyNum.Float (SpecFloat.S754_infinity false) in
  distance (int 0) (int 0) (int (2 ^ 53 + 1)) (int 0)
    = Return (2 ^ 53) /\
  distance (int 0) (int 0) (int (2 ^ 600)) (int 0)
    = Raise (OverflowError "int too large to convert to float") /\
  distance (int 0) (int 0) (float false 5883593420661338%positive 612) (int 0)
    = Raise (OverflowError "(34, 'Numerical result out of range')") /\
  distance (int 0) (int 0) (float false 6717876107567089%positive 459)
      (float false 6717876107567089%positive 459)
    = Raise (OverflowError "cannot convert float infinity to integer") /\
  distance (int 0) (int 0) inf (int 0)
    = Raise (OverflowError "cannot convert float infinity to integer") /\
  distance inf (int 0) inf (int 0)
    = Raise (ValueError "cannot convert float NaN to integer") /\
  distance (float false 6755399441055744%positive (-52))
      (float true 5066549580791808%positive (-51))
      (int (-3)) (PyNum.Float (PyNum.nearest 4))
    = Return 7 /\
  distance (int 0) (PyNum.Float (PyNum.nearest 0))
      (PyNum.Float (PyNum.nearest 3)) (int 4)
    = Return 5.
Proof. by vm_compute. Qed.


(** ** The deque *)

Section DequeFacts.
Context {ItemT : Type}.
Implicit Types (h : gmap nat (QueueNode.t ItemT)) (d : Deque.t ItemT)
  (l : list (nat * ItemT)) (xs : list ItemT).

(** A chain only depends on the nodes it goes through. *)
Lemma chain_ext h h' prev p l last :
  (forall a, a ∈ fst <$> l -> h' !! a = h !! a) ->
  chain h prev p l last -> chain h' prev p l last.
Proof.
  revert prev p. induction l as [|[a x] l IH]; intros prev p Hagree; [done|].
  simpl. intros (-> & n & Hn & Hx & Hp & Hrest).
  split; [done|]. exists n. rewrite Hagree by (simpl; left).
  repeat split; try done. apply IH; [|done].
  intros b Hb. apply Hagree. simpl. by right.
Qed.

Lemma chain_allocated h prev p l last (a : nat) :
  chain h prev p l last -> a ∈ fst <$> l -> is_Some (h !! a).
Proof.
  revert prev p. induction l as [|[b x] l IH]; intros prev p; simpl.
  - intros _ Ha. by apply not_elem_of_nil in Ha.
  - intros (-> & n & Hn & _ & _ & Hrest) [->|Ha]%elem_of_cons; [by eexists|].
    by eapply IH.
Qed.

Lemma chain_fresh h prev p l last :
  chain h prev p l last -> fresh (dom h) ∉ fst <$> l.
Proof.
  intros Hc Hin. apply (chain_allocated _ _ _ _ _ _ Hc) in Hin.
  apply elem_of_dom in Hin. by apply is_fresh in Hin.
Qed.

(** Both links are [None] exactly when the chain is empty. *)
Lemma chain_links h p l last :
  chain h None p l last ->
  (l = [] <-> p = None) /\ (l = [] <-> last = None).
Proof.
  destruct l as [|[a x] l]; simpl.
  - by intros [-> ->].
  - intros (-> & n & Hn & _ & _ & Hrest).
    assert (last <> None) as Hlast.
    { clear Hn. revert a n Hrest. induction l as [|[b y] l IH]; simpl.
      - intros a n [_ ->]. done.
      - intros a n (_ & m & _ & _ & _ & Hrest). by eapply IH. }
    split; split; done.
Qed.

(** The four operations that keep the representation. *)
Lemma represents_empty : represents (@Deque.empty ItemT) [].
Proof. exists []. repeat split; try done. constructor. Qed.

Lemma enqueue_front_represents d xs (x : ItemT) :
  represents d xs ->
  exists d', Deque.enqueue_front x d = (Return tt, d') /\
             represents d' (x :: xs).
Proof.
  intros (l & Hnd & Hxs & Hc & Hsz).
  pose proof (chain_fresh _ _ _ _ _ Hc) as Hfresh.
  destruct d as [h fr rr sz r0 f0]; simpl in *.
  set (a := fresh (dom h)) in *.
  unfold Deque.enqueue_front, Deque.alloc, Deque.set_node, Deque.node,
    Deque.is_empty; unfold_monad; simpl. fold a.
  destruct l as [|[f y] l']; simpl in Hc.
  - destruct Hc as [-> ->]. simpl.
    eexists. split; [reflexivity|].
    exists [(a, x)]. simpl in *. subst xs.
    split; [by apply NoDup_singleton|]. split; [done|].
    split; [|lia]. split; [done|].
    eexists. rewrite lookup_insert_eq. done.
  - destruct Hc as (-> & nf & Hnf & Hy & Hp & Hrest). simpl.
    rewrite lookup_insert_eq. simpl.
    assert (Haf : a <> f).
    { intros ->. apply Hfresh. simpl. left. }
    rewrite lookup_insert_ne by done. rewrite lookup_insert_ne by done.
    rewrite Hnf. simpl.
    eexists. split; [reflexivity|].
    exists ((a, x) :: (f, y) :: l'). simpl in *. subst xs.
    split. { constructor; [|done]. exact Hfresh. }
    split; [done|]. split; [|lia].
    split; [done|]. eexists.
    rewrite lookup_insert_ne by done. rewrite lookup_insert_eq.
    repeat split; try done. simpl.
    eexists. rewrite lookup_insert_eq. repeat split; try done. simpl.
    eapply chain_ext; [|exact Hrest].
    intros b Hb. apply NoDup_cons in Hnd as [Hfl _].
    rewrite !lookup_insert_ne; [done| | |].
    + intros ->. apply Hfresh. right. done.
    + intros ->. apply Hfresh. right. done.
    + intros ->. done.
Qed.


(** The last node of a non-empty chain: the rear link points to it and its
    [_next] is [None]. *)
Lemma chain_last h prev p l (r : nat) (y : ItemT) (rear_link : option nat) :
  chain h prev p (l ++ [(r, y)]) rear_link ->
  rear_link = Some r /\
  exists nr, h !! r = Some nr /\ QueueNode._value nr = y /\
             QueueNode._next nr = None /\
             QueueNode._prev nr = default prev (Some <$> (fst <$> last l)).
Proof.
  revert prev p. induction l as [|[b z] l IH]; intros prev p; simpl.
  - intros (-> & n & Hn & Hy & Hp & [Hnext ->]). split; [done|].
    exists n. done.
  - intros (-> & n & Hn & Hz & Hp & Hrest).
    apply IH in Hrest as (-> & nr & Hnr & Hy & Hnext & Hprev).
    split; [done|]. exists nr. repeat split; try done.
    rewrite Hprev. destruct l as [|[c w] l]; [done|].
    rewrite last_cons_cons.
    destruct (last ((c, w) :: l)) eqn:E; [done|]. by apply last_None in E.
Qed.

Lemma chain_snoc h h' prev p l (r a : nat) (y x : ItemT) nr :
  chain h prev p (l ++ [(r, y)]) (Some r) ->
  NoDup (fst <$> (l ++ [(r, y)])) ->
  a ∉ fst <$> (l ++ [(r, y)]) ->
  h !! r = Some nr ->
  h' !! r = Some (QueueNode.with_next (Some a) nr) ->
  h' !! a = Some (QueueNode.__new__ x None (Some r)) ->
  (forall b, b <> r -> b <> a -> h' !! b = h !! b) ->
  chain h' prev p ((l ++ [(r, y)]) ++ [(a, x)]) (Some a).
Proof.
  intros Hc Hnd Ha Hr Hr' Ha' Hother.
  revert prev p Hc Hnd Ha. induction l as [|[b z] l IH]; intros prev p; simpl.
  - intros (-> & n & Hn & Hy & Hp & [Hnext _]) _ _.
    rewrite Hr in Hn. injection Hn as <-.
    split; [done|]. eexists. split; [exact Hr'|]. simpl.
    repeat split; try done. eexists. split; [exact Ha'|]. done.
  - intros (-> & n & Hn & Hz & Hp & Hrest) Hnd Ha.
    apply NoDup_cons in Hnd as [Hb Hnd].
    apply not_elem_of_cons in Ha as [Hab Ha].
    split; [done|]. exists n. rewrite Hother; [|intros ->|done].
    + repeat split; try done. by apply IH.
    + apply Hb. rewrite fmap_app. apply elem_of_app. right. simpl. left.
Qed.

Lemma enqueue_rear_represents d xs (x : ItemT) :
  represents d xs ->
  exists d', Deque.enqueue_rear x d = (Return tt, d') /\
             represents d' (xs ++ [x]).
Proof.
  intros (l & Hnd & Hxs & Hc & Hsz).
  pose proof (chain_fresh _ _ _ _ _ Hc) as Hfresh.
  pose proof (chain_links _ _ _ _ Hc) as [Hfront Hrear].
  destruct d as [h fr rr sz r0 f0]; simpl in *.
  set (a := fresh (dom h)) in *.
  unfold Deque.enqueue_rear, Deque.alloc, Deque.set_node, Deque.node,
    Deque.is_empty; unfold_monad; simpl. fold a.
  destruct l as [|e l0] using rev_ind.
  - simpl in Hc. destruct Hc as [-> ->]. simpl.
    eexists. split; [reflexivity|].
    exists [(a, x)]. simpl in *. subst xs.
    split; [by apply NoDup_singleton|]. split; [done|].
    split; [|lia]. split; [done|].
    eexists. rewrite lookup_insert_eq. done.
  - clear IHl0. destruct e as [r y].
    destruct fr as [f|]; [|exfalso; destruct Hfront as [_ Hf]; specialize (Hf eq_refl);
                           by destruct l0].
    pose proof (chain_last _ _ _ _ _ _ _ Hc) as (-> & nr & Hnr & Hy & Hnx & _).
    simpl. rewrite lookup_insert_eq. simpl.
    assert (Har : a <> r).
    { intros E. apply Hfresh. rewrite E, fmap_app. apply elem_of_app.
      right. simpl. left. }
    rewrite lookup_insert_ne by done. rewrite lookup_insert_ne by done.
    rewrite Hnr. simpl.
    eexists. split; [reflexivity|].
    exists ((l0 ++ [(r, y)]) ++ [(a, x)]). simpl.
    split.
    { rewrite fmap_app. simpl. apply NoDup_app. split; [done|].
      split; [|by apply NoDup_singleton].
      intros b Hb Hb'. apply list_elem_of_singleton in Hb' as ->.
      by apply Hfresh. }
    split. { rewrite fmap_app. by rewrite Hxs. }
    split.
    + eapply chain_snoc; try done.
      * by rewrite lookup_insert_eq.
      * rewrite lookup_insert_ne by done. by rewrite lookup_insert_eq.
      * intros b Hbr Hba. by rewrite !lookup_insert_ne.
    + rewrite !length_app in *. simpl in *. lia.
Qed.

Lemma dequeue_front_represents d xs (x : ItemT) :
  represents d (x :: xs) ->
  exists d', Deque.dequeue_front d = (Return x, d') /\ represents d' xs.
Proof.
  intros (l & Hnd & Hxs & Hc & Hsz).
  destruct d as [h fr rr sz r0 f0]; simpl in *.
  destruct l as [|[f x'] l']; [done|]. simpl in Hxs. injection Hxs as -> Hxs.
  simpl in Hc. destruct Hc as (-> & nf & Hnf & Hx & Hp & Hrest).
  simpl in Hnd. apply NoDup_cons in Hnd as [Hf Hnd].
  unfold Deque.dequeue_front, Deque.set_node, Deque.node, Deque.is_empty;
    unfold_monad; simpl. rewrite Hnf. simpl.
  destruct l' as [|[f' y] l'']; simpl in Hrest.
  - destruct Hrest as [Hnext ->]. rewrite Hnext. simpl.
    eexists. split; [by rewrite Hx|].
    exists []. simpl in *. subst xs.
    split; [constructor|]. split; [done|]. split; [done|]. lia.
  - destruct Hrest as (Hnext & nf' & Hnf' & Hy & Hp' & Hrest).
    rewrite Hnext. simpl. rewrite Hnf'. simpl.
    eexists. split; [by rewrite Hx|].
    exists ((f', y) :: l''). simpl in *. subst xs.
    split; [done|]. split; [done|]. split; [|lia].
    split; [done|]. eexists. rewrite lookup_insert_eq.
    repeat split; try done. simpl.
    eapply chain_ext; [|exact Hrest].
    intros b Hb. apply NoDup_cons in Hnd as [Hf' _].
    rewrite lookup_insert_ne; [done|]. by intros ->.
Qed.

Lemma dequeue_empty_raises d :
  represents d [] ->
  Deque.dequeue_front d = (Raise (IndexError "dequeue from empty deque"), d) /\
  Deque.dequeue_rear d = (Raise (IndexError "dequeue from empty deque"), d).
Proof.
  intros (l & Hnd & Hxs & Hc & Hsz).
  destruct l as [|e l]; [|done]. destruct Hc as [Hf Hr].
  unfold Deque.dequeue_front, Deque.dequeue_rear, Deque.is_empty,
    Deque.front_items in *; unfold_monad. by rewrite Hf.
Qed.

Lemma enqueue_all_represents (items : list ItemT) d xs :
  represents d xs ->
  exists d', Deque.enqueue_all items d = (Return tt, d') /\
             represents d' (reverse items ++ xs).
Proof.
  revert d xs. induction items as [|item items IH]; intros d xs Hd.
  - exists d. by split.
  - simpl. destruct (enqueue_front_represents d xs item Hd) as (d1 & E1 & H1).
    destruct (IH d1 (item :: xs) H1) as (d2 & E2 & H2).
    exists d2. unfold bind. rewrite E1. split; [done|].
    by rewrite reverse_cons, <- app_assoc.
Qed.

(** [Deque(items)] holds the items in reverse: each is put at the front. *)
Lemma new_represents (items : list ItemT) :
  fst (Deque.__new__ items) = Return tt /\
  represents (snd (Deque.__new__ items)) (reverse items).
Proof.
  destruct (enqueue_all_represents items Deque.empty [] represents_empty)
    as (d' & E & H).
  unfold Deque.__new__. rewrite E. simpl. by rewrite app_nil_r in H.
Qed.

Lemma chain_walk h prev p l rear_link :
  chain h prev p l rear_link ->
  Deque.walk (length l) h p = Some (fst <$> l).
Proof.
  revert prev p. induction l as [|[a x] l IH]; intros prev p; simpl.
  - by intros [-> _].
  - intros (-> & n & Hn & _ & _ & Hrest). rewrite Hn.
    by rewrite (IH _ _ Hrest).
Qed.

(** What the representation gives: the size is the number of items and of
    nodes walked from the front, and each link is [None] exactly when the
    size is 0. *)
Lemma represents_invariant d xs :
  represents d xs ->
  Deque.size d = Z.of_nat (length xs) /\
  (exists nodes_met,
     Deque.walk (length xs) (Deque.nodes d) (Deque.front_items d)
       = Some nodes_met /\ length nodes_met = length xs) /\
  (Deque.size d = 0 <-> Deque.front_items d = None) /\
  (Deque.size d = 0 <-> Deque.rear_items d = None).
Proof.
  intros (l & Hnd & Hxs & Hc & Hsz).
  pose proof (chain_links _ _ _ _ Hc) as [Hfront Hrear].
  assert (Hlen : length xs = length l) by (by rewrite <- Hxs, length_fmap).
  assert (Hz : Deque.size d = 0 <-> l = []).
  { rewrite Hsz. destruct l; simpl; split; intros; (done || lia). }
  split; [by rewrite Hlen|]. split.
  - exists (fst <$> l). rewrite Hlen, (chain_walk _ _ _ _ _ Hc).
    by rewrite length_fmap.
  - rewrite Hz. tauto.
Qed.

(** On every well-formed deque that is not empty, [dequeue_rear] returns
    the rear item and counts the size down, and leaves both private links
    where they were. *)
Lemma dequeue_rear_leaves_links d xs (x : ItemT) :
  represents d (xs ++ [x]) ->
  exists d', Deque.dequeue_rear d = (Return x, d') /\
             Deque.front_items d' = Deque.front_items d /\
             Deque.rear_items d' = Deque.rear_items d /\
             Deque.front_items d' <> None /\
             Deque.rear_items d' <> None /\
             Deque.size d' = Z.of_nat (length xs).
Proof.
  intros (l & Hnd & Hxs & Hc & Hsz).
  pose proof (chain_links _ _ _ _ Hc) as [Hfront Hrear].
  destruct d as [h fr rr sz r0 f0]; simpl in *.
  destruct l as [|[r y] l0 _] using rev_ind; [by destruct xs|].
  rewrite fmap_app in Hxs. simpl in Hxs.
  apply app_inj_tail in Hxs as [Hxs ->].
  destruct fr as [f|]; [|exfalso; destruct Hfront as [_ Hf]; specialize (Hf eq_refl);
                           by destruct l0].
  pose proof (chain_last _ _ _ _ _ _ _ Hc) as (-> & nr & Hnr & Hy & Hnx & Hpv).
  unfold Deque.dequeue_rear, Deque.set_node, Deque.node, Deque.is_empty;
    unfold_monad; simpl. rewrite Hnr. simpl.
  assert (Hlen : sz - 1 = Z.of_nat (length xs)).
  { rewrite length_app in Hsz. simpl in Hsz. subst xs.
    rewrite length_fmap. lia. }
  destruct (QueueNode._prev nr) as [r'|] eqn:Er'.
  - simpl in Hpv. destruct l0 as [|e' l1 _] using rev_ind; [done|].
    rewrite last_snoc in Hpv. simpl in Hpv. injection Hpv as ->.
    destruct e' as [r' y']. simpl.
    assert (is_Some (h !! r')) as [nr' Hnr'].
    { eapply chain_allocated; [exact Hc|]. rewrite !fmap_app.
      apply elem_of_app. left. apply elem_of_app. right. simpl. left. }
    rewrite Hnr'. simpl. eexists. rewrite Hy. split; [reflexivity|].
    simpl. done.
  - simpl. eexists. rewrite Hy. split; [reflexivity|]. simpl. done.
Qed.
End DequeFacts.


(** C4, on the input where it fails: a deque built from one item holds one
    node and has size 1; [dequeue_rear] returns the item and brings the
    size to 0, but writes the new links to the attributes [rear] and
    [front] instead of the private ones, so the front and rear links both
    still point to the node, the deque does not report empty and one node
    is still reached from the front.  A second [dequeue_rear] returns the
    same item again and the size becomes -1. *)
Theorem dequeue_rear_keeps_front_and_rear {ItemT : Type} (x : ItemT) :
  let d := snd (Deque.__new__ [x]) in
  let d' := snd (Deque.dequeue_rear d) in
  let d'' := snd (Deque.dequeue_rear d') in
  Deque.size d = 1 /\
  Deque.walk 2 (Deque.nodes d) (Deque.front_items d) = Some [0%nat] /\
  fst (Deque.dequeue_rear d) = Return x /\
  Deque.size d' = 0 /\
  Deque.front_items d' = Some 0%nat /\
  Deque.rear_items d' = Some 0%nat /\
  Deque.is_empty d' = false /\
  Deque.walk 2 (Deque.nodes d') (Deque.front_items d') = Some [0%nat] /\
  Deque.rear d' = Some None /\ Deque.front d' = Some None /\
  fst (Deque.dequeue_rear d') = Return x /\
  Deque.size d'' = -1.
Proof. by vm_compute. Qed.

(** With two items the rear link is not moved either: the node unlinked
    from the chain stays the rear, and it is dequeued again. *)
Lemma dequeue_rear_twice {ItemT : Type} (x y : ItemT) :
  let d := snd (Deque.__new__ [x; y]) in
  let d' := snd (Deque.dequeue_rear d) in
  fst (Deque.dequeue_rear d) = Return x /\
  fst (Deque.dequeue_rear d') = Return x /\
  Deque.rear_items d' = Deque.rear_items d /\
  Deque.size (snd (Deque.dequeue_rear d')) = 0 /\
  Deque.is_empty (snd (Deque.dequeue_rear d')) = false.
Proof. by vm_compute. Qed.

(** ** The partial order *)

Section PartialOrderFacts.
Context {NodeT : Type} `{EqDecision NodeT}.
Implicit Types (edges : list (NodeT * NodeT)) (g : DiGraph.t NodeT).

Lemma elem_of_set_add {A} `{EqDecision A} (x a : A) (s : list A) :
  x ∈ set_add a s <-> x = a \/ x ∈ s.
Proof.
  unfold set_add. destruct (decide (a ∈ s)) as [Hin|Hout].
  - split; [by right|]. intros [->|]; done.
  - rewrite elem_of_app, list_elem_of_singleton. tauto.
Qed.

Lemma elem_of_neighbors edges (x y : NodeT) :
  y ∈ PartialOrder.neighbors edges x <-> (x, y) ∈ edges.
Proof.
  unfold PartialOrder.neighbors. rewrite list_elem_of_fmap. split.
  - intros ([a b] & -> & Hin). apply list_elem_of_filter in Hin as [Heq Hin].
    simpl in *. by subst.
  - intros Hin. exists (x, y). split; [done|].
    apply list_elem_of_filter. by split.
Qed.

Lemma reaches_trans edges (x y z : NodeT) :
  reaches edges x y -> reaches edges y z -> reaches edges x z.
Proof.
  induction 1 as [x|x y' y Hxy _ IH]; [done|].
  intros Hz. eapply reaches_step; eauto.
Qed.

(** *** The search stops within its fuel *)

Lemma search_stops (fuel : nat) edges (tail head : NodeT)
    (visited stack : list NodeT) :
  NoDup visited ->
  (forall x, x ∈ visited -> x ∈ head :: (snd <$> edges)) ->
  (forall x, x ∈ stack -> x ∈ head :: (snd <$> edges)) ->
  (S (length edges) < fuel + length visited)%nat ->
  is_Some (PartialOrder.search fuel edges tail visited stack).
Proof.
  revert visited stack.
  induction fuel as [|fuel IH]; intros visited stack Hnd Hv Hs Hlen.
  - exfalso.
    assert (length visited <= length (head :: (snd <$> edges)))%nat as Hle.
    { apply submseteq_length, NoDup_submseteq; auto. }
    simpl in Hle. rewrite length_fmap in Hle. lia.
  - simpl. destruct stack as [|node stack']; [by eexists|].
    destruct (decide (node = tail)); [by eexists|].
    destruct (decide (node ∈ visited)) as [|Hnot]; [by eexists|].
    apply IH.
    + by constructor.
    + intros x [->|Hx]%elem_of_cons; [apply Hs; left | by apply Hv].
    + intros x [Hx|Hx]%elem_of_app; [|apply Hs; by right].
      apply elem_of_reverse, elem_of_neighbors in Hx. right.
      apply list_elem_of_fmap. by exists (node, x).
    + simpl. lia.
Qed.

(** [_creates_cycle] always comes to an answer: the loop returns or raises
    within [enough_fuel] turns. *)
Lemma creates_cycle_total g (tail head : NodeT) :
  is_Some (PartialOrder._creates_cycle g tail head).
Proof.
  unfold PartialOrder._creates_cycle, PartialOrder.enough_fuel.
  apply (search_stops _ _ tail head).
  - constructor.
  - intros x Hx. by apply not_elem_of_nil in Hx.
  - intros x Hx. apply list_elem_of_singleton in Hx as ->. left.
  - simpl. lia.
Qed.

(** *** A search that answers [False] has seen every node in reach *)

Lemma search_false_closed (fuel : nat) edges (tail : NodeT)
    (visited stack : list NodeT) :
  PartialOrder.search fuel edges tail visited stack = Some (Return false) ->
  tail ∉ visited ->
  (forall v y, v ∈ visited -> (v, y) ∈ edges -> y ∈ visited \/ y ∈ stack) ->
  exists seen : list NodeT,
    (tail ∉ seen) /\
    (forall x, x ∈ visited \/ x ∈ stack -> x ∈ seen) /\
    (forall v y, v ∈ seen -> (v, y) ∈ edges -> y ∈ seen).
Proof.
  revert visited stack.
  induction fuel as [|fuel IH]; intros visited stack Hres Ht Hcl; [done|].
  simpl in Hres. destruct stack as [|node stack'].
  - exists visited. split; [done|]. split.
    + intros x [Hx|Hx]; [done|by apply not_elem_of_nil in Hx].
    + intros v y Hv Hvy. destruct (Hcl v y Hv Hvy) as [|Hx]; [done|].
      by apply not_elem_of_nil in Hx.
  - destruct (decide (node = tail)); [done|].
    destruct (decide (node ∈ visited)); [done|].
    apply IH in Hres as (seen & Hts & Hin & Hclosed).
    + exists seen. split; [done|]. split; [|done].
      intros x [Hx|Hx].
      * apply Hin. left. by right.
      * apply elem_of_cons in Hx as [->|Hx].
        -- apply Hin. left. left.
        -- apply Hin. right. apply elem_of_app. by right.
    + intros [->|Hx]%elem_of_cons; done.
    + intros v y [->|Hv]%elem_of_cons Hvy.
      * right. apply elem_of_app. left.
        by apply elem_of_reverse, elem_of_neighbors.
      * destruct (Hcl v y Hv Hvy) as [Hy|Hy]; [left; by right|].
        apply elem_of_cons in Hy as [->|Hy]; [left; left|].
        right. apply elem_of_app. by right.
Qed.

(** When [_creates_cycle] answers [False], no path leads from [head] to
    [tail]. *)
Lemma creates_cycle_false_sound g (tail head : NodeT) :
  PartialOrder._creates_cycle g tail head = Some (Return false) ->
  ~ reaches (DiGraph.edges g) head tail.
Proof.
  intros Hres. apply search_false_closed in Hres as (seen & Ht & Hin & Hcl).
  - intros Hreach. apply Ht.
    assert (Hh : head ∈ seen) by (apply Hin; right; left).
    clear Hin Ht. induction Hreach as [x|x y z Hxy _ IH]; [done|].
    apply IH. by apply (Hcl x y).
  - apply not_elem_of_nil.
  - intros v y Hv. by apply not_elem_of_nil in Hv.
Qed.

(** *** What [add_edge] does *)

Lemma add_edge_total g (tail head : NodeT) :
  is_Some (PartialOrder.add_edge tail head g).
Proof.
  unfold PartialOrder.add_edge.
  destruct (creates_cycle_total g tail head) as [[[]|e] ->]; by eexists.
Qed.

(** A call that raises leaves the graph, nodes and edges, as it was. *)
Lemma add_edge_raise_unchanged g g' (tail head : NodeT) (e : PyExc) :
  PartialOrder.add_edge tail head g = Some (Raise e, g') -> g' = g.
Proof.
  unfold PartialOrder.add_edge.
  destruct (PartialOrder._creates_cycle g tail head) as [[[]|e']|];
    simpl; intros; by simplify_eq.
Qed.

(** An edge is inserted only when no path leads from its head back to its
    tail. *)
Lemma add_edge_return g g' (tail head : NodeT) (u : unit) :
  PartialOrder.add_edge tail head g = Some (Return u, g') ->
  ~ reaches (DiGraph.edges g) head tail /\
  DiGraph.edges g' = set_add (tail, head) (DiGraph.edges g) /\
  DiGraph.nodes g' = set_add head (set_add tail (DiGraph.nodes g)).
Proof.
  unfold PartialOrder.add_edge, DiGraph.add_edge, modify.
  destruct (PartialOrder._creates_cycle g tail head) as [[[]|e']|] eqn:E;
    simpl; intros; simplify_eq.
  split; [by apply creates_cycle_false_sound|done].
Qed.

(** An edge that would close a cycle is always rejected, by one error or
    the other. *)
Lemma add_edge_cycle_rejected g (tail head : NodeT) :
  reaches (DiGraph.edges g) head tail ->
  exists e, PartialOrder.add_edge tail head g = Some (Raise e, g).
Proof.
  intros Hreach.
  destruct (add_edge_total g tail head) as [[[u|e] g'] Hres].
  - apply add_edge_return in Hres as [Hno _]. done.
  - pose proof (add_edge_raise_unchanged _ _ _ _ _ Hres) as ->. by exists e.
Qed.

(** *** Acyclicity is kept *)

Lemma reaches_set_add edges (tail head a b : NodeT) :
  reaches (set_add (tail, head) edges) a b ->
  reaches edges a b \/ (reaches edges a tail /\ reaches edges head b).
Proof.
  induction 1 as [x|x y z Hxy _ IH]; [left; constructor|].
  apply elem_of_set_add in Hxy as [[= -> ->]|Hxy].
  - right. split; [constructor|].
    destruct IH as [IH|[_ IH]]; done.
  - destruct IH as [IH|[IH1 IH2]].
    + left. by eapply reaches_step.
    + right. split; [by eapply reaches_step|done].
Qed.

Lemma acyclic_set_add edges (tail head : NodeT) :
  acyclic edges -> ~ reaches edges head tail ->
  acyclic (set_add (tail, head) edges).
Proof.
  intros Hac Hno x y Hxy Hreach.
  apply reaches_set_add in Hreach.
  apply elem_of_set_add in Hxy as [[= -> ->]|Hxy].
  - destruct Hreach as [Hr|[Hr _]]; done.
  - destruct Hreach as [Hr|[Hr1 Hr2]]; [by apply (Hac x y)|].
    apply Hno. eapply reaches_trans; [exact Hr2|].
    eapply reaches_step; [exact Hxy|exact Hr1].
Qed.

Lemma graph_after_acyclic g (tail head : NodeT) :
  acyclic (DiGraph.edges g) ->
  acyclic (DiGraph.edges (graph_after tail head g)).
Proof.
  intros Hac. unfold graph_after.
  destruct (PartialOrder.add_edge tail head g) as [[[u|e] g']|] eqn:E;
    [|by rewrite (add_edge_raise_unchanged _ _ _ _ _ E)|done].
  apply add_edge_return in E as (Hno & -> & _). by apply acyclic_set_add.
Qed.

(** No sequence of [add_edge] calls on a new partial order produces a
    cycle. *)
Lemma add_edge_never_closes_a_cycle (calls : list (NodeT * NodeT)) :
  acyclic (DiGraph.edges (graph_after_all calls DiGraph.__new__)).
Proof.
  assert (H0 : acyclic (DiGraph.edges (@DiGraph.__new__ NodeT))).
  { intros x y Hxy. by apply not_elem_of_nil in Hxy. }
  revert H0. generalize (@DiGraph.__new__ NodeT).
  induction calls as [|[tail head] calls IH]; intros g Hg; [done|].
  simpl. apply IH. by apply graph_after_acyclic.
Qed.

End PartialOrderFacts.


Lemma diamond_is_built :
  then_add_edge 2 3 (then_add_edge 1 3 (then_add_edge 0 2
    (PartialOrder.add_edge 0%nat 1%nat DiGraph.__new__)))
  = Some (Return tt, diamond).
Proof. reflexivity. Qed.

(** C5, on the input where it fails: node 7 occurs in no edge of the
    diamond, so the edge (7, 0) closes no cycle and the search from 0 never
    meets 7; but the search pops node 3 twice, and the second time it
    raises [AttributeError]: the edge is not inserted.  This is so in
    whatever order the set of edges is iterated. *)
Theorem add_edge_above_diamond_raises (edges : list (nat * nat)) :
  edges ≡ₚ diamond_edges ->
  PartialOrder.add_edge 7%nat 0%nat (diamond_with edges) =
    Some (Raise (AttributeError "{node} is in {visited} and cannot be added"),
          diamond_with edges).
Proof.
  intros Hp. symmetry in Hp. apply permutations_Permutation in Hp.
  revert edges Hp. apply Forall_forall.
  vm_compute. repeat (constructor; [reflexivity|]). constructor.
Qed.

Lemma add_edge_above_diamond_raises_witness :
  PartialOrder.add_edge 7%nat 0%nat diamond =
    Some (Raise (AttributeError "{node} is in {visited} and cannot be added"),
          diamond).
Proof. apply (add_edge_above_diamond_raises diamond_edges). reflexivity. Defined.

(** ** The action registry *)

Lemma dict_get_set {V} (k k' : string) (v : V) (d : list (string * V)) :
  dict_get k (dict_set k' v d) =
    if decide (k' = k) then Some v else dict_get k d.
Proof.
  induction d as [|[k0 v0] d IH]; simpl.
  - done.
  - destruct (decide (k0 = k')) as [->|Hne]; simpl.
    + destruct (decide (k' = k)); done.
    + destruct (decide (k0 = k)) as [->|]; [by rewrite decide_False|done].
Qed.

(** A name with two leading underscores does not start with [_action]. *)
Lemma dunder_not_action (key : string) :
  startswith key "__" = true -> startswith key "_action" = false.
Proof.
  unfold startswith.
  destruct key as [|c1 [|c2 key]]; simpl; try done.
  - by case_match.
  - repeat (case_match; simplify_eq; try done).
Qed.

(** The entries the interpreter puts into a class namespace are skipped by
    the registration, whatever they hold. *)
Lemma register_skips_dunder (key : string) (value : ClassValue)
    (rest : list (string * ClassValue)) (acc : list (string * Function)) :
  startswith key "__" = true ->
  Action.register ((key, value) :: rest) acc = Action.register rest acc.
Proof.
  intros Hk. simpl. destruct value; [|done].
  by rewrite (dunder_not_action key Hk).
Qed.

(** The registry holds exactly the callables whose name starts with
    [_action], under their full name. *)
Lemma register_not_registered (ns : list (string * ClassValue))
    (acc : list (string * Function)) (key : string) :
  (forall f, (key, Callable f) ∈ ns -> startswith key "_action" = false) ->
  dict_get key (Action.register ns acc) = dict_get key acc.
Proof.
  revert acc. induction ns as [|[k v] ns IH]; intros acc Hno; [done|].
  simpl. destruct v as [f|].
  - destruct (startswith k "_action") eqn:Ek.
    + rewrite IH by (intros f' Hf'; apply (Hno f'); by right).
      rewrite dict_get_set. destruct (decide (k = key)) as [->|]; [|done].
      rewrite (Hno f) in Ek; [done|left].
    + apply IH. intros f' Hf'. apply (Hno f'). by right.
  - apply IH. intros f' Hf'. apply (Hno f'). by right.
Qed.

Lemma register_registered (ns : list (string * ClassValue))
    (acc : list (string * Function)) (key : string) (f : Function) :
  NoDup (fst <$> ns) ->
  (key, Callable f) ∈ ns ->
  startswith key "_action" = true ->
  dict_get key (Action.register ns acc) = Some f.
Proof.
  revert acc. induction ns as [|[k v] ns IH]; intros acc Hnd Hin Hk.
  - by apply not_elem_of_nil in Hin.
  - simpl in Hnd. apply NoDup_cons in Hnd as [Hfresh Hnd].
    apply elem_of_cons in Hin as [[= <- <-]|Hin].
    + simpl. rewrite Hk. rewrite register_not_registered.
      * rewrite dict_get_set. by rewrite decide_True.
      * intros f' Hf'. exfalso. apply Hfresh.
        apply list_elem_of_fmap. by exists (key, Callable f').
    + simpl. destruct v as [f'|]; [|by apply IH].
      destruct (startswith k "_action"); by apply IH.
Qed.

(** The dispatcher, for any registry: an unknown investigator raises
    [KeyError]; an action that is not in the action map raises
    [NotFoundError] with the action and the keys of the map; otherwise the
    handler is called, without arguments for the three drawing actions and
    with the investigator and the extra arguments for all others. *)
Lemma perform_investigator_action_of_spec
    (registered : list (string * Function)) (investigators : gmap string nat)
    (name action : string) (args : list string) :
  let action_map := ActionManager.get_action_map_of registered in
  ActionManager.perform_investigator_action_of registered investigators name
    action args =
  match investigators !! name with
  | None => Raise (KeyError
      "the investigator {name} doesn't exit in {self._investigator}")
  | Some i =>
      match dict_get action action_map with
      | None => Raise (NotFoundError action (dict_keys action_map))
      | Some action_func =>
          Return {| callee := action_func;
                    arguments := if ActionManager.niladic action then []
                                 else InvestigatorArg i :: (ExtraArg <$> args) |}
      end
  end.
Proof.
  unfold ActionManager.perform_investigator_action_of,
    ActionManager.get_investigator.
  destruct (investigators !! name); [|done].
  destruct (dict_get _ _); [|done]. by destruct (ActionManager.niladic _).
Qed.

Lemma prefixed_handlers_are_dispatched :
  ActionManager.get_action_map_of (Action.__new__ prefixed_dic_vals)
    = [("move_investigator", def__move_investigator);
       ("ward_doom", def__ward_doom)] /\
  ActionManager.perform_investigator_action_of
    (Action.__new__ prefixed_dic_vals) roster "Lakshmi Patel"
    "move_investigator" ["Downtown"]
    = Return {| callee := def__move_investigator;
                arguments := [InvestigatorArg 0; ExtraArg "Downtown"] |} /\
  ActionManager.perform_investigator_action_of
    (Action.__new__ prefixed_dic_vals) roster "Lakshmi Patel"
    "resolve_encounter" []
    = Raise (NotFoundError "resolve_encounter"
               ["move_investigator"; "ward_doom"]).
Proof. repeat split. Qed.


(** C1, on the input where it fails: no method of [ActionManager] has a
    name that starts with [_action], so the metaclass registers nothing
    and the action map is empty; dispatching any of the four handlers for a
    registered investigator raises [NotFoundError] with an empty set of
    valid keys, under the documented name as under the name of the
    method. *)
Theorem action_map_is_empty :
  ActionManager._registered_actions = [] /\
  ActionManager.get_action_map = [] /\
  ActionManager.perform_investigator_action roster "Lakshmi Patel"
    "move_investigator" ["Downtown"]
    = Raise (NotFoundError "move_investigator" []) /\
  ActionManager.perform_investigator_action roster "Lakshmi Patel"
    "attack_monster" ["ghoul"]
    = Raise (NotFoundError "attack_monster" []) /\
  ActionManager.perform_investigator_action roster "Lakshmi Patel"
    "evade_monster" ["ghoul"]
    = Raise (NotFoundError "evade_monster" []) /\
  ActionManager.perform_investigator_action roster "Lakshmi Patel"
    "ward_doom" []
    = Raise (NotFoundError "ward_doom" []) /\
  ActionManager.perform_investigator_action roster "Lakshmi Patel"
    "_move_investigator" ["Downtown"]
    = Raise (NotFoundError "_move_investigator" []).
Proof. repeat split. Qed.

(** Every dispatch for a registered investigator ends in
    [NotFoundError]. *)
Lemma dispatch_always_not_found (investigators : gmap string nat)
    (name action : string) (args : list string) (i : nat) :
  investigators !! name = Some i ->
  ActionManager.perform_investigator_action investigators name action args
    = Raise (NotFoundError action []).
Proof.
  intros Hi. unfold ActionManager.perform_investigator_action,
    ActionManager.perform_investigator_action_of,
    ActionManager.get_investigator.
  by rewrite Hi.
Qed.

(** * Further properties *)

(** ** The deque as a list *)

Section DequeMore.
Context {ItemT : Type}.
Implicit Types (h : gmap nat (QueueNode.t ItemT)) (d : Deque.t ItemT)
  (l : list (nat * ItemT)) (xs : list ItemT).

Lemma chain_iterate h prev p l rear_link (fuel : nat) :
  chain h prev p l rear_link -> (length l <= fuel)%nat ->
  Deque.iterate fuel h p = Some (snd <$> l).
Proof.
  revert prev p fuel. induction l as [|[a x] l IH]; intros prev p fuel; simpl.
  - intros [-> _] _. by destruct fuel.
  - intros (-> & n & Hn & Hx & _ & Hrest) Hlen.
    destruct fuel as [|fuel]; [lia|]. simpl. rewrite Hn.
    rewrite (IH _ _ fuel Hrest) by lia. by rewrite Hx.
Qed.

Lemma chain_length h prev p l rear_link :
  chain h prev p l rear_link -> NoDup (fst <$> l) ->
  (length l <= size h)%nat.
Proof.
  intros Hc Hnd.
  rewrite <- (length_fmap fst l), <- size_dom.
  rewrite <- (size_list_to_set (C := gset nat) (fst <$> l)) by done.
  apply subseteq_size. intros a Ha. apply elem_of_list_to_set in Ha.
  apply elem_of_dom. by eapply chain_allocated.
Qed.

Lemma represents_to_list d xs :
  represents d xs -> Deque.to_list d = Some xs.
Proof.
  intros (l & Hnd & <- & Hc & Hsz). unfold Deque.to_list.
  eapply chain_iterate; [exact Hc|]. by eapply chain_length.
Qed.

Lemma peek_front_represents d xs (x : ItemT) :
  represents d (x :: xs) -> Deque.peek_front d = (Return x, d).
Proof.
  intros (l & Hnd & Hxs & Hc & Hsz).
  destruct l as [|[f x'] l']; [done|]. simpl in Hxs. injection Hxs as -> _.
  simpl in Hc. destruct Hc as (Hf & nf & Hnf & Hx & _).
  unfold Deque.peek_front, Deque.node, Deque.is_empty, Deque.front_items in *;
    unfold_monad. rewrite Hf, Hnf. by rewrite Hx.
Qed.

Lemma peek_rear_represents d xs (x : ItemT) :
  represents d (xs ++ [x]) -> Deque.peek_rear d = (Return x, d).
Proof.
  intros (l & Hnd & Hxs & Hc & Hsz).
  pose proof (chain_links _ _ _ _ Hc) as [Hfront _].
  destruct l as [|[r y] l0 _] using rev_ind; [by destruct xs|].
  rewrite fmap_app in Hxs. simpl in Hxs.
  apply app_inj_tail in Hxs as [_ ->].
  pose proof (chain_last _ _ _ _ _ _ _ Hc) as (Hr & nr & Hnr & Hy & _).
  unfold Deque.peek_rear, Deque.node, Deque.is_empty, Deque.front_items,
    Deque.rear_items in *; unfold_monad.
  destruct (Deque.__front_items d) as [f|] eqn:Ef.
  - rewrite Hr, Hnr. by rewrite Hy.
  - exfalso. destruct Hfront as [_ Hf]. specialize (Hf eq_refl).
    by destruct l0.
Qed.

Lemma peek_empty_raises d :
  represents d [] ->
  Deque.peek_front d = (Raise (IndexError "peek from empty deque"), d) /\
  Deque.peek_rear d = (Raise (IndexError "peek from empty deque"), d).
Proof.
  intros (l & Hnd & Hxs & Hc & Hsz).
  destruct l as [|e l]; [|done]. destruct Hc as [Hf Hr].
  unfold Deque.peek_front, Deque.peek_rear, Deque.is_empty,
    Deque.front_items in *; unfold_monad. by rewrite Hf.
Qed.

(** One call on a well-formed deque answers as the list does, and leaves a
    well-formed deque holding the list's new contents. *)
Lemma deque_call_refines (c : DequeCall ItemT) d xs :
  represents d xs ->
  exists d', deque_call c d = (fst (list_call c xs), d') /\
             represents d' (snd (list_call c xs)).
Proof.
  intros Hd. destruct c as [x|x| | |]; simpl; unfold bind, ret.
  - destruct (enqueue_front_represents d xs x Hd) as (d' & -> & Hd'). eauto.
  - destruct (enqueue_rear_represents d xs x Hd) as (d' & -> & Hd'). eauto.
  - destruct xs as [|x xs].
    + destruct (dequeue_empty_raises d Hd) as [-> _]. eauto.
    + destruct (dequeue_front_represents d xs x Hd) as (d' & -> & Hd'). eauto.
  - destruct xs as [|x xs].
    + destruct (peek_empty_raises d Hd) as [-> _]. eauto.
    + rewrite (peek_front_represents d xs x Hd). eauto.
  - destruct xs as [|x xs _] using rev_ind.
    + destruct (peek_empty_raises d Hd) as [_ ->]. eauto.
    + rewrite last_snoc. rewrite (peek_rear_represents d xs x Hd). eauto.
Qed.

Lemma run_calls_refines (cs : list (DequeCall ItemT)) d xs :
  represents d xs ->
  fst (run_calls deque_call cs d) = fst (run_calls list_call cs xs) /\
  represents (snd (run_calls deque_call cs d)) (snd (run_calls list_call cs xs)).
Proof.
  revert d xs. induction cs as [|c cs IH]; intros d xs Hd; [done|].
  simpl. destruct (deque_call_refines c d xs Hd) as (d' & -> & Hd').
  destruct (list_call c xs) as [o xs'] eqn:E. simpl in *.
  specialize (IH d' xs' Hd').
  destruct (run_calls deque_call cs d') as [os d''].
  destruct (run_calls list_call cs xs') as [os' xs'']. simpl in *.
  destruct IH as [-> Hd'']. done.
Qed.

(** X1: a deque made by [Deque(items)] and used through [enqueue_front],
    [enqueue_rear], [dequeue_front], [peek_front] and [peek_rear], in any
    number and order, answers every call as a plain list starting from the
    items in reverse would (raising [IndexError] where the list is empty),
    and afterwards [list(deque)], [len(deque)], [is_empty()] and the rear
    link agree with that list. *)
Theorem deque_behaves_as_list (items : list ItemT)
    (cs : list (DequeCall ItemT)) :
  let d := snd (run_calls deque_call cs (snd (Deque.__new__ items))) in
  let xs := snd (run_calls list_call cs (reverse items)) in
  fst (run_calls deque_call cs (snd (Deque.__new__ items)))
    = fst (run_calls list_call cs (reverse items)) /\
  Deque.to_list d = Some xs /\
  Deque.__len__ d = Z.of_nat (length xs) /\
  (Deque.is_empty d = true <-> xs = []) /\
  (Deque.rear_items d = None <-> xs = []).
Proof.
  intros d xs.
  destruct (new_represents items) as [_ Hnew].
  destruct (run_calls_refines cs _ _ Hnew) as [Hout Hrep].
  fold d xs in Hrep. split; [done|].
  split; [by apply represents_to_list|].
  destruct (represents_invariant d xs Hrep) as (Hsz & _ & Hf & Hr).
  split; [done|]. unfold Deque.__len__, Deque.size in *.
  assert (Hz : Deque.__size d = 0 <-> xs = []).
  { rewrite Hsz. destruct xs; simpl; split; intros; (done || lia). }
  split.
  - rewrite <- Hz, Hf. unfold Deque.is_empty, Deque.front_items.
    destruct (Deque.__front_items d); split; done.
  - by rewrite <- Hz, Hr.
Qed.
End DequeMore.

(** ** The decks *)

Section DeckFacts.
Context {CardT : Type}.
Implicit Types (h : gmap nat (QueueNode.t CardT)) (d : Deque.t CardT)
  (l : list (nat * CardT)) (xs : list CardT).

(** Cutting the last node off a chain of at least two nodes: the node
    before it gets [_next = None] and becomes the last. *)
Lemma chain_cut h prev p l (r' r : nat) (y x : CardT) nr' :
  chain h prev p (l ++ [(r', y); (r, x)]) (Some r) ->
  NoDup (fst <$> (l ++ [(r', y); (r, x)])) ->
  h !! r' = Some nr' ->
  chain (<[r' := QueueNode.with_next None nr']> h) prev p (l ++ [(r', y)])
    (Some r').
Proof.
  intros Hc Hnd Hr'.
  revert prev p Hc Hnd. induction l as [|[b z] l IH]; intros prev p; simpl.
  - intros (-> & n & Hn & Hy & Hp & _) _.
    rewrite Hr' in Hn. injection Hn as <-.
    split; [done|]. eexists. rewrite lookup_insert_eq.
    repeat split; done.
  - intros (-> & n & Hn & Hz & Hp & Hrest) Hnd.
    apply NoDup_cons in Hnd as [Hb Hnd].
    split; [done|]. exists n. rewrite lookup_insert_ne.
    + repeat split; try done. by apply IH.
    + intros ->. apply Hb. rewrite fmap_app. apply elem_of_app. right.
      simpl. left.
Qed.

(** What [dequeue_rear] leaves of a well-formed deque: the item returned is
    the rear one; the chain from the front holds the other items when there
    are any, and still the item itself when it was the only one; the rear
    link still points to the node of the item. *)
Lemma dequeue_rear_state d xs (x : CardT) :
  represents d (xs ++ [x]) ->
  exists d', Deque.dequeue_rear d = (Return x, d') /\
             Deque.to_list d' = Some (if decide (xs = []) then [x] else xs) /\
             Deque.dequeue_rear d' = (Return x, snd (Deque.dequeue_rear d')) /\
             Deque.__len__ d' = Z.of_nat (length xs) /\
             Deque.__len__ (snd (Deque.dequeue_rear d'))
               = Z.of_nat (length xs) - 1.
Proof.
  intros (l & Hnd & Hxs & Hc & Hsz).
  pose proof (chain_links _ _ _ _ Hc) as [Hfront Hrear].
  pose proof (chain_length _ _ _ _ _ Hc Hnd) as Hlen.
  destruct d as [h fr rr sz r0 f0]; simpl in *.
  destruct l as [|[r y] l0 _] using rev_ind; [by destruct xs|].
  rewrite fmap_app in Hxs. simpl in Hxs.
  apply app_inj_tail in Hxs as [Hxs ->].
  destruct fr as [f|]; [|exfalso; destruct Hfront as [_ Hf];
                           specialize (Hf eq_refl); by destruct l0].
  pose proof (chain_last _ _ _ _ _ _ _ Hc) as (-> & nr & Hnr & Hy & Hnx & Hpv).
  assert (Hsz' : sz - 1 = Z.of_nat (length xs)).
  { rewrite length_app in Hsz. simpl in Hsz. subst xs.
    rewrite length_fmap. lia. }
  unfold Deque.dequeue_rear, Deque.set_node, Deque.node, Deque.is_empty,
    Deque.to_list, Deque.__len__; unfold_monad; simpl. rewrite Hnr. simpl.
  destruct l0 as [|[r' y'] l1 _] using rev_ind.
  - simpl in *. subst xs. simpl in Hpv. rewrite Hpv. simpl.
    eexists. split; [by rewrite Hy|]. simpl.
    destruct Hc as (Hf & n & Hn & _ & _ & Hrest). injection Hf as ->.
    split.
    { destruct (size h) eqn:Es; [simpl in Hlen; lia|]. simpl.
      rewrite Hnr, Hnx. rewrite Hy. by destruct n0. }
    rewrite Hnr. simpl. rewrite Hpv. simpl. rewrite Hy.
    split; [done|]. split; lia.
  - rewrite last_snoc in Hpv. simpl in Hpv. rewrite Hpv. simpl.
    rewrite <- app_assoc in Hc, Hnd. simpl in Hc, Hnd.
    assert (is_Some (h !! r')) as [nr' Hnr'].
    { eapply chain_allocated; [exact Hc|]. rewrite !fmap_app.
      apply elem_of_app. right. simpl. left. }
    assert (Hrr' : r' <> r).
    { intros ->. rewrite fmap_app in Hnd. apply NoDup_app in Hnd as (_ & _ & Hnd).
      simpl in Hnd. apply NoDup_cons in Hnd as [Hnd _]. apply Hnd. left. }
    rewrite Hnr'. simpl.
    eexists. split; [by rewrite Hy|]. simpl.
    pose proof (chain_cut _ _ _ _ _ _ _ _ _ Hc Hnd Hnr') as Hcut.
    split.
    { rewrite decide_False.
      2:{ subst xs. rewrite fmap_app. simpl. intros E.
          by apply app_eq_nil in E as [_ ?]. }
      rewrite <- Hxs. eapply chain_iterate; [exact Hcut|].
      rewrite map_size_insert_Some by done.
      rewrite !length_app in *. simpl in *. lia. }
    rewrite lookup_insert_ne by done. rewrite Hnr. simpl. rewrite Hpv. simpl.
    rewrite lookup_insert_eq. simpl. rewrite Hy.
    split; [done|]. split; lia.
Qed.
End DeckFacts.

Lemma represents_len {CardT : Type} (d : Deque.t CardT) (xs : list CardT) :
  represents d xs -> Deck.len d = Return (Z.of_nat (length xs)).
Proof.
  intros Hd. destruct (represents_invariant d xs Hd) as (Hsz & _).
  unfold Deck.len, Deque.__len__, Deque.size in *. rewrite Hsz.
  destruct (Z.of_nat (length xs) <? 0) eqn:E; [|done].
  apply Z.ltb_lt in E. lia.
Qed.

Lemma represents_list_of {CardT : Type} (d : Deque.t CardT)
    (xs : list CardT) :
  represents d xs -> Deck.list_of d = Some (Return xs).
Proof.
  intros Hd. unfold Deck.list_of.
  by rewrite (represents_len d xs Hd), (represents_to_list d xs Hd).
Qed.

(** X2: on a well-formed deck that holds at least one card, [draw_rear]
    returns the rear card, and a second [draw_rear] returns the very same
    card again (the rear link was not moved).  [len] of the deck goes down
    by one each time: after the second draw it is one less than the number
    of cards that were under the rear card, and [len] raises [ValueError]
    when there was none, the size counter being -1 then. *)
Theorem draw_rear_returns_the_same_card_twice {CardT : Type}
    (d : Deque.t CardT) (xs : list CardT) (x : CardT) :
  represents d (xs ++ [x]) ->
  let d' := snd (Deck.draw_rear d) in
  let d'' := snd (Deck.draw_rear d') in
  fst (Deck.draw_rear d) = Return x /\
  fst (Deck.draw_rear d') = Return x /\
  Deck.__len__ d = Return (Z.of_nat (length xs) + 1) /\
  Deck.__len__ d' = Return (Z.of_nat (length xs)) /\
  Deck.__len__ d''
    = if decide (xs = [])
      then Raise (ValueError "__len__() should return >= 0")
      else Return (Z.of_nat (length xs) - 1).
Proof.
  intros Hd d' d''. unfold Deck.draw_rear, Deck.__len__ in *.
  destruct (represents_invariant d _ Hd) as (Hsz & _).
  rewrite length_app in Hsz. simpl in Hsz.
  destruct (dequeue_rear_state d xs x Hd) as (d1 & E1 & _ & E2 & L1 & L2).
  subst d'' d'. rewrite E1. simpl. rewrite E2. simpl.
  unfold Deck.len. rewrite L1, L2.
  unfold Deque.__len__, Deque.size in *. rewrite Hsz.
  split; [done|]. split; [done|]. split.
  { destruct (_ <? 0) eqn:E; [apply Z.ltb_lt in E; lia|f_equal; lia]. }
  split.
  { destruct (_ <? 0) eqn:E; [apply Z.ltb_lt in E; lia|done]. }
  destruct (decide (xs = [])) as [->|Hne]; [done|].
  destruct (_ <? 0) eqn:E; [|done].
  apply Z.ltb_lt in E. destruct xs; [done|]. simpl in E. lia.
Qed.

Lemma draw_rear_returns_the_same_card_twice_witness :
  (let d := snd (Deque.__new__ [1; 2; 3]%nat) in
   let d' := snd (Deck.draw_rear d) in
   let d'' := snd (Deck.draw_rear d') in
   fst (Deck.draw_rear d) = Return 1%nat /\
   fst (Deck.draw_rear d') = Return 1%nat /\
   Deck.__len__ d = Return 3 /\
   Deck.__len__ d' = Return 2 /\
   Deck.__len__ d'' = Return 1) /\
  (let d := snd (Deque.__new__ [7]%nat) in
   let d' := snd (Deck.draw_rear d) in
   let d'' := snd (Deck.draw_rear d') in
   fst (Deck.draw_rear d) = Return 7%nat /\
   fst (Deck.draw_rear d') = Return 7%nat /\
   Deck.__len__ d = Return 1 /\
   Deck.__len__ d' = Return 0 /\
   Deck.__len__ d'' = Raise (ValueError "__len__() should return >= 0")).
Proof.
  split.
  - exact (draw_rear_returns_the_same_card_twice
             (snd (Deque.__new__ [1; 2; 3]%nat)) [3; 2]%nat 1%nat
             (proj2 (new_represents [1; 2; 3]%nat))).
  - exact (draw_rear_returns_the_same_card_twice
             (snd (Deque.__new__ [7]%nat)) [] 7%nat
             (proj2 (new_represents [7]%nat))).
Defined.

Section Shuffle.
Context {CardT : Type} (shuffle_func : list CardT -> list CardT).
Hypothesis shuffle_permutes : forall cards, shuffle_func cards ≡ₚ cards.

(** X3: [shuffle] on a well-formed deck leaves a well-formed deck of the
    same length that holds the same cards, each as often as before: the
    cards as [random.shuffle] arranged them, in reverse, since [Deque(cards)]
    puts each card at the front. *)
Theorem shuffle_keeps_the_cards (d : Deque.t CardT) (xs : list CardT) :
  represents d xs ->
  exists d', Deck.shuffle shuffle_func d = Some (Return tt, d') /\
             represents d' (reverse (shuffle_func xs)) /\
             reverse (shuffle_func xs) ≡ₚ xs /\
             Deck.__len__ d' = Deck.__len__ d /\
             Deck.__len__ d = Return (Z.of_nat (length xs)).
Proof.
  intros Hd. unfold Deck.shuffle. rewrite (represents_list_of d xs Hd).
  eexists. split; [done|].
  destruct (new_represents (shuffle_func xs)) as [_ Hnew].
  split; [done|].
  assert (Hp : reverse (shuffle_func xs) ≡ₚ xs).
  { by rewrite reverse_Permutation. }
  split; [done|].
  unfold Deck.__len__.
  rewrite (represents_len _ _ Hnew), (represents_len _ _ Hd).
  split; [|done]. do 2 f_equal. by apply Permutation_length.
Qed.

(** X4: [shuffle] right after a [draw_rear] rebuilds a well-formed deck
    from the chain of nodes [draw_rear] has left: the cards that were not
    drawn when there were several, but the drawn card itself when it was the
    only one, which is then back in the deck. *)
Theorem shuffle_after_draw_rear (d : Deque.t CardT) (xs : list CardT)
    (x : CardT) :
  represents d (xs ++ [x]) ->
  let left := if decide (xs = []) then [x] else xs in
  exists d', Deck.shuffle shuffle_func (snd (Deck.draw_rear d))
               = Some (Return tt, d') /\
             represents d' (reverse (shuffle_func left)) /\
             reverse (shuffle_func left) ≡ₚ left.
Proof.
  intros Hd left. unfold Deck.shuffle, Deck.draw_rear.
  destruct (dequeue_rear_state d xs x Hd) as (d1 & E1 & Hl & _ & L1 & _).
  rewrite E1. simpl. unfold Deck.list_of, Deck.len. rewrite L1, Hl.
  destruct (Z.of_nat (length xs) <? 0) eqn:E; [apply Z.ltb_lt in E; lia|].
  fold left.
  eexists. split; [done|].
  destruct (new_represents (shuffle_func left)) as [_ Hnew].
  split; [done|]. by rewrite reverse_Permutation.
Qed.

(** After two [draw_rear] on a deck of one card the size counter is -1:
    [list] raises before it iterates and [shuffle] leaves the deck as it
    is. *)
Lemma shuffle_after_two_draw_rear (d : Deque.t CardT) (x : CardT) :
  represents d [x] ->
  let d'' := snd (Deck.draw_rear (snd (Deck.draw_rear d))) in
  Deck.shuffle shuffle_func d''
    = Some (Raise (ValueError "__len__() should return >= 0"), d'').
Proof.
  intros Hd d''. unfold Deck.draw_rear in *.
  destruct (dequeue_rear_state d [] x Hd) as (d1 & E1 & _ & _ & _ & L2).
  subst d''. rewrite E1. simpl in *.
  unfold Deck.shuffle, Deck.list_of, Deck.len. by rewrite L2.
Qed.

End Shuffle.

Lemma shuffle_keeps_the_cards_witness :
  exists d', Deck.shuffle reverse (snd (Deque.__new__ [1; 2; 3]%nat))
               = Some (Return tt, d') /\
             represents d' (reverse (reverse [3; 2; 1]%nat)) /\
             reverse (reverse [3; 2; 1]%nat) ≡ₚ [3; 2; 1]%nat /\
             Deck.__len__ d' = Deck.__len__ (snd (Deque.__new__ [1; 2; 3]%nat)) /\
             Deck.__len__ (snd (Deque.__new__ [1; 2; 3]%nat))
               = Return (Z.of_nat (length [3; 2; 1]%nat)).
Proof.
  exact (shuffle_keeps_the_cards reverse (fun l => reverse_Permutation l)
           (snd (Deque.__new__ [1; 2; 3]%nat)) [3; 2; 1]%nat
           (proj2 (new_represents [1; 2; 3]%nat))).
Defined.

Lemma shuffle_after_draw_rear_witness :
  exists d', Deck.shuffle reverse
               (snd (Deck.draw_rear (snd (Deque.__new__ [7]%nat))))
               = Some (Return tt, d') /\
             represents d' (reverse (reverse [7]%nat)) /\
             reverse (reverse [7]%nat) ≡ₚ [7]%nat.
Proof.
  exact (shuffle_after_draw_rear reverse (fun l => reverse_Permutation l)
           (snd (Deque.__new__ [7]%nat)) [] 7%nat
           (proj2 (new_represents [7]%nat))).
Defined.

(** ** Monsters *)

Lemma call_health_bounds (c : MonsterCall) (m : Monster.t) :
  0 <= Monster.health m ->
  0 <= Monster.health (snd (call c m)) <= Monster.health m.
Proof.
  destruct m as [nm dmg [h [st]] [pr [est]] act ms].
  destruct c; simpl; unfold_monster; unfold MonsterHealth.get_damaged;
    unfold_monad; simpl; intros Hh; crunch; lia.
Qed.

Lemma call_keeps_identity (c : MonsterCall) (m : Monster.t) :
  Monster.name (snd (call c m)) = Monster.name m /\
  Monster._damage (snd (call c m)) = Monster._damage m.
Proof.
  destruct m as [nm dmg [h [st]] [pr [est]] act ms].
  destruct c; simpl; unfold_monster; unfold MonsterHealth.get_damaged;
    unfold_monad; simpl; crunch.
Qed.

(** X5: whatever calls are made on a monster after [Monster.__new__] has
    built it, its health stays between 0 and the health it was created
    with, [is_defeated()] answers [True] exactly at health 0, and its name
    and damage value never change. *)
Theorem monster_health_only_goes_down name damage health eng act m
    (cs : list MonsterCall) :
  Monster.__new__ name damage health eng act = Return m ->
  0 <= Monster.health (after cs m) <= health /\
  (Monster.is_defeated (after cs m) = true <-> Monster.health (after cs m) = 0) /\
  Monster.name (after cs m) = name /\
  Monster._damage (after cs m) = damage.
Proof.
  intros Hnew.
  assert (Hn : Monster.name m = name /\ Monster._damage m = damage).
  { unfold Monster.__new__ in Hnew.
    destruct (MonsterHealth.__init__ _ _); by simplify_eq. }
  apply Monster_new_health in Hnew as (Hh & <- & _).
  assert (H : 0 <= Monster.health (after cs m) <= Monster.health m /\
              Monster.name (after cs m) = Monster.name m /\
              Monster._damage (after cs m) = Monster._damage m).
  { clear Hn. revert m Hh. induction cs as [|c cs IH]; intros m Hh; simpl.
    - split; [lia|done].
    - pose proof (call_health_bounds c m Hh) as Hb.
      pose proof (call_keeps_identity c m) as [Hnm Hdm].
      destruct (IH (snd (call c m))) as (Hb' & Hn' & Hd'); [lia|].
      rewrite Hn', Hd', Hnm, Hdm. split; [lia|done]. }
  destruct H as (Hb & Hnm & Hdm), Hn as [Hn Hd].
  split; [done|]. split; [|by rewrite Hnm, Hdm].
  unfold Monster.is_defeated, MonsterHealth.check_health_status,
    Monster.health, MonsterHealth.health in *.
  destruct (0 <? _) eqn:E; simpl;
    [apply Z.ltb_lt in E|apply Z.ltb_ge in E]; split; intros; (done || lia).
Qed.

Lemma monster_health_only_goes_down_witness :
  0 <= Monster.health
         (after [CallEngage 0; CallTakeDamage 2; CallExhaust; CallTakeDamage 1]
            (ghoul Ready 3)) <= 3 /\
  (Monster.is_defeated
     (after [CallEngage 0; CallTakeDamage 2; CallExhaust; CallTakeDamage 1]
        (ghoul Ready 3)) = true <->
   Monster.health
     (after [CallEngage 0; CallTakeDamage 2; CallExhaust; CallTakeDamage 1]
        (ghoul Ready 3)) = 0) /\
  Monster.name
    (after [CallEngage 0; CallTakeDamage 2; CallExhaust; CallTakeDamage 1]
       (ghoul Ready 3)) = "ghoul" /\
  Monster._damage
    (after [CallEngage 0; CallTakeDamage 2; CallExhaust; CallTakeDamage 1]
       (ghoul Ready 3)) = 1.
Proof.
  exact (monster_health_only_goes_down "ghoul" 1 3
           (MonsterEngagement.__init__ (MonsterState.__init__ Ready) None)
           ghoul_activation (ghoul Ready 3)
           [CallEngage 0; CallTakeDamage 2; CallExhaust; CallTakeDamage 1]
           eq_refl).
Defined.

(** X6: once a monster built by [Monster.__new__] has a prey, no call takes
    the prey away again: [exhaust] and [ready] leave it, [engage] replaces
    it, and [disengage], the only method that would clear it, never gets
    past the guard of the engagement component. *)
Theorem prey_is_never_cleared name damage health eng act m
    (cs : list MonsterCall) (c : MonsterCall) :
  Monster.__new__ name damage health eng act = Return m ->
  Monster.prey (after cs m) <> None ->
  Monster.prey (snd (call c (after cs m))) <> None.
Proof.
  intros Hnew Hprey.
  apply Monster_new_health in Hnew as (_ & _ & Hst).
  assert (Hinv : Monster.state (after cs m) = Engaged ->
                 engagement_stage (after cs m) = Ready).
  { apply after_engaged_invariant. by rewrite Hst. }
  revert Hprey Hinv. generalize (after cs m). clear.
  intros [nm dmg [h [st]] [pr [est]] act ms].
  destruct c; simpl; unfold_monster; unfold MonsterHealth.get_damaged;
    unfold_monad; simpl; intros Hp Hinv; crunch.
  destruct st, est; try done; by specialize (Hinv eq_refl).
Qed.

Lemma prey_is_never_cleared_witness :
  Monster.prey (snd (call CallDisengage
                       (after [CallEngage 0] (ghoul Ready 3)))) <> None.
Proof.
  refine (prey_is_never_cleared "ghoul" 1 3
            (MonsterEngagement.__init__ (MonsterState.__init__ Ready) None)
            ghoul_activation (ghoul Ready 3) [CallEngage 0] CallDisengage
            eq_refl _).
  by vm_compute.
Defined.

(** X7: damage that reaches the health of a living monster (the amount,
    doubled when the monster is exhausted) leaves it at health 0 and
    defeated, in the stage it was in; from then on [take_damage] with any
    non-negative amount raises [AttributeError] and changes nothing. *)
Theorem lethal_damage_defeats (m : Monster.t) (amount again : Z) :
  0 < Monster.health m ->
  Monster.health m <= damage_dealt m amount ->
  0 <= again ->
  let m' := snd (Monster.take_damage amount m) in
  fst (Monster.take_damage amount m) = Return tt /\
  Monster.health m' = 0 /\
  Monster.is_defeated m' = true /\
  Monster.state m' = Monster.state m /\
  Monster.take_damage again m' =
    (Raise (AttributeError "Monster has already been defeated"), m').
Proof.
  destruct m as [nm dmg [h [st]] eng act ms].
  unfold damage_dealt, Monster.take_damage, Monster.on_health,
    MonsterHealth.get_damaged, Monster.is_defeated,
    MonsterHealth.check_health_status, Monster.state, Monster.health,
    MonsterHealth.health, MonsterState.stage; unfold_monad; simpl.
  intros Hh Hd Ha.
  assert (Hamt : 0 < amount) by (destruct (decide (st = Exhausted)); lia).
  destruct (amount <? 0) eqn:E1; [apply Z.ltb_lt in E1; lia|].
  destruct (h <=? 0) eqn:E2; [apply Z.leb_le in E2; lia|].
  destruct (again <? 0) eqn:E3; [apply Z.ltb_lt in E3; lia|].
  destruct (decide (st = Exhausted)); simpl.
  - destruct (h - amount * 2 <? 0) eqn:E4; simpl;
      [|apply Z.ltb_ge in E4; assert (h - amount * 2 = 0) as -> by lia];
      done.
  - destruct (h - amount <? 0) eqn:E4; simpl;
      [|apply Z.ltb_ge in E4; assert (h - amount = 0) as -> by lia];
      done.
Qed.

Lemma lethal_damage_defeats_witness :
  fst (Monster.take_damage 2 (ghoul Exhausted 3)) = Return tt /\
  Monster.health (snd (Monster.take_damage 2 (ghoul Exhausted 3))) = 0 /\
  Monster.is_defeated (snd (Monster.take_damage 2 (ghoul Exhausted 3))) = true /\
  Monster.state (snd (Monster.take_damage 2 (ghoul Exhausted 3)))
    = Monster.state (ghoul Exhausted 3) /\
  Monster.take_damage 1 (snd (Monster.take_damage 2 (ghoul Exhausted 3))) =
    (Raise (AttributeError "Monster has already been defeated"),
     snd (Monster.take_damage 2 (ghoul Exhausted 3))).
Proof.
  apply (lethal_damage_defeats (ghoul Exhausted 3) 2 1); by vm_compute.
Defined.

(** X8: a monster created with an engagement component in stage [ready]
    goes through [engage], [exhaust], [ready] and [engage] again without an
    error: the stages are engaged, exhausted, ready, engaged; the prey set
    by the first [engage] is kept through [exhaust] and [ready] and replaced
    by the second [engage]; the health is untouched. *)
Theorem engage_exhaust_ready_engage name damage health prey0 act m
    (first second : nat) :
  Monster.__new__ name damage health
    (MonsterEngagement.__init__ (MonsterState.__init__ Ready) prey0) act
    = Return m ->
  let m1 := snd (Monster.engage first m) in
  let m2 := snd (Monster.exhaust m1) in
  let m3 := snd (Monster.ready m2) in
  let m4 := snd (Monster.engage second m3) in
  fst (Monster.engage first m) = Return tt /\
  fst (Monster.exhaust m1) = Return tt /\
  fst (Monster.ready m2) = Return tt /\
  fst (Monster.engage second m3) = Return tt /\
  Monster.state m1 = Engaged /\ Monster.prey m1 = Some first /\
  Monster.state m2 = Exhausted /\ Monster.prey m2 = Some first /\
  Monster.state m3 = Ready /\ Monster.prey m3 = Some first /\
  Monster.state m4 = Engaged /\ Monster.prey m4 = Some second /\
  Monster.health m4 = health.
Proof.
  unfold Monster.__new__, MonsterHealth.__init__,
    MonsterHealth._validate_health.
  destruct (health <? 0); [done|]. intros [= <-]. by cbn.
Qed.

Lemma engage_exhaust_ready_engage_witness :
  let m := ghoul Ready 3 in
  let m1 := snd (Monster.engage 4 m) in
  let m2 := snd (Monster.exhaust m1) in
  let m3 := snd (Monster.ready m2) in
  let m4 := snd (Monster.engage 5 m3) in
  fst (Monster.engage 4 m) = Return tt /\
  fst (Monster.exhaust m1) = Return tt /\
  fst (Monster.ready m2) = Return tt /\
  fst (Monster.engage 5 m3) = Return tt /\
  Monster.state m1 = Engaged /\ Monster.prey m1 = Some 4%nat /\
  Monster.state m2 = Exhausted /\ Monster.prey m2 = Some 4%nat /\
  Monster.state m3 = Ready /\ Monster.prey m3 = Some 4%nat /\
  Monster.state m4 = Engaged /\ Monster.prey m4 = Some 5%nat /\
  Monster.health m4 = 3.
Proof.
  exact (engage_exhaust_ready_engage "ghoul" 1 3 None ghoul_activation
           (ghoul Ready 3) 4 5 eq_refl).
Defined.

(** ** Investigator status *)

Ltac unfold_status :=
  unfold InvestigatorStatus.take_damage, InvestigatorStatus.lose_sanity,
    InvestigatorStatus.heal, InvestigatorStatus.restore_sanity,
    InvestigatorStatus.set_health, InvestigatorStatus.set_sanity,
    InvestigatorStatus.__set_health_sanity, InvestigatorStatus.__new__,
    InvestigatorStatus._validate_args, InvestigatorStatus.tuple_truthy,
    InvestigatorStatus.health, InvestigatorStatus.sanity,
    InvestigatorStatus.with_health, InvestigatorStatus.with_sanity in *.

(** X9: a status whose health or sanity is negative is stuck:
    [take_damage], [lose_sanity], [heal] and [restore_sanity] all raise
    [NegativeValueError] carrying the negative value (the health first) and
    change nothing, whatever the amount; and each setter, given a valid new
    value, still raises when the other attribute is the negative one. *)
Theorem negative_status_is_stuck (s : InvestigatorStatus.t) (amount : Z) :
  InvestigatorStatus.health s < 0 \/ InvestigatorStatus.sanity s < 0 ->
  let e := NegativeValueError
             (if InvestigatorStatus.health s <? 0
              then InvestigatorStatus.health s
              else InvestigatorStatus.sanity s) in
  InvestigatorStatus.take_damage amount s = (Raise e, s) /\
  InvestigatorStatus.lose_sanity amount s = (Raise e, s) /\
  InvestigatorStatus.heal amount s = (Raise e, s) /\
  InvestigatorStatus.restore_sanity amount s = (Raise e, s) /\
  (InvestigatorStatus.sanity s < 0 -> 0 <= amount ->
     InvestigatorStatus.set_health amount s =
       (Raise (NegativeValueError (InvestigatorStatus.sanity s)), s)) /\
  (InvestigatorStatus.health s < 0 -> 0 <= amount ->
     InvestigatorStatus.set_sanity amount s =
       (Raise (NegativeValueError (InvestigatorStatus.health s)), s)).
Proof.
  destruct s as [h sn d]. unfold_status; unfold_monad; simpl.
  intros Hneg.
  assert (Hsh : sn < 0 -> 0 <= amount ->
    (if amount <? 0 then Raise (NegativeValueError amount)
     else if sn <? 0 then Raise (NegativeValueError sn)
     else Return (amount, sn)) = Raise (NegativeValueError sn)).
  { intros H1 H2. apply Z.ltb_lt in H1 as ->.
    by destruct (amount <? 0) eqn:E; [apply Z.ltb_lt in E; lia|]. }
  destruct (h <? 0) eqn:E1.
  - repeat split; try done. intros H1 H2. by rewrite Hsh.
  - apply Z.ltb_ge in E1.
    destruct (sn <? 0) eqn:E2; [|apply Z.ltb_ge in E2; lia].
    repeat split; try done; [|lia]. intros H1 H2. by rewrite Hsh.
Qed.

Lemma negative_status_is_stuck_witness :
  InvestigatorStatus.take_damage 1 (status (-2) 3)
    = (Raise (NegativeValueError (-2)), status (-2) 3) /\
  InvestigatorStatus.lose_sanity 1 (status (-2) 3)
    = (Raise (NegativeValueError (-2)), status (-2) 3) /\
  InvestigatorStatus.heal 1 (status (-2) 3)
    = (Raise (NegativeValueError (-2)), status (-2) 3) /\
  InvestigatorStatus.restore_sanity 1 (status (-2) 3)
    = (Raise (NegativeValueError (-2)), status (-2) 3).
Proof.
  assert (H : InvestigatorStatus.health (status (-2) 3) < 0 \/
              InvestigatorStatus.sanity (status (-2) 3) < 0)
    by (left; by vm_compute).
  pose proof (negative_status_is_stuck (status (-2) 3) 1 H)
    as (H1 & H2 & H3 & H4 & _).
  exact (conj H1 (conj H2 (conj H3 H4))).
Defined.

(** X10: on a status with non-negative health and sanity, [heal] and
    [restore_sanity] add the amount as it is, with no upper bound;
    [take_damage] followed by [heal] of the same amount gives the status
    back when the amount does not exceed the health (likewise [lose_sanity]
    and [restore_sanity]), and when it does, the health is left negative and
    the [heal] raises. *)
Theorem heal_undoes_damage (s : InvestigatorStatus.t) (amount : Z) :
  0 <= InvestigatorStatus.health s -> 0 <= InvestigatorStatus.sanity s ->
  0 <= amount ->
  (amount <= InvestigatorStatus.health s ->
     (InvestigatorStatus.take_damage amount ;;; InvestigatorStatus.heal amount)%py s
       = (Return tt, s)) /\
  (amount <= InvestigatorStatus.sanity s ->
     (InvestigatorStatus.lose_sanity amount ;;;
      InvestigatorStatus.restore_sanity amount)%py s = (Return tt, s)) /\
  (InvestigatorStatus.health s < amount ->
     (InvestigatorStatus.take_damage amount ;;; InvestigatorStatus.heal amount)%py s
       = (Raise (NegativeValueError (InvestigatorStatus.health s - amount)),
          InvestigatorStatus.with_health (InvestigatorStatus.health s - amount) s)) /\
  InvestigatorStatus.heal amount s =
    (Return tt,
     InvestigatorStatus.with_health (InvestigatorStatus.health s + amount) s) /\
  InvestigatorStatus.restore_sanity amount s =
    (Return tt,
     InvestigatorStatus.with_sanity (InvestigatorStatus.sanity s + amount) s).
Proof.
  destruct s as [h sn d]. unfold_status; unfold_monad; simpl.
  intros Hh Hs Ha.
  destruct (h <? 0) eqn:E1; [apply Z.ltb_lt in E1; lia|].
  destruct (sn <? 0) eqn:E2; [apply Z.ltb_lt in E2; lia|].
  destruct (amount <? 0) eqn:E3; [apply Z.ltb_lt in E3; lia|]. simpl.
  repeat split.
  - intros Hle. destruct (h - amount <? 0) eqn:E4; [apply Z.ltb_lt in E4; lia|].
    rewrite E2. simpl. do 2 f_equal. lia.
  - intros Hle. rewrite E1.
    destruct (sn - amount <? 0) eqn:E4; [apply Z.ltb_lt in E4; lia|].
    simpl. do 2 f_equal. lia.
  - intros Hlt. destruct (h - amount <? 0) eqn:E4; [done|].
    apply Z.ltb_ge in E4. lia.
Qed.

Lemma heal_undoes_damage_witness :
  (2 <= InvestigatorStatus.health (status 3 3) ->
     (InvestigatorStatus.take_damage 2 ;;; InvestigatorStatus.heal 2)%py
       (status 3 3) = (Return tt, status 3 3)) /\
  (2 <= InvestigatorStatus.sanity (status 3 3) ->
     (InvestigatorStatus.lose_sanity 2 ;;;
      InvestigatorStatus.restore_sanity 2)%py (status 3 3)
       = (Return tt, status 3 3)) /\
  (InvestigatorStatus.health (status 3 3) < 2 ->
     (InvestigatorStatus.take_damage 2 ;;; InvestigatorStatus.heal 2)%py
       (status 3 3)
       = (Raise (NegativeValueError (InvestigatorStatus.health (status 3 3) - 2)),
          InvestigatorStatus.with_health
            (InvestigatorStatus.health (status 3 3) - 2) (status 3 3))) /\
  InvestigatorStatus.heal 2 (status 3 3) =
    (Return tt,
     InvestigatorStatus.with_health
       (InvestigatorStatus.health (status 3 3) + 2) (status 3 3)) /\
  InvestigatorStatus.restore_sanity 2 (status 3 3) =
    (Return tt,
     InvestigatorStatus.with_sanity
       (InvestigatorStatus.sanity (status 3 3) + 2) (status 3 3)).
Proof.
  apply (heal_undoes_damage (status 3 3) 2); by vm_compute.
Defined.


(** ** Tokens *)

Lemma run_calls_invariant {S A C} (call : C -> M S A) (I : S -> Prop)
    (ok : C -> Prop) (cs : list C) (s : S) :
  (forall c s, ok c -> I s -> I (snd (call c s))) ->
  Forall ok cs -> I s -> I (snd (run_calls call cs s)).
Proof.
  intros Hstep Hcs. revert s.
  induction Hcs as [|c cs Hc _ IH]; intros s Hs; [done|].
  simpl. specialize (Hstep c s Hc Hs).
  destruct (call c s) as [o s']; simpl in *.
  specialize (IH s' Hstep).
  by destruct (run_calls call cs s').
Qed.

Lemma token_call_keeps_counters (c : TokenCall) (d : gmap string Z) :
  adds_no_debt c ->
  (forall k v, d !! k = Some v -> 0 <= v) ->
  dom (snd (token_call c d)) = dom d /\
  (forall k v, snd (token_call c d) !! k = Some v -> 0 <= v).
Proof.
  intros Hc Hd.
  destruct c as [k a|k a|]; simpl in *.
  - unfold InvestigatorTokens.add_token,
      InvestigatorTokens._validate_operations.
    unfold_monad. destruct (d !! k) as [v|] eqn:E; simpl; [|done].
    rewrite E. simpl. split.
    + rewrite dom_insert_L. apply elem_of_dom_2 in E.
      apply subseteq_union_1_L. by apply singleton_subseteq_l.
    + intros k' v'. destruct (decide (k' = k)) as [->|Hne].
      * rewrite lookup_insert_eq. intros [= <-]. specialize (Hd _ _ E). lia.
      * rewrite lookup_insert_ne by done. apply Hd.
  - unfold InvestigatorTokens.spend_token,
      InvestigatorTokens._validate_operations.
    unfold_monad. destruct (a <? 0) eqn:Ea; simpl; [done|].
    destruct (d !! k) as [v|] eqn:E; simpl; [|done].
    rewrite E. destruct (v <? a) eqn:Ev; simpl; [done|]. split.
    + rewrite dom_insert_L. apply elem_of_dom_2 in E.
      apply subseteq_union_1_L. by apply singleton_subseteq_l.
    + intros k' v'. destruct (decide (k' = k)) as [->|Hne].
      * rewrite lookup_insert_eq. intros [= <-]. lia.
      * rewrite lookup_insert_ne by done. apply Hd.
  - unfold InvestigatorTokens.reset_tokens. unfold_monad. simpl. split.
    + by rewrite dom_fmap_L.
    + intros k v. rewrite lookup_fmap.
      destruct (d !! k); simpl; [|done]. by intros [= <-].
Qed.

(** X11: whatever calls of [add_token] (with amounts of at least 0),
    [spend_token] and [reset_tokens] are made on the tokens [__init__]
    builds, also ones that raise, the seven counters stay the only keys, no
    counter is negative, and [get_token_count] raises [KeyError] exactly
    for the other names. *)
Theorem token_counters_stay_valid (cs : list TokenCall) :
  Forall adds_no_debt cs ->
  let d := snd (run_calls token_call cs InvestigatorTokens.__init__) in
  dom d = dom InvestigatorTokens.__init__ /\
  (forall token_type count, d !! token_type = Some count -> 0 <= count) /\
  (forall token_type,
     fst (InvestigatorTokens.get_token_count token_type d)
       = Raise (KeyError ("Token type '" +:+ token_type +:+ "' not found")) <->
     token_type ∉ dom InvestigatorTokens.__init__).
Proof.
  intros Hcs d.
  assert (dom d = dom InvestigatorTokens.__init__ /\
          (forall k v, d !! k = Some v -> 0 <= v)) as [Hdom Hpos].
  { subst d.
    apply (run_calls_invariant token_call
             (fun d => dom d = dom InvestigatorTokens.__init__ /\
                       (forall k v, d !! k = Some v -> 0 <= v))
             adds_no_debt); [|done|].
    - intros c s Hc [Hdom Hpos].
      destruct (token_call_keeps_counters c s Hc Hpos) as [H1 H2].
      split; [by rewrite H1|done].
    - split; [done|]. intros k v Hkv.
      unfold InvestigatorTokens.__init__, InvestigatorItems.initial_tokens
        in Hkv.
      repeat (apply lookup_insert_Some in Hkv as [[_ <-]|[_ Hkv]]; [done|]).
      by rewrite lookup_empty in Hkv. }
  split; [done|]. split; [done|].
  intros k. rewrite <- Hdom.
  unfold InvestigatorTokens.get_token_count. unfold_monad.
  rewrite not_elem_of_dom.
  destruct (d !! k); simpl; naive_solver.
Qed.

Lemma token_counters_stay_valid_witness :
  let d := snd (run_calls token_call
                  [CallAddToken "clue_tokens" 2; CallSpendToken "clue_tokens" 5;
                   CallSpendToken "clue_tokens" 1; CallAddToken "gold" 1]
                  InvestigatorTokens.__init__) in
  d !! "clue_tokens" = Some 1 /\
  dom d = dom InvestigatorTokens.__init__.
Proof.
  split; [by vm_compute|].
  refine (proj1 (token_counters_stay_valid _ _)).
  repeat constructor; simpl; lia.
Defined.

(** X12: on a known counter and for an amount of at least 0,
    [spend_token] followed by [add_token] of the same amount restores the
    dictionary when the amount is covered, and so does [add_token] followed
    by [spend_token] on a non-negative counter.  An amount that is not
    covered makes [spend_token] raise [ValueError] and change nothing,
    while [add_token] of the negated amount, which checks no sign, goes
    through and leaves the counter negative. *)
Theorem add_token_undoes_spend_token (d : gmap string Z)
    (token_type : string) (count amount : Z) :
  d !! token_type = Some count -> 0 <= amount ->
  (amount <= count ->
   (InvestigatorTokens.spend_token token_type amount ;;;
    InvestigatorTokens.add_token token_type amount) d = (Return tt, d)) /\
  (0 <= count ->
   (InvestigatorTokens.add_token token_type amount ;;;
    InvestigatorTokens.spend_token token_type amount) d = (Return tt, d)) /\
  (count < amount ->
   InvestigatorTokens.spend_token token_type amount d
     = (Raise (ValueError ("Not enough " +:+ token_type +:+ " to spend")), d)
   /\
   InvestigatorTokens.add_token token_type (- amount) d
     = (Return tt, <[token_type := count - amount]> d)).
Proof.
  intros E Ha.
  unfold InvestigatorTokens.spend_token, InvestigatorTokens.add_token,
    InvestigatorTokens._validate_operations.
  unfold_monad.
  assert (a_nonneg : (amount <? 0) = false) by lia.
  rewrite a_nonneg, E. simpl. rewrite E. simpl.
  split; [|split].
  - intros Hle. assert ((count <? amount) = false) as -> by lia. simpl.
    rewrite lookup_insert_eq. simpl. rewrite lookup_insert_eq.
    rewrite insert_insert_eq. f_equal.
    replace (count - amount + amount) with count by lia.
    by apply insert_id.
  - intros Hc. rewrite lookup_insert_eq. simpl. rewrite lookup_insert_eq.
    assert ((count + amount <? amount) = false) as -> by lia.
    rewrite insert_insert_eq. f_equal.
    replace (count + amount - amount) with count by lia.
    by apply insert_id.
  - intros Hlt. assert ((count <? amount) = true) as -> by lia.
    split; [done|]. repeat f_equal; lia.
Qed.

Lemma add_token_undoes_spend_token_witness :
  (InvestigatorTokens.add_token "clue_tokens" 2 ;;;
   InvestigatorTokens.spend_token "clue_tokens" 2) InvestigatorTokens.__init__
    = (Return tt, InvestigatorTokens.__init__).
Proof.
  refine (proj1 (proj2 (add_token_undoes_spend_token
            InvestigatorTokens.__init__ "clue_tokens" 0 2 _ _)) _);
    first [lia | by vm_compute].
Defined.

(** ** Skills *)

Lemma skill_call_keeps_levels (c : SkillCall) (s : Skill.t) :
  (forall k v, Skill.__skill_levels s !! k = Some v -> 0 <= v) ->
  Skill._name (snd (skill_call c s)) = Skill._name s /\
  dom (Skill.__skill_levels (snd (skill_call c s)))
    = dom (Skill.__skill_levels s) /\
  (forall k v, Skill.__skill_levels (snd (skill_call c s)) !! k = Some v ->
               0 <= v).
Proof.
  intros Hs.
  destruct c as [k a|k a]; simpl;
    unfold Skill.improve, Skill.reduce; unfold_monad;
    destruct (a <=? 0) eqn:Ea; simpl; try done;
    destruct (Skill.__skill_levels s !! k) as [l|] eqn:E; simpl; try done.
  - split; [done|]. split.
    + rewrite dom_insert_L. apply elem_of_dom_2 in E.
      apply subseteq_union_1_L. by apply singleton_subseteq_l.
    + intros k' v'. destruct (decide (k' = k)) as [->|Hne].
      * rewrite lookup_insert_eq. intros [= <-]. specialize (Hs _ _ E). lia.
      * rewrite lookup_insert_ne by done. apply Hs.
  - destruct (l - a <? 0) eqn:El; simpl; [done|].
    split; [done|]. split.
    + rewrite dom_insert_L. apply elem_of_dom_2 in E.
      apply subseteq_union_1_L. by apply singleton_subseteq_l.
    + intros k' v'. destruct (decide (k' = k)) as [->|Hne].
      * rewrite lookup_insert_eq. intros [= <-]. lia.
      * rewrite lookup_insert_ne by done. apply Hs.
Qed.

(** X13: a skill created with a level of at least 0 keeps its name, and
    after any calls of [improve] and [reduce], also ones that raise, [level]
    answers a number of at least 0; it raises, with [KeyError], only for
    [OBSERVATION] on a skill of another name, which has no such entry. *)
Theorem skill_levels_stay_valid (name : SkillName) (level : Z)
    (cs : list SkillCall) (skill : SkillName) :
  0 <= level ->
  let s := snd (run_calls skill_call cs (Skill.__new__ name level)) in
  Skill.name s = name /\
  match Skill.level s skill with
  | Return l => 0 <= l
  | Raise e => e = KeyError "Skill cannot be found." /\
               skill = OBSERVATION /\ name <> OBSERVATION
  end.
Proof.
  intros Hl s.
  pose (I := fun s' : Skill.t =>
    Skill._name s' = name /\
    dom (Skill.__skill_levels s')
      = dom (Skill.__skill_levels (Skill.__new__ name level)) /\
    (forall k v, Skill.__skill_levels s' !! k = Some v -> 0 <= v)).
  assert (I s) as (Hn & Hdom & Hpos).
  { subst s.
    apply (run_calls_invariant skill_call I (fun _ => True)).
    - intros c s' _ (Hn & Hdom & Hpos).
      destruct (skill_call_keeps_levels c s' Hpos) as (H1 & H2 & H3).
      split; [congruence|]. split; [congruence|done].
    - by apply Forall_true.
    - split; [done|]. split; [done|]. intros k v Hkv. simpl in Hkv.
      apply lookup_insert_Some in Hkv as [[_ <-]|[_ Hkv]]; [done|].
      repeat (apply lookup_insert_Some in Hkv as [[_ <-]|[_ Hkv]]; [done|]).
      by rewrite lookup_empty in Hkv. }
  split; [done|].
  unfold Skill.level.
  destruct (Skill.__skill_levels s !! skill) as [l|] eqn:E; [by eapply Hpos|].
  split; [done|].
  apply not_elem_of_dom in E. rewrite Hdom in E. simpl in E.
  rewrite !dom_insert_L, !not_elem_of_union, !not_elem_of_singleton in E.
  destruct E as (E1 & E2 & E3 & E4 & E5 & _).
  by destruct skill.
Qed.

Lemma skill_levels_stay_valid_witness :
  let s := snd (run_calls skill_call
                  [CallImprove LORE 2; CallReduce LORE 5; CallReduce COMBAT 1]
                  (Skill.__new__ COMBAT 1)) in
  Skill.level s LORE = Return 2 /\ Skill.level s COMBAT = Return 0 /\
  Skill.name s = COMBAT.
Proof.
  split; [by vm_compute|]. split; [by vm_compute|].
  refine (proj1 (skill_levels_stay_valid COMBAT 1 _ LORE _)). lia.
Defined.

(** X14: for a positive amount and a skill whose level is known,
    [improve] followed by [reduce] restores the skill when the level is at
    least 0, and [reduce] followed by [improve] when the amount is at most
    the level; a larger amount makes [reduce] raise [NegativeValueError]
    with the difference and change nothing. *)
Theorem reduce_undoes_improve (s : Skill.t) (skill : SkillName)
    (level amount : Z) :
  Skill.level s skill = Return level -> 0 < amount ->
  (0 <= level ->
   (Skill.improve skill amount ;;; Skill.reduce skill amount) s
     = (Return tt, s)) /\
  (amount <= level ->
   (Skill.reduce skill amount ;;; Skill.improve skill amount) s
     = (Return tt, s)) /\
  (level < amount ->
   Skill.reduce skill amount s
     = (Raise (NegativeValueError (level - amount)), s)).
Proof.
  unfold Skill.level, Skill.improve, Skill.reduce. unfold_monad.
  intros E Ha.
  destruct (Skill.__skill_levels s !! skill) as [l|] eqn:El; [|done].
  injection E as ->.
  assert ((amount <=? 0) = false) as -> by lia. simpl.
  rewrite lookup_insert_eq.
  destruct s as [n d]; simpl in *. unfold Skill.with_skill_levels. simpl.
  split; [|split].
  - intros Hl. assert ((level + amount - amount <? 0) = false) as -> by lia.
    rewrite insert_insert_eq.
    replace (level + amount - amount) with level by lia.
    by rewrite (insert_id _ _ _ El).
  - intros Hl. assert ((level - amount <? 0) = false) as -> by lia. simpl.
    rewrite lookup_insert_eq. rewrite insert_insert_eq.
    replace (level - amount + amount) with level by lia.
    by rewrite (insert_id _ _ _ El).
  - intros Hl. by assert ((level - amount <? 0) = true) as -> by lia.
Qed.

Lemma reduce_undoes_improve_witness :
  (Skill.improve LORE 3 ;;; Skill.reduce LORE 3) (Skill.__new__ LORE 2)
    = (Return tt, Skill.__new__ LORE 2).
Proof.
  refine (proj1 (reduce_undoes_improve (Skill.__new__ LORE 2) LORE 2 3 _ _) _);
    first [lia | by vm_compute].
Defined.

(** ** Money *)

(** X15: [add_money] raises both the [money] attribute and the
    ["money_tokens"] counter, [spend_money] lowers only the counter: adding
    a positive amount and spending it again restores the counter and leaves
    [money] raised by the amount. *)
Theorem spend_money_leaves_money (items : InvestigatorItems.t)
    (tokens amount : Z) :
  InvestigatorItems._focus_tokens items !! "money_tokens" = Some tokens ->
  0 <= tokens -> 0 < amount ->
  (InvestigatorItems.add_money amount ;;;
   InvestigatorItems.spend_money amount) items
    = (Return tt,
       InvestigatorItems.with_money (InvestigatorItems.money items + amount)
         items).
Proof.
  intros E Ht Ha.
  unfold InvestigatorItems.add_money, InvestigatorItems.spend_money,
    InvestigatorItems.money.
  unfold_monad.
  assert ((amount <? 0) = false) as -> by lia. simpl.
  rewrite E. simpl. rewrite lookup_insert_eq.
  assert ((tokens + amount =? 0) = false) as -> by lia. simpl.
  assert ((tokens + amount <? amount) = false) as -> by lia.
  f_equal. destruct items as [m sk d]; simpl in *.
  unfold InvestigatorItems.with_focus_tokens, InvestigatorItems.with_money.
  simpl. f_equal. rewrite insert_insert_eq.
  replace (tokens + amount - amount) with tokens by lia.
  by apply insert_id.
Qed.

Lemma spend_money_leaves_money_witness :
  (InvestigatorItems.add_money 3 ;;; InvestigatorItems.spend_money 3)
    (InvestigatorItems.__new__ InvestigatorItems.initial_tokens)
    = (Return tt,
       InvestigatorItems.with_money 3
         (InvestigatorItems.__new__ InvestigatorItems.initial_tokens)).
Proof.
  refine (spend_money_leaves_money
            (InvestigatorItems.__new__ InvestigatorItems.initial_tokens)
            0 3 _ _ _); first [lia | by vm_compute].
Defined.

Lemma trade_money_state (w : World) (inv ally : nat)
    (giver taker : Investigator.t) (tokens money : Z) :
  inv <> ally ->
  investigators w !! inv = Some giver ->
  investigators w !! ally = Some taker ->
  InvestigatorItems._focus_tokens (Investigator._inv_items taker)
    !! "money_tokens" = Some tokens ->
  0 <= money <= InvestigatorItems.money (Investigator._inv_items giver) ->
  Trade._trade_money inv ally money w
    = (Return tt,
       with_investigators
         (<[ally := Investigator.with_inv_items
                      (InvestigatorItems.with_focus_tokens
                         (<["money_tokens" := tokens + money]>
                            (InvestigatorItems._focus_tokens
                               (Investigator._inv_items taker)))
                         (InvestigatorItems.with_money
                            (InvestigatorItems._money
                               (Investigator._inv_items taker) + money)
                            (Investigator._inv_items taker)))
                      taker]>
            (<[inv := Investigator.with_inv_items
                        (InvestigatorItems.with_money money
                           (Investigator._inv_items giver)) giver]>
               (investigators w))) w).
Proof.
  intros Hne Hg Ht Htok Hm.
  unfold Trade._trade_money, Trade.on_items, on_investigator, on_object,
    deref, InvestigatorItems.set_money, InvestigatorItems.add_money,
    InvestigatorItems.money in *.
  unfold_monad. rewrite Hg.
  assert ((InvestigatorItems._money (Investigator._inv_items giver) <? money)
          = false) as -> by lia.
  assert ((money <? 0) = false) as -> by lia.
  simpl. rewrite !Hg. simpl. rewrite lookup_insert_ne by done. rewrite Ht.
  rewrite Htok. simpl. f_equal.
  unfold with_investigators. simpl. f_equal. f_equal. f_equal.
  unfold Investigator.with_inv_items. simpl. f_equal.
  unfold InvestigatorItems.with_money. simpl. f_equal. lia.
Qed.

(** X16: [_trade_money] between two distinct investigators, for an amount
    between 0 and the giver's money, returns and leaves the giver with the
    amount traded as money (the setter of [money] subtracts what it is
    given, here the difference), the giver's ["money_tokens"] unchanged,
    and the taker with the amount added to both. *)
Theorem trade_money_leaves_the_amount_traded (w : World) (inv ally : nat)
    (giver taker : Investigator.t) (tokens money : Z) :
  inv <> ally ->
  investigators w !! inv = Some giver ->
  investigators w !! ally = Some taker ->
  money_of w ally = Some tokens ->
  0 <= money <= InvestigatorItems.money (Investigator._inv_items giver) ->
  let w' := snd (Trade._trade_money inv ally money w) in
  fst (Trade._trade_money inv ally money w) = Return tt /\
  purse_of w' inv = Some money /\
  money_of w' inv = money_of w inv /\
  purse_of w' ally
    = Some (InvestigatorItems.money (Investigator._inv_items taker) + money) /\
  money_of w' ally = Some (tokens + money).
Proof.
  intros Hne Hg Ht Htok Hm.
  unfold money_of in Htok. rewrite Ht in Htok.
  rewrite (trade_money_state w inv ally giver taker tokens money) by done.
  unfold money_of, purse_of. simpl.
  rewrite lookup_insert_ne by done. rewrite !lookup_insert_eq. rewrite Hg.
  simpl. by rewrite lookup_insert_eq.
Qed.

Lemma trade_money_leaves_the_amount_traded_witness :
  let rich := Investigator.__new__
                (InvestigatorItems.with_money 5
                   (InvestigatorItems.__new__ InvestigatorItems.initial_tokens))
                (status 3 3) 0%nat 0%nat in
  let poor := Investigator.__new__
                (InvestigatorItems.__new__ InvestigatorItems.initial_tokens)
                (status 3 3) 0%nat 0%nat in
  let w := with_investigators (<[0%nat := rich]> (<[1%nat := poor]> ∅))
             (board_before_combat {| Random.stream := fun _ => 0;
                                     Random.cursor := 0 |}) in
  purse_of w 0%nat = Some 5 /\
  purse_of (snd (Trade._trade_money 0%nat 1%nat 0 w)) 0%nat = Some 0.
Proof.
  intros rich poor w. split; [by vm_compute|].
  refine (proj1 (proj2 (trade_money_leaves_the_amount_traded
            w 0%nat 1%nat rich poor 0 0 _ _ _ _ _)));
    first [lia | by vm_compute].
Defined.

(** ** Partial orders *)
Section PartialOrderMore.
Context {NodeT : Type} `{EqDecision NodeT}.

Lemma NoDup_set_add {A} `{EqDecision A} (x : A) (s : list A) :
  NoDup s -> NoDup (set_add x s).
Proof.
  intros Hs. unfold set_add. destruct (decide (x ∈ s)); [done|].
  apply NoDup_app. split; [done|]. split; [|apply NoDup_singleton].
  intros y Hy Hy'. apply list_elem_of_singleton in Hy'. by subst.
Qed.

Lemma acyclic_antisymmetric (edges : list (NodeT * NodeT)) (x y : NodeT) :
  acyclic edges -> reaches edges x y -> reaches edges y x -> x = y.
Proof.
  intros Hac Hxy Hyx. destruct Hxy as [x|x x1 y Hx Hxy]; [done|].
  exfalso. apply (Hac x x1 Hx). by eapply reaches_trans.
Qed.

Lemma partial_order_call_well_formed (g : DiGraph.t NodeT)
    (c : GraphCall NodeT) :
  well_formed g -> well_formed (partial_order_call g c).
Proof.
  intros (Hac & Hends & Hn & He). destruct c as [node|tail head]; simpl.
  - split; [done|]. split; [|split; [by apply NoDup_set_add|done]].
    intros x y Hxy. destruct (Hends x y Hxy) as [Hx Hy].
    unfold DiGraph.nodes. simpl. rewrite !elem_of_set_add. auto.
  - split; [by apply graph_after_acyclic|].
    unfold graph_after.
    destruct (PartialOrder.add_edge tail head g) as [[[u|e] g']|] eqn:E;
      [|by rewrite (add_edge_raise_unchanged _ _ _ _ _ E)|done].
    apply add_edge_return in E as (_ & -> & ->).
    split; [|split; by repeat apply NoDup_set_add].
    intros x y Hxy. rewrite !elem_of_set_add.
    apply elem_of_set_add in Hxy as [[= -> ->]|Hxy]; [auto|].
    destruct (Hends x y Hxy). auto.
Qed.

(** X17: whatever calls of [add_node] and [add_edge] are made on a new
    [PartialOrder], also ones that raise, the graph left is a partial
    order: two nodes that reach each other are the same node; no edge is a
    loop, both ends of every edge are among the nodes, and neither the
    nodes nor the edges hold a duplicate. *)
Theorem partial_order_is_antisymmetric (calls : list (GraphCall NodeT)) :
  let g := foldl partial_order_call DiGraph.__new__ calls in
  (forall x y, reaches (DiGraph.edges g) x y ->
               reaches (DiGraph.edges g) y x -> x = y) /\
  (forall x y, (x, y) ∈ DiGraph.edges g ->
               x <> y /\ x ∈ DiGraph.nodes g /\ y ∈ DiGraph.nodes g) /\
  NoDup (DiGraph.nodes g) /\ NoDup (DiGraph.edges g).
Proof.
  intros g.
  assert (well_formed g) as (Hac & Hends & Hn & He).
  { subst g. assert (H0 : well_formed (@DiGraph.__new__ NodeT)).
    { split; [|split; [|split; constructor]];
        intros x y Hxy; by apply not_elem_of_nil in Hxy. }
    revert H0. generalize (@DiGraph.__new__ NodeT).
    induction calls as [|c calls IH]; intros g Hg; [done|].
    simpl. apply IH. by apply partial_order_call_well_formed. }
  split; [intros x y; by apply acyclic_antisymmetric|].
  split; [|done].
  intros x y Hxy. split; [|by apply Hends].
  intros ->. apply (Hac y y Hxy). constructor.
Qed.

(** *** Forests *)

Lemma NoDup_neighbors (edges : list (NodeT * NodeT)) (node : NodeT) :
  NoDup edges -> NoDup (PartialOrder.neighbors edges node).
Proof.
  intros He. unfold PartialOrder.neighbors.
  apply NoDup_fmap_2_strong; [|by apply NoDup_filter].
  intros [a b] [a' b'] Ha Ha' Heq.
  apply list_elem_of_filter in Ha as [Ha _].
  apply list_elem_of_filter in Ha' as [Ha' _]. simpl in *. congruence.
Qed.

(** On a forest the search never meets a node twice. *)
Lemma search_forest (fuel : nat) (edges : list (NodeT * NodeT))
    (tail head : NodeT) (visited stack : list NodeT) (e : PyExc) :
  NoDup edges -> acyclic edges -> forest edges ->
  NoDup (stack ++ visited) ->
  (forall c, c ∈ stack ++ visited ->
     c = head \/ exists p, p ∈ visited /\ (p, c) ∈ edges) ->
  (forall c, c ∈ stack ++ visited -> reaches edges head c) ->
  PartialOrder.search fuel edges tail visited stack <> Some (Raise e).
Proof.
  intros He Hac Hf. revert visited stack.
  induction fuel as [|fuel IH]; intros visited stack Hnd Hpar Hreach; [done|].
  simpl. destruct stack as [|node stack']; [done|].
  destruct (decide (node = tail)); [done|].
  simpl in Hnd. apply NoDup_cons in Hnd as [Hnode Hnd].
  destruct (decide (node ∈ visited)) as [Hin|Hout].
  { exfalso. apply Hnode. apply elem_of_app. by right. }
  assert (Hrn : reaches edges head node) by (apply Hreach; left).
  assert (Hfresh : forall c, (node, c) ∈ edges ->
                     c <> node /\ c ∉ stack' ++ visited).
  { intros c Hc. split.
    - intros ->. apply (Hac node node Hc). constructor.
    - intros Hin. destruct (Hpar c) as [->|(p & Hp & Hpc)]; [by right| |].
      + by apply (Hac node head Hc).
      + assert (node = p) as -> by (by eapply Hf). done. }
  apply IH.
  - rewrite <- app_assoc. apply NoDup_app. split; [|split].
    + rewrite reverse_Permutation. by apply NoDup_neighbors.
    + intros c Hc Hc'. rewrite elem_of_reverse in Hc.
      apply elem_of_neighbors in Hc. destruct (Hfresh c Hc) as [Hne Hnot].
      apply elem_of_app in Hc' as [Hc'|Hc'].
      * apply Hnot. apply elem_of_app. by left.
      * apply elem_of_cons in Hc' as [->|Hc']; [done|].
        apply Hnot. apply elem_of_app. by right.
    + apply NoDup_app in Hnd as (Hs & Hdis & Hv).
      apply NoDup_app. split; [done|]. split; [|by constructor].
      intros c Hc Hc'. apply elem_of_cons in Hc' as [->|Hc'].
      * apply Hnode. apply elem_of_app. by left.
      * by apply (Hdis c).
  - intros c Hc. rewrite <- app_assoc in Hc.
    apply elem_of_app in Hc as [Hc|Hc].
    + right. exists node. split; [left|].
      rewrite elem_of_reverse in Hc. by apply elem_of_neighbors in Hc.
    + assert (Hc' : c ∈ node :: stack' ++ visited).
      { apply elem_of_app in Hc as [Hc|Hc].
        - right. apply elem_of_app. by left.
        - apply elem_of_cons in Hc as [->|Hc]; [left|].
          right. apply elem_of_app. by right. }
      destruct (Hpar c Hc') as [->|(p & Hp & Hpc)]; [by left|].
      right. exists p. split; [by right|done].
  - intros c Hc. rewrite <- app_assoc in Hc.
    apply elem_of_app in Hc as [Hc|Hc].
    + rewrite elem_of_reverse in Hc. apply elem_of_neighbors in Hc.
      eapply reaches_trans; [exact Hrn|].
      eapply reaches_step; [exact Hc|constructor].
    + apply Hreach. apply elem_of_app in Hc as [Hc|Hc].
      * right. apply elem_of_app. by left.
      * apply elem_of_cons in Hc as [->|Hc]; [left|].
        right. apply elem_of_app. by right.
Qed.

(** A search that answers [True] has popped the tail, which the head
    reaches. *)
Lemma search_true_sound (fuel : nat) (edges : list (NodeT * NodeT))
    (tail head : NodeT) (visited stack : list NodeT) :
  (forall c, c ∈ stack -> reaches edges head c) ->
  PartialOrder.search fuel edges tail visited stack = Some (Return true) ->
  reaches edges head tail.
Proof.
  revert visited stack.
  induction fuel as [|fuel IH]; intros visited stack Hreach; [done|].
  simpl. destruct stack as [|node stack']; [done|].
  destruct (decide (node = tail)) as [->|Hne]; [intros _; apply Hreach; left|].
  destruct (decide (node ∈ visited)); [done|].
  apply IH. intros c Hc. apply elem_of_app in Hc as [Hc|Hc].
  - rewrite elem_of_reverse in Hc. apply elem_of_neighbors in Hc.
    eapply reaches_trans; [apply Hreach; left|].
    eapply reaches_step; [exact Hc|constructor].
  - apply Hreach. by right.
Qed.

(** X18: on a forest (an acyclic graph in which no node has two edges
    coming in) [add_edge] does what its docstring says: it raises
    [ValueError] and changes nothing when the head reaches the tail, and
    inserts the edge otherwise; the search never meets a node twice
    there. *)
Theorem add_edge_on_a_forest (g : DiGraph.t NodeT) (tail head : NodeT) :
  NoDup (DiGraph.edges g) -> acyclic (DiGraph.edges g) ->
  forest (DiGraph.edges g) ->
  (reaches (DiGraph.edges g) head tail ->
   PartialOrder.add_edge tail head g =
     Some (Raise (ValueError
       "Adding this edge creates a cycle, which is not allowed in a partial order."),
       g)) /\
  (~ reaches (DiGraph.edges g) head tail ->
   PartialOrder.add_edge tail head g = Some (DiGraph.add_edge tail head g)).
Proof.
  intros He Hac Hf.
  assert (Hno : forall e, PartialOrder._creates_cycle g tail head
                          <> Some (Raise e)).
  { intros e. unfold PartialOrder._creates_cycle.
    apply (search_forest _ _ tail head); try done.
    - simpl. apply NoDup_singleton.
    - intros c Hc. left. simpl in Hc. by apply list_elem_of_singleton in Hc.
    - intros c Hc. simpl in Hc. apply list_elem_of_singleton in Hc as ->.
      constructor. }
  unfold PartialOrder.add_edge.
  destruct (creates_cycle_total g tail head) as [[[]|e] Hres];
    rewrite Hres; [| |by destruct (Hno e)].
  - split; [done|]. intros Hnot. destruct Hnot.
    unfold PartialOrder._creates_cycle in Hres.
    apply (search_true_sound _ _ tail head) in Hres; [done|].
    intros c Hc. apply list_elem_of_singleton in Hc as ->. constructor.
  - split; [|done]. intros Hreach.
    by apply creates_cycle_false_sound in Hres.
Qed.

End PartialOrderMore.

Lemma add_edge_on_a_forest_witness :
  PartialOrder.add_edge 1%nat 2%nat
    {| DiGraph._nodes := [0; 1]%nat; DiGraph._edges := [(0, 1)]%nat |}
  = Some (Return tt,
          {| DiGraph._nodes := [0; 1; 2]%nat;
             DiGraph._edges := [(0, 1); (1, 2)]%nat |}).
Proof.
  refine (proj2 (add_edge_on_a_forest
            {| DiGraph._nodes := [0; 1]%nat;
               DiGraph._edges := [(0, 1)]%nat |} 1%nat 2%nat _ _ _) _);
    simpl.
  - apply NoDup_singleton.
  - intros x y Hxy Hr. apply list_elem_of_singleton in Hxy as [= -> ->].
    inversion Hr as [|? y ? Hy]; subst.
    by apply list_elem_of_singleton in Hy.
  - intros x y z Hx Hy. apply list_elem_of_singleton in Hx.
    apply list_elem_of_singleton in Hy. congruence.
  - intros Hr. inversion Hr as [|? y ? Hy]; subst.
    by apply list_elem_of_singleton in Hy.
Defined.


(** ** The Mythos cup *)

Lemma list_pop_snoc {A} (l : list A) (x : A) :
  list_pop (l ++ [x]) = Some (x, l).
Proof.
  unfold list_pop. rewrite reverse_app. simpl. by rewrite reverse_involutive.
Qed.

Lemma on_cup_get (cups : gmap nat MythosCup.t) (a : nat) (c : MythosCup.t) :
  cups !! a = Some c -> MythosCup.on_cup a get cups = (Return c, cups).
Proof.
  intros E. unfold MythosCup.on_cup, get. rewrite E. by rewrite insert_id.
Qed.

Lemma on_cup_draw (cups : gmap nat MythosCup.t) (a : nat) (c : MythosCup.t)
    (ts : list string) (t : string) :
  cups !! a = Some c -> MythosCup._tokens c = ts ++ [t] ->
  MythosCup.on_cup a MythosCup.draw_token cups
    = (Return t, <[a := MythosCup.with_tokens ts c]> cups).
Proof.
  intros E Ht. unfold MythosCup.on_cup, MythosCup.draw_token,
    MythosCup.__size__, MythosCup.tokens.
  unfold_monad. rewrite E, Ht, list_pop_snoc.
  rewrite length_app. simpl.
  destruct (Z.of_nat (length ts + 1) =? 0) eqn:H0; [|done].
  apply Z.eqb_eq in H0. lia.
Qed.

(** A command that is no [Replenish] raises [NotImplementedError] from the
    method of its cup and leaves the cups as they are. *)
Lemma execute_raises (cups : gmap nat MythosCup.t)
    (command : MythosCup.Mythos_CMD) :
  replenishes command = false ->
  (forall a, cup_of command = Some a -> is_Some (cups !! a)) ->
  MythosCup.execute command cups = (Raise NotImplementedError, cups).
Proof.
  intros Hc Hcup.
  destruct command as [cup|cup|cup|cup|cup|cup|cup|]; try done; simpl;
    destruct (Hcup cup eq_refl) as [c E];
    unfold MythosCup.on_cup, MythosCup.spread_doom, MythosCup.spawn_monster,
      MythosCup.read_headline, MythosCup.spawn_clue, MythosCup.gate_burst,
      MythosCup.reckoning, raise;
    rewrite E; simpl; by rewrite insert_id.
Qed.

(** X19: [TokensInteractions.draw_token] on a cup of at least two tokens
    whose command for the type of the top token is missing or is no
    [Replenish] (on every cup no command was registered for, as [Game]
    builds it) raises at the first token: [ValueError] when the command is
    missing, [NotImplementedError] when there is one (it holds a cup, as
    every command object but a [Blank] does).  The token drawn is gone
    from the cup, the rest of the cups is unchanged and the second token is
    not drawn. *)
Theorem draw_token_loses_a_token (cups : gmap nat MythosCup.t) (cup : nat)
    (c : MythosCup.t) (ts : list string) (t : string) :
  cups !! cup = Some c ->
  MythosCup.tokens c = ts ++ [t] -> ts <> [] ->
  (forall command, MythosCup._commands c !! t = Some command ->
     replenishes command = false /\
     forall a, cup_of command = Some a -> is_Some (cups !! a)) ->
  TokensInteractions.draw_token cup cups
    = (Raise match MythosCup._commands c !! t with
             | None => ValueError "command doesnt exists"
             | Some _ => NotImplementedError
             end,
       <[cup := MythosCup.with_tokens ts c]> cups).
Proof.
  intros E Ht Hts Hno. unfold TokensInteractions.draw_token.
  unfold bind at 1. rewrite (on_cup_get _ _ _ E).
  unfold MythosCup.__size__. rewrite Ht, length_app. simpl.
  destruct (Z.of_nat (length ts + 1) <? 2) eqn:H2.
  { apply Z.ltb_lt in H2. destruct ts; [done|]. simpl in H2. lia. }
  unfold bind at 1. unfold bind at 1.
  rewrite (on_cup_draw _ _ _ _ _ E Ht).
  unfold bind at 1. unfold MythosCup.execute_command.
  unfold bind at 1.
  rewrite (on_cup_get _ _ (MythosCup.with_tokens ts c))
    by apply lookup_insert_eq.
  simpl.
  destruct (MythosCup._commands c !! t) as [command|] eqn:Ec; [|done].
  destruct (Hno _ eq_refl) as [Hrep Hcup].
  unfold bind.
  rewrite (execute_raises (<[cup := MythosCup.with_tokens ts c]> cups)
             command Hrep); [done|].
  intros a Ha. apply lookup_insert_is_Some'. right. by apply Hcup.
Qed.

Lemma draw_token_loses_a_token_witness :
  let full := snd (MythosCup.replenish MythosCup.__init__) in
  let doomed :=
    snd (MythosCup.register_command "blank" (MythosCup.SpreadDoom 0%nat)
           full) in
  let rest := ["spread_doom"; "spawn_monster"; "read_headline"; "spawn_clue";
               "gate_burst"; "reckoning"] in
  TokensInteractions.draw_token 0%nat {[ 0%nat := full ]}
    = (Raise (ValueError "command doesnt exists"),
       {[ 0%nat := MythosCup.with_tokens rest full ]}) /\
  TokensInteractions.draw_token 0%nat {[ 0%nat := doomed ]}
    = (Raise NotImplementedError,
       {[ 0%nat := MythosCup.with_tokens rest doomed ]}).
Proof.
  intros full doomed rest. split.
  - etrans.
    + apply (draw_token_loses_a_token {[ 0%nat := full ]} 0%nat full rest
               "blank"); try done.
    + reflexivity.
  - etrans.
    + apply (draw_token_loses_a_token {[ 0%nat := doomed ]} 0%nat doomed
               rest "blank"); try done.
      intros command Hc. vm_compute in Hc. injection Hc as <-.
      split; [done|]. intros a [= <-]. by eexists.
    + reflexivity.
Defined.

(** X20: when the commands registered for the type of the top token and
    for ["blank"] are [Replenish] commands of the cup itself,
    [TokensInteractions.draw_token] returns and leaves the cup with the
    seven tokens of [replenish], whatever it held below the top: the second
    token drawn is the ["blank"] the first command has just put in. *)
Theorem draw_token_refills_the_cup (cups : gmap nat MythosCup.t) (cup : nat)
    (c : MythosCup.t) (ts : list string) (t : string) :
  cups !! cup = Some c ->
  MythosCup.tokens c = ts ++ [t] -> ts <> [] ->
  MythosCup._commands c !! t = Some (MythosCup.Replenish cup) ->
  MythosCup._commands c !! "blank" = Some (MythosCup.Replenish cup) ->
  TokensInteractions.draw_token cup cups
    = (Return tt,
       <[cup := MythosCup.with_tokens MythosCup.token_types c]> cups).
Proof.
  intros E Ht Hts Hc Hb. unfold TokensInteractions.draw_token.
  unfold bind at 1. rewrite (on_cup_get _ _ _ E).
  unfold MythosCup.__size__. rewrite Ht, length_app. simpl.
  destruct (Z.of_nat (length ts + 1) <? 2) eqn:H2.
  { apply Z.ltb_lt in H2. destruct ts; [done|]. simpl in H2. lia. }
  unfold bind at 1. unfold bind at 1.
  rewrite (on_cup_draw _ _ _ _ _ E Ht).
  unfold bind at 1. unfold MythosCup.execute_command.
  unfold bind at 1.
  rewrite (on_cup_get _ _ (MythosCup.with_tokens ts c))
    by apply lookup_insert_eq.
  simpl. rewrite Hc. unfold bind at 1. simpl.
  unfold MythosCup.on_cup at 1. rewrite lookup_insert_eq. simpl.
  rewrite insert_insert_eq.
  unfold bind at 1. unfold bind at 1.
  rewrite (on_cup_draw _ _ (MythosCup.with_tokens MythosCup.token_types c)
             ["spread_doom"; "spawn_monster"; "read_headline"; "spawn_clue";
              "gate_burst"; "reckoning"] "blank")
    by (done || apply lookup_insert_eq).
  rewrite insert_insert_eq.
  unfold bind at 1. unfold bind at 1.
  rewrite (on_cup_get _ _ _ (lookup_insert_eq _ _ _)).
  simpl. rewrite Hb. unfold bind at 1. simpl.
  unfold MythosCup.on_cup at 1. rewrite lookup_insert_eq. simpl.
  by rewrite insert_insert_eq.
Qed.

Lemma draw_token_refills_the_cup_witness :
  let always := MythosCup.Replenish 0%nat in
  let c := {| MythosCup._tokens := ["reckoning"; "gate_burst"];
              MythosCup._commands :=
                {[ "gate_burst" := always; "blank" := always ]} |} in
  tokens_of (snd (TokensInteractions.draw_token 0%nat {[ 0%nat := c ]}))
    0%nat = Some MythosCup.token_types.
Proof.
  intros always c.
  rewrite (draw_token_refills_the_cup {[ 0%nat := c ]} 0%nat c
             ["reckoning"] "gate_burst"); by vm_compute.
Defined.

(** ** Spell effects *)

Lemma status_changes (st : InvestigatorStatus.t) (amount : Z) :
  0 <= InvestigatorStatus.health st -> 0 <= InvestigatorStatus.sanity st ->
  0 <= amount ->
  InvestigatorStatus.heal amount st
    = (Return tt,
       InvestigatorStatus.with_health (InvestigatorStatus.health st + amount)
         st) /\
  InvestigatorStatus.restore_sanity amount st
    = (Return tt,
       InvestigatorStatus.with_sanity (InvestigatorStatus.sanity st + amount)
         st) /\
  InvestigatorStatus.lose_sanity amount st
    = (Return tt,
       InvestigatorStatus.with_sanity (InvestigatorStatus.sanity st - amount)
         st) /\
  InvestigatorStatus.take_damage amount st
    = (Return tt,
       InvestigatorStatus.with_health (InvestigatorStatus.health st - amount)
         st).
Proof.
  intros Hh Hs Ha.
  unfold InvestigatorStatus.heal, InvestigatorStatus.restore_sanity,
    InvestigatorStatus.lose_sanity, InvestigatorStatus.take_damage,
    InvestigatorStatus._validate_args, InvestigatorStatus.health,
    InvestigatorStatus.sanity in *.
  unfold_monad.
  assert ((InvestigatorStatus.__health st <? 0) = false) as -> by lia.
  assert ((InvestigatorStatus.__sanity st <? 0) = false) as -> by lia.
  simpl. by assert ((amount <? 0) = false) as -> by lia.
Qed.

Lemma validate_args_spec (w : World) (investigator : nat)
    (inv : Investigator.t) (combat : CombatObj.t) :
  investigators w !! investigator = Some inv ->
  combats w !! Investigator._inv_combat inv = Some combat ->
  SpellEffect.validate_args investigator w =
    match CombatObj.engaged_monsters combat with
    | [] => (Raise (ValueError "No monster found to engage with."), w)
    | _ :: _ =>
        if (InvestigatorStatus.health (Investigator._inv_status inv) <=? 0)
           || (InvestigatorStatus.sanity (Investigator._inv_status inv) <=? 0)
        then (Raise (AttributeError
                       "Investigator is dead and unable to cast spells."), w)
        else (Return tt, w)
    end.
Proof.
  intros Hi Hc.
  unfold SpellEffect.validate_args, SpellEffect.engaged_monsters, deref.
  unfold_monad. rewrite Hi, Hc.
  destruct (CombatObj.engaged_monsters combat); [done|].
  rewrite Hi. by case_match.
Qed.

Lemma on_status_run (w : World) (investigator : nat) (inv : Investigator.t)
    (m : M InvestigatorStatus.t unit) (st' : InvestigatorStatus.t) :
  investigators w !! investigator = Some inv ->
  m (Investigator._inv_status inv) = (Return tt, st') ->
  on_investigator investigator (Investigator.on_status m) w
    = (Return tt,
       with_investigators
         (<[investigator := Investigator.with_inv_status st' inv]>
            (investigators w)) w).
Proof.
  intros Hi Hm. unfold on_investigator, on_object, Investigator.on_status,
    zoom. by rewrite Hi, Hm.
Qed.

Lemma healing_spell_state (w : World) (effect : SpellEffect.t)
    (investigator loc : nat) (inv : Investigator.t) (combat : CombatObj.t) :
  effect = SpellEffect.HealEffect \/ effect = SpellEffect.BoostSanityEffect ->
  investigators w !! investigator = Some inv ->
  combats w !! Investigator._inv_combat inv = Some combat ->
  CombatObj.engaged_monsters combat <> [] ->
  0 < InvestigatorStatus.health (Investigator._inv_status inv) ->
  0 < InvestigatorStatus.sanity (Investigator._inv_status inv) ->
  exists st',
    SpellEffect.apply effect investigator loc w
      = (Return tt,
         with_investigators
           (<[investigator := Investigator.with_inv_status st' inv]>
              (investigators w)) w) /\
    (InvestigatorStatus.health st', InvestigatorStatus.sanity st')
      = healed effect
          (InvestigatorStatus.health (Investigator._inv_status inv),
           InvestigatorStatus.sanity (Investigator._inv_status inv)).
Proof.
  intros Heff Hi Hc Hne Hh Hs.
  pose proof (validate_args_spec w investigator inv combat Hi Hc) as Hv.
  destruct (CombatObj.engaged_monsters combat) eqn:E; [done|].
  destruct ((InvestigatorStatus.health (Investigator._inv_status inv) <=? 0)
            || (InvestigatorStatus.sanity (Investigator._inv_status inv) <=? 0))
    eqn:Hb.
  { apply orb_true_iff in Hb as [Hb|Hb]; apply Z.leb_le in Hb; lia. }
  remember (Investigator._inv_status inv) as st eqn:Hst in *.
  destruct (status_changes st 2) as (Hheal & Hrest & _); [lia|lia|lia|].
  destruct Heff as [-> | ->]; simpl; unfold bind at 1; rewrite Hv.
  - set (st1 := InvestigatorStatus.with_health
                  (InvestigatorStatus.health st + 2) st).
    destruct (status_changes st1 1) as (_ & _ & Hlose & _);
      [unfold st1, InvestigatorStatus.health, InvestigatorStatus.sanity in *;
       simpl; lia..|].
    exists (InvestigatorStatus.with_sanity
              (InvestigatorStatus.sanity st1 - 1) st1).
    split; [|done].
    unfold bind at 1.
    rewrite (on_status_run w investigator inv _ st1)
      by (done || (subst st1; rewrite <- Hst; assumption)).
    unfold Investigator.assign_horror.
    rewrite (on_status_run _ investigator
               (Investigator.with_inv_status st1 inv) _
               (InvestigatorStatus.with_sanity
                  (InvestigatorStatus.sanity st1 - 1) st1));
      [|apply lookup_insert_eq|done].
    simpl. by rewrite insert_insert_eq.
  - set (st1 := InvestigatorStatus.with_sanity
                  (InvestigatorStatus.sanity st + 2) st).
    destruct (status_changes st1 1) as (_ & _ & Hlose & _);
      [unfold st1, InvestigatorStatus.health, InvestigatorStatus.sanity in *;
       simpl; lia..|].
    exists (InvestigatorStatus.with_sanity
              (InvestigatorStatus.sanity st1 - 1) st1).
    split; [|done].
    unfold bind at 1.
    rewrite (on_status_run w investigator inv _ st1)
      by (done || (subst st1; rewrite <- Hst; assumption)).
    unfold Investigator.assign_horror.
    rewrite (on_status_run _ investigator
               (Investigator.with_inv_status st1 inv) _
               (InvestigatorStatus.with_sanity
                  (InvestigatorStatus.sanity st1 - 1) st1));
      [|apply lookup_insert_eq|done].
    simpl. by rewrite insert_insert_eq.
Qed.

(** X21: [HealEffect.apply] and [BoostSanityEffect.apply] raise
    [ValueError] for an investigator engaged with no monster and
    [AttributeError] for one whose health or sanity is not positive, and
    change nothing then; otherwise they return, [HealEffect] with the
    health raised by 2 and the sanity lowered by 1, [BoostSanityEffect]
    with the sanity raised by 1 on balance, and leave the monsters, the
    locations and the engaged list as they were. *)
Theorem healing_spells_spec (w : World) (effect : SpellEffect.t)
    (investigator loc : nat) (engaged : list nat) (health sanity : Z) :
  effect = SpellEffect.HealEffect \/ effect = SpellEffect.BoostSanityEffect ->
  engaged_of w investigator = Some engaged ->
  status_of w investigator = Some (health, sanity) ->
  let r := SpellEffect.apply effect investigator loc w in
  (engaged = [] ->
   r = (Raise (ValueError "No monster found to engage with."), w)) /\
  (engaged <> [] -> health <= 0 \/ sanity <= 0 ->
   r = (Raise (AttributeError
                 "Investigator is dead and unable to cast spells."), w)) /\
  (engaged <> [] -> 0 < health -> 0 < sanity ->
   fst r = Return tt /\
   status_of (snd r) investigator = Some (healed effect (health, sanity)) /\
   engaged_of (snd r) investigator = Some engaged /\
   monsters (snd r) = monsters w /\ spaces (snd r) = spaces w /\
   combats (snd r) = combats w).
Proof.
  intros Heff Heng Hst r.
  unfold engaged_of, status_of in Heng, Hst.
  destruct (investigators w !! investigator) as [inv|] eqn:Hi; [|done].
  destruct (combats w !! Investigator._inv_combat inv) as [combat|] eqn:Hc;
    [|done].
  injection Heng as <-. injection Hst as <- <-.
  pose proof (validate_args_spec w investigator inv combat Hi Hc) as Hv.
  subst r. split; [|split].
  - intros Hnil. destruct Heff as [-> | ->]; simpl; unfold bind;
      rewrite Hv, Hnil; done.
  - intros Hne Hdead.
    assert ((InvestigatorStatus.health (Investigator._inv_status inv) <=? 0)
            || (InvestigatorStatus.sanity (Investigator._inv_status inv) <=? 0)
            = true) as Hb.
    { apply orb_true_iff. destruct Hdead; [left|right]; by apply Z.leb_le. }
    destruct (CombatObj.engaged_monsters combat) eqn:E; [done|].
    destruct Heff as [-> | ->]; simpl; unfold bind; rewrite Hv;
      by rewrite Hb.
  - intros Hne Hh Hs.
    destruct (healing_spell_state w effect investigator loc inv combat)
      as (st' & -> & Hst'); try done.
    unfold engaged_of, status_of. simpl. rewrite lookup_insert_eq. simpl.
    rewrite Hc. by rewrite Hst'.
Qed.

Lemma healing_spells_spec_witness :
  let w := board {| Random.stream := fun _ => 0; Random.cursor := 0 |} in
  status_of w 0%nat = Some (3, 3) /\
  status_of (snd (SpellEffect.apply SpellEffect.HealEffect 0%nat 0%nat w))
    0%nat = Some (5, 2).
Proof.
  intros w. split; [by vm_compute|].
  refine (proj1 (proj2 (proj2 (proj2 (healing_spells_spec w
            SpellEffect.HealEffect 0%nat 0%nat [0%nat] 3 3 _ _ _)) _ _ _)));
    first [lia | by auto | by vm_compute].
Defined.

Lemma take_damage_living (m : Monster.t) (amount : Z) :
  0 < Monster.health m -> 0 <= amount ->
  Monster.take_damage amount m
    = (Return tt,
       Monster.with_monster_health
         (MonsterHealth.with_health
            (Z.max 0 (Monster.health m - damage_dealt m amount))
            (Monster._monster_health m)) m).
Proof.
  destruct m as [nm dmg [h [st]] eng act ms].
  unfold damage_dealt, Monster.take_damage, Monster.on_health,
    MonsterHealth.get_damaged, Monster.state, Monster.health,
    MonsterHealth.health, MonsterState.stage; unfold_monad; simpl.
  intros Hh Ha.
  destruct (amount <? 0) eqn:E1; [apply Z.ltb_lt in E1; lia|].
  destruct (h <=? 0) eqn:E2; [apply Z.leb_le in E2; lia|].
  unfold Monster.with_monster_health, MonsterHealth.with_health. simpl.
  destruct (decide (st = Exhausted)); simpl.
  - destruct (h - amount * 2 <? 0) eqn:E4; simpl; repeat f_equal;
      [apply Z.ltb_lt in E4|apply Z.ltb_ge in E4]; lia.
  - destruct (h - amount <? 0) eqn:E4; simpl; repeat f_equal;
      [apply Z.ltb_lt in E4|apply Z.ltb_ge in E4]; lia.
Qed.

Lemma list_remove_head (x : nat) (l : list nat) :
  list_remove x (x :: l) = Some l.
Proof. simpl. by rewrite decide_True. Qed.

(** X22: [DamageMonsterEffect.apply], for an investigator of positive
    health and sanity, hits the first engaged monster.  When that monster
    is at health 0 the call raises [AttributeError] and changes nothing,
    so the monster stays in the list.  Otherwise the call returns: the
    monster loses 2 health (4 when exhausted), floored at 0, the
    investigator loses 1 sanity, and the monster is taken off the engaged
    list exactly when its health has reached 0; its stage and its prey are
    left as they were. *)
Theorem damaging_spell_spec (w : World) (investigator loc monster : nat)
    (rest : list nat) (m : Monster.t) (health sanity : Z) :
  engaged_of w investigator = Some (monster :: rest) ->
  status_of w investigator = Some (health, sanity) ->
  0 < health -> 0 < sanity ->
  monsters w !! monster = Some m ->
  let r := SpellEffect.apply SpellEffect.DamageMonsterEffect investigator loc w
  in
  (Monster.health m <= 0 ->
   r = (Raise (AttributeError "Monster has already been defeated"), w)) /\
  (0 < Monster.health m ->
   let left := Z.max 0 (Monster.health m - damage_dealt m 2) in
   fst r = Return tt /\
   status_of (snd r) investigator = Some (health, sanity - 1) /\
   engaged_of (snd r) investigator
     = Some (if decide (left = 0) then rest else monster :: rest) /\
   exists m', monsters (snd r) !! monster = Some m' /\
              Monster.health m' = left /\
              Monster.state m' = Monster.state m /\
              Monster.prey m' = Monster.prey m).
Proof.
  intros Heng Hst Hh Hs Hm r.
  unfold engaged_of, status_of in Heng, Hst.
  destruct (investigators w !! investigator) as [inv|] eqn:Hi; [|done].
  destruct (combats w !! Investigator._inv_combat inv) as [combat|] eqn:Hc;
    [|done].
  injection Heng as Heng. injection Hst as <- <-.
  pose proof (validate_args_spec w investigator inv combat Hi Hc) as Hv.
  rewrite Heng in Hv.
  destruct ((InvestigatorStatus.health (Investigator._inv_status inv) <=? 0)
            || (InvestigatorStatus.sanity (Investigator._inv_status inv) <=? 0))
    eqn:Hb.
  { apply orb_true_iff in Hb as [Hb|Hb]; apply Z.leb_le in Hb; lia. }
  assert (Hengaged : SpellEffect.engaged_monsters investigator w
                     = (Return (monster :: rest), w)).
  { unfold SpellEffect.engaged_monsters, deref. unfold_monad.
    by rewrite Hi, Hc, Heng. }
  assert (Hstart : forall k : M World unit,
            SpellEffect.apply SpellEffect.DamageMonsterEffect investigator
              loc w
            = (on_monster monster (Monster.take_damage 2) ;;;
               on_investigator investigator (Investigator.assign_horror 1) ;;;
               m0 <- deref monsters monster ;;
               if Monster.is_defeated m0
               then
                 inv0 <- deref investigators investigator ;;
                 combat0 <- deref combats (Investigator._inv_combat inv0) ;;
                 match list_remove monster
                         (CombatObj.engaged_monsters combat0) with
                 | None => raise (ValueError "list.remove(x): x not in list")
                 | Some l =>
                     on_combat (Investigator._inv_combat inv0)
                       (modify (CombatObj.with_engaged_monsters l))
                 end
               else ret tt)%py w).
  { intros _. simpl. unfold bind at 1. rewrite Hv.
    unfold bind at 1. by rewrite Hengaged. }
  subst r. rewrite (Hstart (ret tt)). clear Hstart.
  split.
  - intros Hdead. unfold bind, on_monster, on_object. rewrite Hm.
    assert (Monster.take_damage 2 m
            = (Raise (AttributeError "Monster has already been defeated"), m))
      as ->.
    { clear -Hdead. destruct m as [nm dmg [h [st]] eng act ms].
      unfold Monster.take_damage, Monster.on_health,
        MonsterHealth.get_damaged, Monster.health, MonsterHealth.health in *;
        unfold_monad; simpl in *.
      by assert ((h <=? 0) = true) as -> by lia. }
    rewrite insert_id by done. by rewrite with_monsters_id.
  - intros Hlive.
    pose proof (take_damage_living m 2 Hlive ltac:(lia)) as Htd.
    set (left := Z.max 0 (Monster.health m - damage_dealt m 2)) in *.
    set (m' := Monster.with_monster_health
                 (MonsterHealth.with_health left (Monster._monster_health m))
                 m) in *.
    set (w1 := with_monsters (<[monster := m']> (monsters w)) w).
    assert (H1 : on_monster monster (Monster.take_damage 2) w
                 = (Return tt, w1)).
    { unfold on_monster, on_object. by rewrite Hm, Htd. }
    destruct (status_changes (Investigator._inv_status inv) 1)
      as (_ & _ & Hlose & _); [lia|lia|lia|].
    set (st' := InvestigatorStatus.with_sanity
                  (InvestigatorStatus.sanity (Investigator._inv_status inv) - 1)
                  (Investigator._inv_status inv)) in *.
    set (w2 := with_investigators
                 (<[investigator := Investigator.with_inv_status st' inv]>
                    (investigators w1)) w1).
    assert (H2 : on_investigator investigator (Investigator.assign_horror 1)
                   w1 = (Return tt, w2)).
    { unfold Investigator.assign_horror.
      by apply on_status_run. }
    assert (H3 : deref monsters monster w2 = (Return m', w2)).
    { unfold deref. simpl. by rewrite lookup_insert_eq. }
    assert (Hdef : Monster.is_defeated m' = bool_decide (left = 0)).
    { unfold Monster.is_defeated, MonsterHealth.check_health_status.
      simpl. subst left. case_bool_decide; lia. }
    assert (Hm' : Monster.health m' = left /\
                  Monster.state m' = Monster.state m /\
                  Monster.prey m' = Monster.prey m) by done.
    set (w3 := with_combats
                 (<[Investigator._inv_combat inv :=
                      CombatObj.with_engaged_monsters rest combat]>
                    (combats w2)) w2).
    match goal with
    | |- context [ (?prog)%py w ] =>
        assert (Hr : prog w
                     = (Return tt, if decide (left = 0) then w3 else w2))
    end.
    { unfold bind at 1. rewrite H1. unfold bind at 1. rewrite H2.
      unfold bind at 1. rewrite H3, Hdef.
      destruct (decide (left = 0)) as [H0|H0].
      - rewrite bool_decide_eq_true_2 by done.
        unfold bind, deref, on_combat, on_object, modify. simpl.
        rewrite lookup_insert_eq. simpl. rewrite Hc, Heng.
        rewrite list_remove_head.
        change (combats w2) with (combats w). by rewrite Hc.
      - by rewrite bool_decide_eq_false_2 by done. }
    rewrite Hr. split; [done|].
    unfold engaged_of, status_of.
    destruct (decide (left = 0)); simpl; rewrite !lookup_insert_eq; simpl;
      rewrite ?lookup_insert_eq, ?Hc, ?Heng; simpl; rewrite ?Heng;
      (split; [done|]); (split; [done|]); by exists m'.
Qed.

Lemma damaging_spell_spec_witness :
  let w := board {| Random.stream := fun _ => 0; Random.cursor := 0 |} in
  let w' := snd (SpellEffect.apply SpellEffect.DamageMonsterEffect
                   0%nat 0%nat w) in
  status_of w' 0%nat = Some (3, 3 - 1) /\
  engaged_of w' 0%nat = Some [0%nat] /\
  Monster.health <$> monsters w' !! 0%nat = Some 1.
Proof.
  intros w w'.
  destruct (proj2 (damaging_spell_spec w 0%nat 0%nat 0%nat [] engaged_ghoul
                     3 3 eq_refl eq_refl ltac:(lia) ltac:(lia) eq_refl)
              ltac:(by vm_compute))
    as (_ & Hs & He & m' & Hm' & Hh & _).
  split; [exact Hs|]. split; [exact He|].
  subst w'. rewrite Hm'. simpl. by rewrite Hh.
Defined.

(** ** The facade of the investigator *)

(** X23: no action method of the [Investigator] facade carries its action
    out.  [move], [ward_doom] and [cast_spell] build a command whose
    [execute_action] calls the same method of the investigator again, and
    so end in [RecursionError] however much room the stack has;
    [attack_monster] builds a command that reads an attribute [_combat] it
    never assigns, and raises [AttributeError]; [evade_monster] reaches
    [Combat.evade_monster], which always raises.  Each call leaves the
    world as it was. *)
Theorem facade_actions_never_return (w : World) (depth self space monster : nat)
    (spell : Spell.t) :
  InvestigatorActions.move depth self space w = (Raise RecursionError, w) /\
  InvestigatorActions.ward_doom depth self w = (Raise RecursionError, w) /\
  InvestigatorActions.cast_spell depth self spell monster w
    = (Raise RecursionError, w) /\
  InvestigatorActions.attack_monster self monster w
    = (Raise (AttributeError
        "'AttackMonsterCommand' object has no attribute '_combat'"), w) /\
  exists e, InvestigatorActions.evade_monster self monster w = (Raise e, w).
Proof.
  repeat split.
  - induction depth as [|depth IH]; [done|exact IH].
  - induction depth as [|depth IH]; [done|exact IH].
  - induction depth as [|depth IH]; [done|exact IH].
  - unfold InvestigatorActions.evade_monster, deref. unfold bind.
    destruct (investigators w !! self) as [inv|]; [|by eexists].
    apply evade_monster_never_returns.
Qed.

Lemma attack_monster_living (w : World) (self monster : nat)
    (c : CombatObj.t) (m : Monster.t) :
  combats w !! self = Some c ->
  monster ∈ CombatObj.engaged_monsters c ->
  monsters w !! monster = Some m ->
  0 < Monster.health m ->
  Combat.attack_monster self monster w
    = (Return tt,
       with_monsters
         (<[monster := Monster.with_monster_health
                         (MonsterHealth.with_health (Monster.health m - 1)
                            (Monster._monster_health m)) m]>
            (monsters w)) w).
Proof.
  intros Hc Hin Hm Hh.
  unfold Combat.attack_monster, deref, on_monster, on_object.
  unfold bind at 1. rewrite Hc.
  rewrite decide_False by (intros Hn; by apply Hn).
  unfold bind at 1. rewrite Hm. rewrite Hm.
  unfold Monster.on_health, MonsterHealth.set_health,
    MonsterHealth.__set_health, MonsterHealth._validate_health.
  unfold_monad.
  by assert ((Monster.health m - 1 <? 0) = false) as -> by lia.
Qed.

(** X24: [InvestigatorSpells.cast_spell] on an engaged monster of positive
    health, for an investigator whose defeated flag is not set and whose
    health and sanity are at least 0, takes 1 health off the monster and
    then the horror of the spell off the sanity, with no floor; a spell of
    negative horror makes it raise [NegativeValueError] after the monster
    has been hit, and the sanity is then unchanged.  The health of the
    investigator is untouched: the effect of the spell is not applied. *)
Theorem cast_spell_spec (w : World) (self : InvestigatorSpells.t)
    (spell : Spell.t) (monster : nat) (c : CombatObj.t) (m : Monster.t)
    (inv : Investigator.t) :
  combats w !! InvestigatorSpells._combat self = Some c ->
  monster ∈ CombatObj.engaged_monsters c ->
  monsters w !! monster = Some m -> 0 < Monster.health m ->
  investigators w !! InvestigatorSpells._status self = Some inv ->
  let status := Investigator._inv_status inv in
  InvestigatorStatus.is_defeated status = false ->
  0 <= InvestigatorStatus.health status ->
  0 <= InvestigatorStatus.sanity status ->
  let r := InvestigatorSpells.cast_spell self spell monster w in
  health_of (snd r) monster = Some (Monster.health m - 1) /\
  (0 <= Spell.horror spell ->
   fst r = Return tt /\
   status_of (snd r) (InvestigatorSpells._status self)
     = Some (InvestigatorStatus.health status,
             InvestigatorStatus.sanity status - Spell.horror spell)) /\
  (Spell.horror spell < 0 ->
   fst r = Raise (NegativeValueError (Spell.horror spell)) /\
   status_of (snd r) (InvestigatorSpells._status self)
     = Some (InvestigatorStatus.health status,
             InvestigatorStatus.sanity status)).
Proof.
  intros Hc Hin Hm Hh Hi status Hdef Hhealth Hsanity r.
  set (w1 := with_monsters
               (<[monster := Monster.with_monster_health
                               (MonsterHealth.with_health (Monster.health m - 1)
                                  (Monster._monster_health m)) m]>
                  (monsters w)) w).
  assert (Hstart : r = on_investigator (InvestigatorSpells._status self)
                         (Investigator.on_status
                            (InvestigatorStatus.lose_sanity
                               (Spell.horror spell))) w1).
  { subst r. unfold InvestigatorSpells.cast_spell.
    unfold bind at 1.
    unfold InvestigatorSpells.on_status at 1, on_investigator, on_object,
      Investigator.on_status, zoom. rewrite Hi.
    unfold bind at 1, get, ret. fold status. rewrite Hdef.
    assert (Investigator.with_inv_status status inv = inv) as ->
      by (by destruct inv).
    rewrite insert_id by done. rewrite with_investigators_id.
    unfold bind at 1.
    by rewrite (attack_monster_living w _ monster c m). }
  rewrite Hstart. clear Hstart r.
  unfold on_investigator, on_object, Investigator.on_status, zoom.
  change (investigators w1) with (investigators w). rewrite Hi. fold status.
  unfold health_of, status_of.
  split; [|split].
  - destruct (InvestigatorStatus.lose_sanity (Spell.horror spell) status).
    simpl. by rewrite lookup_insert_eq.
  - intros Hhorror.
    destruct (status_changes status (Spell.horror spell))
      as (_ & _ & -> & _); [done..|].
    simpl. by rewrite lookup_insert_eq.
  - intros Hhorror.
    assert (InvestigatorStatus.lose_sanity (Spell.horror spell) status
            = (Raise (NegativeValueError (Spell.horror spell)), status)) as ->.
    { unfold InvestigatorStatus.lose_sanity,
        InvestigatorStatus._validate_args, InvestigatorStatus.health,
        InvestigatorStatus.sanity in *.
      unfold_monad.
      assert ((InvestigatorStatus.__health status <? 0) = false) as -> by lia.
      assert ((InvestigatorStatus.__sanity status <? 0) = false) as -> by lia.
      simpl. by assert ((Spell.horror spell <? 0) = true) as -> by lia. }
    simpl. by rewrite lookup_insert_eq.
Qed.

Lemma cast_spell_spec_witness :
  let w := board {| Random.stream := fun _ => 0; Random.cursor := 0 |} in
  let curse := Spell.__init__ "curse" SpellEffect.HealEffect (-1) in
  let r := InvestigatorSpells.cast_spell
             (InvestigatorSpells.__init__ 0%nat 0%nat) curse 0%nat w in
  health_of w 0%nat = Some 3 /\ health_of (snd r) 0%nat = Some (3 - 1).
Proof.
  intros w curse r. split; [by vm_compute|].
  refine (proj1 (cast_spell_spec w (InvestigatorSpells.__init__ 0%nat 0%nat)
            curse 0%nat board_combat engaged_ghoul board_investigator
            _ _ _ _ _ _ _ _)); first [lia | by vm_compute | set_solver].
Defined.

(** ** Remnants *)

Lemma on_tokens_get (store : gmap nat (gmap string Z)) (a : nat)
    (d : gmap string Z) (k : string) (v : Z) :
  store !! a = Some d -> d !! k = Some v ->
  on_tokens a (InvestigatorTokens.get_token_count k) store = (Return v, store).
Proof.
  intros Ha Hk. unfold on_tokens, InvestigatorTokens.get_token_count.
  unfold_monad. rewrite Ha, Hk. by rewrite insert_id.
Qed.

Lemma on_tokens_spend (store : gmap nat (gmap string Z)) (a : nat)
    (d : gmap string Z) (k : string) (v amount : Z) :
  store !! a = Some d -> d !! k = Some v -> 0 <= amount <= v ->
  on_tokens a (InvestigatorTokens.spend_token k amount) store
    = (Return tt, <[a := <[k := v - amount]> d]> store).
Proof.
  intros Ha Hk Hv.
  unfold on_tokens, InvestigatorTokens.spend_token,
    InvestigatorTokens._validate_operations.
  unfold_monad. rewrite Ha.
  assert ((amount <? 0) = false) as -> by lia. rewrite Hk. simpl. rewrite Hk.
  by assert ((v <? amount) = false) as -> by lia.
Qed.

Lemma on_tokens_add (store : gmap nat (gmap string Z)) (a : nat)
    (d : gmap string Z) (k : string) (v amount : Z) :
  store !! a = Some d -> d !! k = Some v ->
  on_tokens a (InvestigatorTokens.add_token k amount) store
    = (Return tt, <[a := <[k := v + amount]> d]> store).
Proof.
  intros Ha Hk.
  unfold on_tokens, InvestigatorTokens.add_token,
    InvestigatorTokens._validate_operations.
  unfold_monad. rewrite Ha, Hk. simpl. by rewrite Hk.
Qed.

(** X25: [_trade_remnants], given tokens that both hold a
    ["remnant_tokens"] counter: an amount above the giver's counter raises
    [ValueError], a negative amount that is not above it
    [NegativeValueError], and nothing changes; an amount between 0 and the
    giver's counter goes through, the giver's counter goes down and the
    taker's up by the amount (both stay as they were when giver and taker
    are the same object), so the remnants of the two add up as before, and
    no other tokens object changes. *)
Theorem trade_remnants_spec (store : gmap nat (gmap string Z))
    (inv ally : nat) (given taken remnants : Z) :
  remnants_of store inv = Some given ->
  remnants_of store ally = Some taken ->
  let r := _trade_remnants inv ally remnants store in
  (given < remnants ->
   r = (Raise (ValueError
                 ("not enough remnants to spend " +:+ pretty remnants)),
        store)) /\
  (remnants <= given -> remnants < 0 ->
   r = (Raise (NegativeValueError remnants), store)) /\
  (0 <= remnants <= given ->
   fst r = Return tt /\
   remnants_of (snd r) inv
     = Some (if decide (inv = ally) then given else given - remnants) /\
   remnants_of (snd r) ally
     = Some (if decide (inv = ally) then taken else taken + remnants) /\
   forall other, other <> inv -> other <> ally ->
                 snd r !! other = store !! other).
Proof.
  intros Hg Ht r. unfold remnants_of in Hg, Ht.
  destruct (store !! inv) as [di|] eqn:Hi; [|done].
  destruct (store !! ally) as [da|] eqn:Ha; [|done].
  assert (Hstart : r =
    (if given <? remnants
     then raise (ValueError
                   ("not enough remnants to spend " +:+ pretty remnants))
     else if remnants <? 0 then raise (NegativeValueError remnants)
     else
       on_tokens inv
         (InvestigatorTokens.spend_token "remnant_tokens" remnants) ;;;
       on_tokens ally
         (InvestigatorTokens.add_token "remnant_tokens" remnants)) store).
  { subst r. unfold _trade_remnants. unfold bind at 1.
    by rewrite (on_tokens_get _ _ _ _ _ Hi Hg). }
  rewrite Hstart. clear Hstart r.
  split; [|split].
  - intros Hlt. by assert ((given <? remnants) = true) as -> by lia.
  - intros Hle Hneg. assert ((given <? remnants) = false) as -> by lia.
    by assert ((remnants <? 0) = true) as -> by lia.
  - intros Hr. assert ((given <? remnants) = false) as -> by lia.
    assert ((remnants <? 0) = false) as -> by lia.
    unfold bind. rewrite (on_tokens_spend _ _ _ _ _ _ Hi Hg Hr).
    unfold remnants_of.
    destruct (decide (inv = ally)) as [<-|Hne].
    + assert (di = da) as <- by congruence.
      assert (taken = given) as -> by congruence.
      rewrite (on_tokens_add _ inv (<["remnant_tokens" := given - remnants]> di)
                 "remnant_tokens" (given - remnants))
        by apply lookup_insert_eq.
      simpl. rewrite !lookup_insert_eq.
      split; [done|]. split; [f_equal; lia|]. split; [f_equal; lia|].
      intros other Ho _. by rewrite !lookup_insert_ne.
    + rewrite (on_tokens_add _ ally da "remnant_tokens" taken)
        by (by rewrite ?lookup_insert_ne).
      simpl. rewrite lookup_insert_ne by done. rewrite !lookup_insert_eq.
      split; [done|]. split; [done|]. split; [done|].
      intros other Ho Ho'. by rewrite !lookup_insert_ne.
Qed.

Lemma trade_remnants_spec_witness :
  let store : gmap nat (gmap string Z) :=
    {[ 0%nat := <["remnant_tokens" := 3]> InvestigatorTokens.__init__;
       1%nat := InvestigatorTokens.__init__ ]} in
  remnants_of (snd (_trade_remnants 0%nat 1%nat 2 store)) 0%nat = Some (3 - 2)
  /\ remnants_of (snd (_trade_remnants 0%nat 1%nat 2 store)) 1%nat
     = Some (0 + 2).
Proof.
  intros store.
  destruct (proj2 (proj2 (trade_remnants_spec store 0%nat 1%nat 3 0 2
                            eq_refl eq_refl)) ltac:(lia))
    as (_ & H0 & H1 & _).
  split; [exact H0|exact H1].
Defined.

(** ** The locations of the board *)

Lemma space_call_keeps (spaces : gmap nat Space.t) (c : SpaceCall)
    (sm : SpaceManager.t) :
  let I := fun sm : SpaceManager.t =>
    (forall name loc, SpaceManager.__spaces sm !! name = Some loc ->
       placed spaces sm loc /\ Space.name <$> spaces !! loc = Some name) /\
    (forall x y, (x, y) ∈ DiGraph.edges (SpaceManager._graph sm) ->
       placed spaces sm x /\ placed spaces sm y) /\
    NoDup (DiGraph.nodes (SpaceManager._graph sm)) /\
    NoDup (DiGraph.edges (SpaceManager._graph sm)) in
  I sm -> I (snd (space_call spaces c sm)).
Proof.
  intros I (Hnames & Hedges & Hn & He). unfold placed in *.
  destruct c as [loc|n1 n2]; simpl.
  - unfold SpaceManager.add_space, SpaceManager.on_graph, DiGraph.add_node.
    unfold_monad. simpl.
    assert (Hmono : forall x,
              x ∈ DiGraph.nodes (SpaceManager._graph sm) ->
              x ∈ set_add loc (DiGraph._nodes (SpaceManager._graph sm))).
    { intros x Hx. apply elem_of_set_add. by right. }
    destruct (spaces !! loc) as [space|] eqn:Hloc; simpl.
    + split; [|split; [|split; [by apply NoDup_set_add|done]]].
      * intros name l. unfold DiGraph.nodes. simpl.
        destruct (decide (Space.name space = name)) as [<-|Hne].
        -- rewrite lookup_insert_eq. intros [= <-].
           rewrite Hloc. split; [|done]. split; [|done].
           apply elem_of_set_add. by left.
        -- rewrite lookup_insert_ne by done. intros Hl.
           destruct (Hnames _ _ Hl) as [[H1 H2] H3]. auto.
      * intros x y Hxy. destruct (Hedges x y Hxy) as [[? ?] [? ?]].
        unfold DiGraph.nodes. simpl. auto.
    + split; [|split; [|split; [by apply NoDup_set_add|done]]].
      * intros name l Hl. destruct (Hnames _ _ Hl) as [[H1 H2] H3].
        unfold DiGraph.nodes. simpl. auto.
      * intros x y Hxy. destruct (Hedges x y Hxy) as [[? ?] [? ?]].
        unfold DiGraph.nodes. simpl. auto.
  - unfold SpaceManager.connect_spaces, SpaceManager.on_graph,
      DiGraph.add_edge.
    unfold_monad.
    destruct (SpaceManager.__spaces sm !! n1) as [l1|] eqn:H1; [|done].
    destruct (SpaceManager.__spaces sm !! n2) as [l2|] eqn:H2; [|done].
    simpl. unfold DiGraph.nodes, DiGraph.edges. simpl.
    destruct (Hnames _ _ H1) as [[Hl1 Hs1] _].
    destruct (Hnames _ _ H2) as [[Hl2 Hs2] _].
    assert (Hmono : forall x,
              x ∈ DiGraph.nodes (SpaceManager._graph sm) ->
              x ∈ set_add l2
                    (set_add l1 (DiGraph._nodes (SpaceManager._graph sm)))).
    { intros x Hx. rewrite !elem_of_set_add. auto. }
    split; [|split; [|split; by repeat apply NoDup_set_add]].
    + intros name l Hl. destruct (Hnames _ _ Hl) as [[? ?] ?]. auto.
    + intros x y Hxy. apply elem_of_set_add in Hxy as [[= -> ->]|Hxy].
      * auto.
      * destruct (Hedges x y Hxy) as [[? ?] [? ?]]. auto.
Qed.

(** X26: whatever calls of [add_space] and [connect_spaces] are made on a
    new [SpaceManager], also ones that raise, [get_space] answers, for a
    name, a location that was added, is a node of the graph and bears that
    name, or raises [KeyError] with the name; both ends of every edge are
    locations that were added and nodes of the graph; the nodes and the
    edges hold no duplicate. *)
Theorem space_manager_keeps_the_board (spaces : gmap nat Space.t)
    (cs : list SpaceCall) :
  let sm := snd (run_calls (space_call spaces) cs SpaceManager.__init__) in
  (forall name,
     match SpaceManager.get_space name sm with
     | (Return loc, _) =>
         placed spaces sm loc /\ Space.name <$> spaces !! loc = Some name
     | (Raise e, _) => e = KeyError name
     end) /\
  (forall x y, (x, y) ∈ DiGraph.edges (SpaceManager._graph sm) ->
     placed spaces sm x /\ placed spaces sm y) /\
  NoDup (DiGraph.nodes (SpaceManager._graph sm)) /\
  NoDup (DiGraph.edges (SpaceManager._graph sm)).
Proof.
  intros sm.
  pose (I := fun sm : SpaceManager.t =>
    (forall name loc, SpaceManager.__spaces sm !! name = Some loc ->
       placed spaces sm loc /\ Space.name <$> spaces !! loc = Some name) /\
    (forall x y, (x, y) ∈ DiGraph.edges (SpaceManager._graph sm) ->
       placed spaces sm x /\ placed spaces sm y) /\
    NoDup (DiGraph.nodes (SpaceManager._graph sm)) /\
    NoDup (DiGraph.edges (SpaceManager._graph sm))).
  assert (I sm) as (Hnames & Hedges & Hn & He).
  { subst sm.
    apply (run_calls_invariant (space_call spaces) I (fun _ => True)).
    - intros c s _ Hs. by apply space_call_keeps.
    - by apply Forall_true.
    - split; [|split; [|split; constructor]].
      + intros name loc Hl. simpl in Hl. by rewrite lookup_empty in Hl.
      + intros x y Hxy. by apply not_elem_of_nil in Hxy. }
  split; [|done].
  intros name. unfold SpaceManager.get_space. unfold_monad.
  destruct (SpaceManager.__spaces sm !! name) as [loc|] eqn:E; [|done].
  by apply Hnames.
Qed.

(** ** Clues *)

Lemma list_remove_spec (x : nat) (l : list nat) :
  match list_remove x l with
  | Some l' => x ∈ l /\ x :: l' ≡ₚ l
  | None => x ∉ l
  end.
Proof.
  induction l as [|y l IH]; simpl; [apply not_elem_of_nil|].
  destruct (decide (y = x)) as [->|Hne]; [split; [left|done]|].
  destruct (list_remove x l) as [l'|].
  - destruct IH as [Hin Hp]. split; [by right|].
    rewrite Permutation_swap. by f_equiv.
  - intros Hin. apply elem_of_cons in Hin as [->|Hin]; done.
Qed.

Lemma list_remove_absent_snoc (x : nat) (l : list nat) :
  x ∉ l -> list_remove x (l ++ [x]) = Some l.
Proof.
  induction l as [|y l IH]; simpl; intros Hx.
  - by rewrite decide_True.
  - apply not_elem_of_cons in Hx as [Hne Hx].
    rewrite decide_False by done. by rewrite IH.
Qed.

(** X27: [remove_clue] takes exactly one occurrence of the clue out of the
    list when the clue is in it, and raises [ValueError] and changes
    nothing when it is not; [add_clue] followed by [remove_clue] of the
    same clue always returns and leaves the clues that were there, in the
    same order when the clue was not among them (when it was, it is the
    first occurrence that goes and the new one that stays, at the end). *)
Theorem remove_clue_takes_one (self : list nat) (clue : nat) :
  (match InvestigatorClues.remove_clue clue self with
   | (Return _, rest) => clue ∈ self /\ clue :: rest ≡ₚ self
   | (Raise e, rest) =>
       (clue ∉ self) /\ rest = self /\
       e = ValueError
             "Clue not found in the clues list and hence cannot be removed."
   end) /\
  exists rest,
    (InvestigatorClues.add_clue clue ;;; InvestigatorClues.remove_clue clue)
      self = (Return tt, rest) /\
    rest ≡ₚ self /\ (clue ∉ self -> rest = self).
Proof.
  unfold InvestigatorClues.remove_clue, InvestigatorClues.add_clue.
  unfold_monad. split.
  - pose proof (list_remove_spec clue self) as Hspec.
    destruct (decide (clue ∉ self)) as [Hout|Hin]; [done|].
    by destruct (list_remove clue self) as [rest|].
  - rewrite decide_False
      by (intros Hn; apply Hn, elem_of_app; right; left).
    pose proof (list_remove_spec clue (self ++ [clue])) as Hspec.
    destruct (list_remove clue (self ++ [clue])) as [rest|] eqn:E.
    + exists rest. split; [done|]. destruct Hspec as [_ Hp]. split.
      * apply (Permutation_cons_inv (a := clue)). rewrite Hp.
        by rewrite Permutation_app_comm.
      * intros Hout. rewrite list_remove_absent_snoc in E by done.
        by injection E.
    + destruct Hspec. apply elem_of_app. right. left.
Qed.

(** ** Setting the game up *)

Lemma add_space_returns (spaces : gmap nat Space.t) (loc : nat)
    (space : Space.t) (sm : SpaceManager.t) :
  spaces !! loc = Some space ->
  names_agree spaces sm ->
  exists sm',
    SpaceManager.add_space spaces loc sm = (Return tt, sm') /\
    names_agree spaces sm' /\
    placed spaces sm' loc /\
    SpaceManager.__spaces sm' !! Space.name space = Some loc /\
    (forall name, is_Some (SpaceManager.__spaces sm !! name) ->
                  is_Some (SpaceManager.__spaces sm' !! name)) /\
    (forall x, placed spaces sm x -> placed spaces sm' x) /\
    DiGraph.edges (SpaceManager._graph sm')
      = DiGraph.edges (SpaceManager._graph sm).
Proof.
  intros Hloc Hsm.
  unfold SpaceManager.add_space, SpaceManager.on_graph, DiGraph.add_node.
  unfold_monad. rewrite Hloc. simpl. eexists. split; [done|].
  unfold names_agree, placed, name_of, DiGraph.nodes in *. simpl.
  assert (Hmono : forall x,
            x ∈ DiGraph._nodes (SpaceManager._graph sm) ->
            x ∈ set_add loc (DiGraph._nodes (SpaceManager._graph sm))).
  { intros x Hx. apply elem_of_set_add. by right. }
  assert (Hloc' : loc ∈ set_add loc (DiGraph._nodes (SpaceManager._graph sm)))
    by (apply elem_of_set_add; by left).
  repeat split.
  - destruct (decide (Space.name space = name)) as [<-|Hne].
    + rewrite lookup_insert_eq in H. by injection H as <-.
    + rewrite lookup_insert_ne in H by done.
      apply Hmono. by apply (Hsm _ _ H).
  - destruct (decide (Space.name space = name)) as [<-|Hne].
    + rewrite lookup_insert_eq in H. injection H as <-. by rewrite Hloc.
    + rewrite lookup_insert_ne in H by done. by apply (Hsm _ _ H).
  - destruct (decide (Space.name space = name)) as [<-|Hne].
    + rewrite lookup_insert_eq in H. injection H as <-. by rewrite Hloc.
    + rewrite lookup_insert_ne in H by done. by apply (Hsm _ _ H).
  - done.
  - by rewrite Hloc.
  - by rewrite lookup_insert_eq.
  - intros name Hn. destruct (decide (Space.name space = name)) as [<-|Hne].
    + by rewrite lookup_insert_eq.
    + by rewrite lookup_insert_ne.
  - apply Hmono. by destruct H.
  - by destruct H.
Qed.

Lemma connect_spaces_returns (spaces : gmap nat Space.t)
    (name1 name2 : string) (loc1 loc2 : nat) (sm : SpaceManager.t) :
  SpaceManager.__spaces sm !! name1 = Some loc1 ->
  SpaceManager.__spaces sm !! name2 = Some loc2 ->
  names_agree spaces sm ->
  exists sm',
    SpaceManager.connect_spaces name1 name2 sm = (Return tt, sm') /\
    names_agree spaces sm' /\
    SpaceManager.__spaces sm' = SpaceManager.__spaces sm /\
    (loc1, loc2) ∈ DiGraph.edges (SpaceManager._graph sm') /\
    (forall e, e ∈ DiGraph.edges (SpaceManager._graph sm) ->
               e ∈ DiGraph.edges (SpaceManager._graph sm')) /\
    (forall x, placed spaces sm x -> placed spaces sm' x).
Proof.
  intros H1 H2 Hsm.
  unfold SpaceManager.connect_spaces, SpaceManager.on_graph, DiGraph.add_edge.
  unfold_monad. rewrite H1, H2. simpl. eexists. split; [done|].
  unfold names_agree, placed, name_of, DiGraph.nodes, DiGraph.edges in *.
  simpl.
  assert (Hmono : forall x,
            x ∈ DiGraph._nodes (SpaceManager._graph sm) ->
            x ∈ set_add loc2
                  (set_add loc1 (DiGraph._nodes (SpaceManager._graph sm)))).
  { intros x Hx. rewrite !elem_of_set_add. auto. }
  split; [|split; [done|split; [|split]]].
  - intros name loc Hl. destruct (Hsm _ _ Hl) as [[? ?] ?]. auto.
  - apply elem_of_set_add. by left.
  - intros e He. apply elem_of_set_add. by right.
  - intros x [? ?]. auto.
Qed.

Section SetupLoops.
Context {EncounterCardT EventCardT MonsterT : Type}.
Context (w : World).

Lemma add_spaces_return (locations : list nat) (self : GameSetup.t EncounterCardT EventCardT MonsterT) :
  (forall loc, loc ∈ locations -> is_Some (spaces w !! loc)) ->
  names_agree (spaces w) (GameSetup._space_manager self) ->
  exists sm',
    for_each locations (fun loc =>
      GameSetup.on_space_manager (SpaceManager.add_space (spaces w) loc)) self
      = (Return tt, GameSetup.with_space_manager sm' self) /\
    names_agree (spaces w) sm' /\
    (forall loc, loc ∈ locations -> placed (spaces w) sm' loc) /\
    (forall loc name, loc ∈ locations -> name_of (spaces w) loc = Some name ->
       is_Some (SpaceManager.__spaces sm' !! name)) /\
    (forall name,
       is_Some (SpaceManager.__spaces (GameSetup._space_manager self) !! name)
       -> is_Some (SpaceManager.__spaces sm' !! name)) /\
    (forall x, placed (spaces w) (GameSetup._space_manager self) x ->
               placed (spaces w) sm' x) /\
    DiGraph.edges (SpaceManager._graph sm')
      = DiGraph.edges (SpaceManager._graph (GameSetup._space_manager self)).
Proof.
  revert self. induction locations as [|loc locations IH]; intros self Hin Hsm.
  - exists (GameSetup._space_manager self). simpl. unfold ret.
    split; [by destruct self|]. split; [done|].
    split; [intros loc Hl; by apply not_elem_of_nil in Hl|].
    split; [intros loc name Hl; by apply not_elem_of_nil in Hl|done].
  - destruct (Hin loc) as [space Hloc]; [left|].
    destruct (add_space_returns _ _ _ _ Hloc Hsm)
      as (sm1 & E1 & Hsm1 & Hp1 & Hn1 & Hd1 & Hm1 & He1).
    destruct (IH (GameSetup.with_space_manager sm1 self))
      as (sm2 & E2 & Hsm2 & Hp2 & Hn2 & Hd2 & Hm2 & He2).
    { intros l Hl. apply Hin. by right. }
    { done. }
    exists sm2. simpl in *. unfold bind, GameSetup.on_space_manager, zoom.
    rewrite E1. unfold GameSetup.on_space_manager, zoom in E2. rewrite E2.
    split; [done|]. split; [done|]. split; [|split; [|split; [|split]]].
    + intros l Hl. apply elem_of_cons in Hl as [->|Hl]; auto.
    + intros l name Hl Hname. apply elem_of_cons in Hl as [->|Hl]; [|eauto].
      apply Hd2. unfold name_of in Hname. rewrite Hloc in Hname.
      injection Hname as <-. by eexists.
    + auto.
    + auto.
    + congruence.
Qed.

Lemma connect_all_return (loc_to_conn : list (string * string))
    (self : GameSetup.t EncounterCardT EventCardT MonsterT) :
  (forall names, names ∈ loc_to_conn ->
     is_Some (SpaceManager.__spaces (GameSetup._space_manager self)
                !! fst names) /\
     is_Some (SpaceManager.__spaces (GameSetup._space_manager self)
                !! snd names)) ->
  names_agree (spaces w) (GameSetup._space_manager self) ->
  exists sm',
    for_each loc_to_conn (fun names =>
      GameSetup.on_space_manager
        (SpaceManager.connect_spaces (fst names) (snd names))) self
      = (Return tt, GameSetup.with_space_manager sm' self) /\
    names_agree (spaces w) sm' /\
    SpaceManager.__spaces sm'
      = SpaceManager.__spaces (GameSetup._space_manager self) /\
    (forall names, names ∈ loc_to_conn ->
       exists loc1 loc2,
         (loc1, loc2) ∈ DiGraph.edges (SpaceManager._graph sm') /\
         name_of (spaces w) loc1 = Some (fst names) /\
         name_of (spaces w) loc2 = Some (snd names)) /\
    (forall e,
       e ∈ DiGraph.edges (SpaceManager._graph (GameSetup._space_manager self))
       -> e ∈ DiGraph.edges (SpaceManager._graph sm')) /\
    (forall x, placed (spaces w) (GameSetup._space_manager self) x ->
               placed (spaces w) sm' x).
Proof.
  revert self.
  induction loc_to_conn as [|[n1 n2] conns IH]; intros self Hin Hsm.
  - exists (GameSetup._space_manager self). simpl. unfold ret.
    split; [by destruct self|]. split; [done|]. split; [done|].
    split; [intros c Hc; by apply not_elem_of_nil in Hc|done].
  - destruct (Hin (n1, n2)) as [[l1 H1] [l2 H2]]; [left|]. simpl in H1, H2.
    destruct (connect_spaces_returns _ _ _ _ _ _ H1 H2 Hsm)
      as (sm1 & E1 & Hsm1 & Hs1 & He1 & Hm1 & Hp1).
    destruct (IH (GameSetup.with_space_manager sm1 self))
      as (sm2 & E2 & Hsm2 & Hs2 & He2 & Hm2 & Hp2).
    { intros c Hc. simpl. rewrite Hs1. apply Hin. by right. }
    { done. }
    exists sm2. simpl in *. unfold bind, GameSetup.on_space_manager, zoom.
    rewrite E1. unfold GameSetup.on_space_manager, zoom in E2. rewrite E2.
    split; [done|]. split; [done|]. split; [congruence|].
    split; [|split]; [|auto..].
    intros c Hc. apply elem_of_cons in Hc as [->|Hc]; [|auto].
    exists l1, l2. simpl. split; [auto|].
    split; [by apply (Hsm _ _ H1)|by apply (Hsm _ _ H2)].
Qed.

Lemma place_investigators_return (investigators_list : list nat)
    (self : GameSetup.t EncounterCardT EventCardT MonsterT) :
  (forall investigator, investigator ∈ investigators_list ->
     exists loc, location_of w investigator = Some loc /\
                 is_Some (spaces w !! loc)) ->
  names_agree (spaces w) (GameSetup._space_manager self) ->
  exists sm',
    for_each investigators_list (fun investigator =>
      match investigators w !! investigator with
      | None => raise DanglingReference
      | Some inv =>
          loc <- lift_outcome (Investigator.location inv) ;;
          GameSetup.on_space_manager (SpaceManager.add_space (spaces w) loc)
      end) self
      = (Return tt, GameSetup.with_space_manager sm' self) /\
    names_agree (spaces w) sm' /\
    (forall investigator, investigator ∈ investigators_list ->
       exists loc, location_of w investigator = Some loc /\
                   placed (spaces w) sm' loc) /\
    (forall x, placed (spaces w) (GameSetup._space_manager self) x ->
               placed (spaces w) sm' x) /\
    DiGraph.edges (SpaceManager._graph sm')
      = DiGraph.edges (SpaceManager._graph (GameSetup._space_manager self)).
Proof.
  revert self.
  induction investigators_list as [|i l IH]; intros self Hin Hsm.
  - exists (GameSetup._space_manager self). simpl. unfold ret.
    split; [by destruct self|]. split; [done|].
    split; [intros i Hi; by apply not_elem_of_nil in Hi|done].
  - destruct (Hin i) as (loc & Hloc & [space Hspace]); [left|].
    unfold location_of in Hloc.
    destruct (investigators w !! i) as [inv|] eqn:Hi; [|done].
    destruct (add_space_returns _ _ _ _ Hspace Hsm)
      as (sm1 & E1 & Hsm1 & Hp1 & _ & _ & Hm1 & He1).
    destruct (IH (GameSetup.with_space_manager sm1 self))
      as (sm2 & E2 & Hsm2 & Hp2 & Hm2 & He2).
    { intros j Hj. apply Hin. by right. }
    { done. }
    exists sm2.
    match type of E2 with
    | for_each l ?body _ = _ => set (place_one := body) in *
    end.
    assert (E0 : place_one i self
                 = (Return tt, GameSetup.with_space_manager sm1 self)).
    { unfold place_one. rewrite Hi.
      unfold bind, lift_outcome, Investigator.location,
        GameSetup.on_space_manager, zoom.
      by rewrite Hloc, E1. }
    simpl. unfold bind. rewrite E0, E2. simpl in *.
    split; [done|]. split; [done|]. split; [|split; [auto|congruence]].
    intros j Hj. apply elem_of_cons in Hj as [->|Hj]; [|auto].
    exists loc. unfold location_of. rewrite Hi. auto.
Qed.

Lemma only_places_on_space_manager (m : M SpaceManager.t unit) :
  only_places (EncounterCardT := EncounterCardT) (EventCardT := EventCardT)
    (MonsterT := MonsterT) (GameSetup.on_space_manager m).
Proof.
  intros self. unfold GameSetup.on_space_manager, zoom.
  destruct (m (GameSetup._space_manager self)) as [o sm']. by exists o, sm'.
Qed.

Lemma only_places_raise (e : PyExc) :
  only_places (EncounterCardT := EncounterCardT) (EventCardT := EventCardT)
    (MonsterT := MonsterT) (raise e).
Proof.
  intros self. exists (Raise e), (GameSetup._space_manager self).
  by destruct self.
Qed.

Lemma only_places_bind
    (m k : M (GameSetup.t EncounterCardT EventCardT MonsterT) unit) :
  only_places m -> only_places k -> only_places (m ;;; k).
Proof.
  intros Hm Hk self. unfold bind.
  destruct (Hm self) as ([u|e] & sm1 & ->); [|by exists (Raise e), sm1].
  destruct (Hk (GameSetup.with_space_manager sm1 self)) as (o & sm2 & ->).
  by exists o, sm2.
Qed.

Lemma only_places_for_each {A} (l : list A)
    (body : A -> M (GameSetup.t EncounterCardT EventCardT MonsterT) unit) :
  (forall x, only_places (body x)) -> only_places (for_each l body).
Proof.
  intros Hbody. induction l as [|x l IH]; simpl.
  - intros self. exists (Return tt), (GameSetup._space_manager self).
    by destruct self.
  - by apply only_places_bind.
Qed.

End SetupLoops.

Lemma shuffle_represents {CardT : Type}
    (shuffle_func : list CardT -> list CardT) (d : Deque.t CardT)
    (xs : list CardT) :
  represents d xs ->
  Deck.shuffle shuffle_func d
    = Some (Return tt, snd (Deque.__new__ (shuffle_func xs))) /\
  represents (snd (Deque.__new__ (shuffle_func xs)))
    (reverse (shuffle_func xs)).
Proof.
  intros Hd. unfold Deck.shuffle. rewrite (represents_list_of d xs Hd).
  split; [done|]. apply new_represents.
Qed.

(** X28: [setup_game] on well-formed decks always ends, and whatever it
    answers it has shuffled the three decks and replenished the cup.  With
    no location, or with locations and no connection, it raises
    [ValueError] only then, the space manager untouched.  With locations
    that exist, connections between names of these locations and
    investigators that stand on a location, it returns: every location
    given and every location an investigator stands on has been added,
    and every connection is an edge between two locations that bear its
    two names. *)
Theorem setup_game_spec {EncounterCardT EventCardT MonsterT : Type}
    (shuffle_encounter : list EncounterCardT -> list EncounterCardT)
    (shuffle_event : list EventCardT -> list EventCardT)
    (shuffle_monster : list MonsterT -> list MonsterT)
    (w : World) (locations : list nat) (loc_to_conn : list (string * string))
    (self : GameSetup.t EncounterCardT EventCardT MonsterT)
    (encounter_cards : list EncounterCardT) (event_cards : list EventCardT)
    (monster_cards : list MonsterT) :
  represents (GameSetup._encounter_deck self) encounter_cards ->
  represents (GameSetup._event_deck self) event_cards ->
  represents (GameSetup._monster_deck self) monster_cards ->
  names_agree (spaces w) (GameSetup._space_manager self) ->
  exists r,
    GameSetup.setup_game shuffle_encounter shuffle_event shuffle_monster w
      locations loc_to_conn self = Some r /\
    represents (GameSetup._encounter_deck (snd r))
      (reverse (shuffle_encounter encounter_cards)) /\
    represents (GameSetup._event_deck (snd r))
      (reverse (shuffle_event event_cards)) /\
    represents (GameSetup._monster_deck (snd r))
      (reverse (shuffle_monster monster_cards)) /\
    MythosCup.tokens (GameSetup._mythos_cup (snd r))
      = MythosCup.token_types /\
    (locations = [] ->
     fst r = Raise (ValueError "No locations found") /\
     GameSetup._space_manager (snd r) = GameSetup._space_manager self) /\
    (locations <> [] -> loc_to_conn = [] ->
     fst r = Raise (ValueError
               "No connections possible as there are no {loc_to_conn}") /\
     GameSetup._space_manager (snd r) = GameSetup._space_manager self) /\
    (locations <> [] -> loc_to_conn <> [] ->
     (forall loc, loc ∈ locations -> is_Some (spaces w !! loc)) ->
     (forall names, names ∈ loc_to_conn ->
        exists loc1 loc2,
          loc1 ∈ locations /\ loc2 ∈ locations /\
          name_of (spaces w) loc1 = Some (fst names) /\
          name_of (spaces w) loc2 = Some (snd names)) ->
     (forall investigator,
        investigator ∈ snd <$> GameSetup._investigator_manager self ->
        exists loc, location_of w investigator = Some loc /\
                    is_Some (spaces w !! loc)) ->
     fst r = Return tt /\
     names_agree (spaces w) (GameSetup._space_manager (snd r)) /\
     board_is_set w locations loc_to_conn
       (GameSetup._investigator_manager self)
       (GameSetup._space_manager (snd r))).
Proof.
  intros Henc Hev Hmon Hsm.
  destruct (shuffle_represents shuffle_encounter _ _ Henc) as [E1 R1].
  destruct (shuffle_represents shuffle_event _ _ Hev) as [E2 R2].
  destruct (shuffle_represents shuffle_monster _ _ Hmon) as [E3 R3].
  unfold GameSetup.setup_game. rewrite E1, E2, E3. clear E1 E2 E3.
  eexists. split; [done|].
  set (self0 := GameSetup.with_decks
                  (snd (Deque.__new__ (shuffle_encounter encounter_cards)))
                  (snd (Deque.__new__ (shuffle_event event_cards)))
                  (snd (Deque.__new__ (shuffle_monster monster_cards))) self).
  set (self1 := GameSetup.with_mythos_cup
                  (MythosCup.with_tokens MythosCup.token_types
                     (GameSetup._mythos_cup self0)) self0).
  assert (Hplace : GameSetup.place w locations loc_to_conn self0 =
    match locations with
    | [] => (Raise (ValueError "No locations found"), self1)
    | _ :: _ =>
        match loc_to_conn with
        | [] => (Raise (ValueError
                   "No connections possible as there are no {loc_to_conn}"),
                 self1)
        | _ :: _ =>
            (for_each locations (fun loc =>
               GameSetup.on_space_manager
                 (SpaceManager.add_space (spaces w) loc)) ;;;
             for_each loc_to_conn (fun names =>
               GameSetup.on_space_manager
                 (SpaceManager.connect_spaces (fst names) (snd names))) ;;;
             self <- get ;;
             for_each (snd <$> GameSetup._investigator_manager self)
               (fun investigator =>
                  match investigators w !! investigator with
                  | None => raise DanglingReference
                  | Some inv =>
                      loc <- lift_outcome (Investigator.location inv) ;;
                      GameSetup.on_space_manager
                        (SpaceManager.add_space (spaces w) loc)
                  end))%py self1
        end
    end).
  { unfold GameSetup.place. unfold bind at 1.
    by destruct locations, loc_to_conn. }
  rewrite Hplace. clear Hplace.
  assert (Hkeep : forall (o : outcome unit) sm',
    let self' := GameSetup.with_space_manager sm' self1 in
    represents (GameSetup._encounter_deck self')
      (reverse (shuffle_encounter encounter_cards)) /\
    represents (GameSetup._event_deck self')
      (reverse (shuffle_event event_cards)) /\
    represents (GameSetup._monster_deck self')
      (reverse (shuffle_monster monster_cards)) /\
    MythosCup.tokens (GameSetup._mythos_cup self') = MythosCup.token_types)
    by done.
  destruct locations as [|loc0 locations'] eqn:Hlocs.
  { destruct (Hkeep (Return tt) (GameSetup._space_manager self1))
      as (K1 & K2 & K3 & K4).
    simpl. split; [exact K1|]. split; [exact K2|]. split; [exact K3|].
    split; [exact K4|]. split; [done|]. split; [done|]. by intros Hne. }
  destruct loc_to_conn as [|conn0 conns'] eqn:Hconns.
  { destruct (Hkeep (Return tt) (GameSetup._space_manager self1))
      as (K1 & K2 & K3 & K4).
    simpl. split; [exact K1|]. split; [exact K2|]. split; [exact K3|].
    split; [exact K4|]. split; [done|]. split; [done|]. by intros _ Hne. }
  rewrite <- Hlocs, <- Hconns.
  assert (Hlne : locations <> []) by (by rewrite Hlocs).
  assert (Hcne : loc_to_conn <> []) by (by rewrite Hconns).
  clear Hlocs Hconns loc0 locations' conn0 conns'.
  match goal with
  | |- context [ (?prog)%py self1 ] => set (loops := prog)
  end.
  assert (Hframe : only_places loops).
  { unfold loops. apply only_places_bind.
    { apply only_places_for_each. intros loc.
      apply only_places_on_space_manager. }
    apply only_places_bind.
    { apply only_places_for_each. intros names.
      apply only_places_on_space_manager. }
    intros self'. unfold bind at 1, get.
    apply only_places_for_each. intros investigator.
    destruct (investigators w !! investigator) as [inv|];
      [|apply only_places_raise].
    unfold bind at 1, lift_outcome.
    destruct (Investigator.location inv) as [loc|e];
      [apply only_places_on_space_manager|].
    intros s. exists (Raise e), (GameSetup._space_manager s). by destruct s. }
  destruct (Hframe self1) as (o & sm' & Hrun).
  destruct (Hkeep o sm') as (K1 & K2 & K3 & K4).
  rewrite Hrun. simpl fst. simpl snd.
  split; [exact K1|]. split; [exact K2|]. split; [exact K3|].
  split; [exact K4|]. split; [done|]. split; [done|].
  intros _ _ Hstore Hnames Hinv.
  destruct (add_spaces_return w locations self1)
    as (sm1 & E1 & Hsm1 & Hp1 & Hn1 & Hd1 & Hm1 & He1); [done|done|].
  destruct (connect_all_return w loc_to_conn
              (GameSetup.with_space_manager sm1 self1))
    as (sm2 & E2 & Hsm2 & Hs2 & He2 & Hee2 & Hm2).
  { intros names Hin.
    destruct (Hnames names Hin) as (l1 & l2 & Hl1 & Hl2 & Hn1' & Hn2').
    simpl. split; eauto. }
  { done. }
  destruct (place_investigators_return w
              (snd <$> GameSetup._investigator_manager self)
              (GameSetup.with_space_manager sm2 self1))
    as (sm3 & E3 & Hsm3 & Hp3 & Hm3 & He3); [done|done|].
  assert (Hrun' : loops self1
                  = (Return tt, GameSetup.with_space_manager sm3 self1)).
  { unfold loops. unfold bind at 1. rewrite E1.
    unfold bind at 1. simpl in E2. rewrite E2.
    exact E3. }
  rewrite Hrun in Hrun'. injection Hrun' as -> ->.
  split; [done|]. split; [done|].
  simpl in *. split; [|split].
  - intros loc Hloc. auto.
  - intros names Hin. destruct (He2 names Hin) as (l1 & l2 & He & Hn).
    exists l1, l2. by rewrite He3.
  - done.
Qed.

Lemma setup_game_spec_witness :
  let w := board {| Random.stream := fun _ => 0; Random.cursor := 0 |} in
  let new_game : GameSetup.t nat nat nat :=
    {| GameSetup._space_manager := SpaceManager.__init__;
       GameSetup._investigator_manager := [("Lakshmi Patel", 0%nat)];
       GameSetup._encounter_deck := Deck.__init__;
       GameSetup._event_deck := Deck.__init__;
       GameSetup._monster_deck := Deck.__init__;
       GameSetup._mythos_cup := MythosCup.__init__ |} in
  exists r,
    GameSetup.setup_game reverse reverse reverse w [0%nat; 1%nat]
      [("Downtown", "Uptown")] new_game = Some r /\
    fst r = Return tt /\
    MythosCup.tokens (GameSetup._mythos_cup (snd r)) = MythosCup.token_types.
Proof.
  intros w new_game.
  destruct (setup_game_spec reverse reverse reverse w [0%nat; 1%nat]
              [("Downtown", "Uptown")] new_game [] [] [])
    as (r & Hr & _ & _ & _ & Hcup & _ & _ & Hsome).
  - apply represents_empty.
  - apply represents_empty.
  - apply represents_empty.
  - intros name loc Hl. simpl in Hl. by rewrite lookup_empty in Hl.
  - exists r. split; [exact Hr|]. split; [|exact Hcup].
    apply Hsome; [done|done| | |].
    + intros loc Hloc.
      apply elem_of_cons in Hloc as [->|Hloc]; [by eexists|].
      apply list_elem_of_singleton in Hloc as ->. by eexists.
    + intros names Hin. apply list_elem_of_singleton in Hin as ->.
      exists 0%nat, 1%nat.
      split; [left|]. split; [right; left|]. split; by vm_compute.
    + intros investigator Hin. apply list_elem_of_singleton in Hin as ->.
      exists 0%nat. split; [by vm_compute|by eexists].
Defined.

(** ** Encounters *)

Lemma engaged_monsters_run (w : World) (investigator : nat)
    (engaged : list nat) :
  engaged_of w investigator = Some engaged ->
  SpellEffect.engaged_monsters investigator w = (Return engaged, w).
Proof.
  unfold engaged_of, SpellEffect.engaged_monsters, deref. unfold_monad.
  destruct (investigators w !! investigator) as [inv|]; [|done].
  destruct (combats w !! Investigator._inv_combat inv) as [c|]; [|done].
  simpl. by intros [= <-].
Qed.

Lemma with_world_id {CardT} (t : Table CardT) : with_world (world t) t = t.
Proof. by destruct t. Qed.

Lemma with_encounter_deck_id {CardT} (t : Table CardT) :
  with_encounter_deck (encounter_deck t) t = t.
Proof. by destruct t. Qed.

(** X29: [ActionManager.resolve_encounter] for an investigator engaged
    with a monster returns and draws no card.  For one engaged with none it
    draws the front card: on an empty deck that raises [IndexError] (the
    [ValueError] of the source is never reached) and changes nothing.
    Otherwise the card leaves the deck, and then a [TAKE_DAMAGE] card takes
    its value off the health, a [LOSE_SANITY] card takes it off the
    sanity, a [GAIN_ITEM] card puts a new item of amount 1, named after the
    value, at the end of the items of the investigator, and a [GAIN_CLUE]
    card, which has no strategy, raises [AttributeError] with the world,
    the items and the inventories as they were. *)
Theorem resolve_encounter_spec (t : Table EncounterCard.t)
    (investigator : nat) (engaged : list nat) (health sanity : Z)
    (cards : list EncounterCard.t) :
  engaged_of (world t) investigator = Some engaged ->
  status_of (world t) investigator = Some (health, sanity) ->
  0 <= health -> 0 <= sanity ->
  represents (encounter_deck t) cards ->
  let r := ActionHandlers.resolve_encounter investigator t in
  (engaged <> [] -> r = (Return tt, t)) /\
  (engaged = [] -> cards = [] ->
   r = (Raise (IndexError "dequeue from empty deque"), t)) /\
  (engaged = [] ->
   forall description effect value rest,
     cards = EncounterCard.__new__ description effect value :: rest ->
     represents (encounter_deck (snd r)) rest /\
     match effect with
     | TAKE_DAMAGE =>
         0 <= value ->
         fst r = Return tt /\
         status_of (world (snd r)) investigator
           = Some (health - value, sanity)
     | LOSE_SANITY =>
         0 <= value ->
         fst r = Return tt /\
         status_of (world (snd r)) investigator
           = Some (health, sanity - value)
     | GAIN_ITEM =>
         forall items,
           inventories t !! investigator = Some items ->
           (forall item, item ∈ items -> is_Some (item_objects t !! item)) ->
           let item_new := fresh (dom (item_objects t)) in
           fst r = Return tt /\
           inventories (snd r) !! investigator = Some (items ++ [item_new]) /\
           item_objects (snd r) !! item_new
             = Some (Item.__init__ ("Item " +:+ pretty value)
                       "Item gain from encounter" "gain_item" 1) /\
           item_objects t !! item_new = None /\
           world (snd r) = world t
     | GAIN_CLUE =>
         fst r = Raise (AttributeError
                   "'EncounterCard' object has no attribute '_strategy'") /\
         world (snd r) = world t /\
         inventories (snd r) = inventories t /\
         item_objects (snd r) = item_objects t
     end).
Proof.
  intros Heng Hst Hh Hs Hdeck r.
  pose proof (engaged_monsters_run _ _ _ Heng) as Hrun.
  assert (Hstart : r =
    match engaged with
    | [] =>
        (encounter_card <- zoom encounter_deck with_encounter_deck
                             Deck.draw_front ;;
         EncounterCard.resolve_encounter encounter_card investigator ;;;
         ret tt) t
    | _ :: _ => (Return tt, t)
    end).
  { subst r. unfold ActionHandlers.resolve_encounter.
    unfold bind at 1. unfold on_world, zoom. rewrite Hrun.
    rewrite with_world_id. by destruct engaged. }
  rewrite Hstart. clear Hstart r.
  split; [by destruct engaged|]. split.
  - intros -> ->. unfold bind at 1. unfold zoom, Deck.draw_front.
    destruct (dequeue_empty_raises _ Hdeck) as [-> _].
    by rewrite with_encounter_deck_id.
  - intros -> description effect value rest ->.
    destruct (dequeue_front_represents _ _ _ Hdeck) as (d' & Hd & Hrest).
    set (t1 := with_encounter_deck d' t).
    set (card := EncounterCard.__new__ description effect value) in *.
    assert (Hdraw :
      (encounter_card <- zoom encounter_deck with_encounter_deck
                           Deck.draw_front ;;
       EncounterCard.resolve_encounter encounter_card investigator ;;;
       ret tt) t
      = (EncounterCard.resolve_encounter card investigator ;;; ret tt) t1).
    { unfold bind at 1. unfold zoom at 1, Deck.draw_front. by rewrite Hd. }
    rewrite Hdraw. clear Hdraw. subst card.
    unfold EncounterCard.resolve_encounter.
    unfold status_of in Hst.
    destruct (investigators (world t) !! investigator) as [inv|] eqn:Hi;
      [|done].
    injection Hst as <- <-.
    destruct effect; cbn -[on_investigator].
    + unfold bind, on_world, zoom. cbn -[on_investigator].
      split.
      { by destruct (on_investigator investigator
                      (Investigator.on_status
                         (InvestigatorStatus.take_damage value)) (world t))
          as [[u|e] w']. }
      intros Hv.
      destruct (status_changes (Investigator._inv_status inv) value)
        as (_ & _ & _ & Hdmg); [done..|].
      rewrite (on_status_run (world t) investigator inv _ _ Hi Hdmg).
      simpl. unfold status_of. simpl. by rewrite lookup_insert_eq.
    + unfold bind, on_world, zoom. cbn -[on_investigator].
      split.
      { by destruct (on_investigator investigator
                      (Investigator.on_status
                         (InvestigatorStatus.lose_sanity value)) (world t))
          as [[u|e] w']. }
      intros Hv.
      destruct (status_changes (Investigator._inv_status inv) value)
        as (_ & _ & Hlose & _); [done..|].
      rewrite (on_status_run (world t) investigator inv _ _ Hi Hlose).
      simpl. unfold status_of. simpl. by rewrite lookup_insert_eq.
    + unfold_monad. unfold add_item. unfold_monad. simpl.
      split.
      { destruct (inventories t !! investigator) as [items|]; [|done].
        destruct (decide (fresh (dom (item_objects t)) ∈ items)); [|done].
        by rewrite lookup_insert_eq. }
      intros items Hitems Hobjects. rewrite Hitems.
      assert (Hfresh : item_objects t !! fresh (dom (item_objects t)) = None).
      { apply not_elem_of_dom. apply is_fresh. }
      rewrite decide_False.
      2:{ intros Hin. destruct (Hobjects _ Hin) as [x Hx]. congruence. }
      simpl. by rewrite !lookup_insert_eq.
    + done.
Qed.

Lemma resolve_encounter_spec_witness :
  let w := with_combats
             (<[0%nat := CombatObj.with_engaged_monsters [] board_combat]> ∅)
             (board_before_combat {| Random.stream := fun _ => 0;
                                     Random.cursor := 0 |}) in
  let card := EncounterCard.__new__ "A clue in the dust" GAIN_CLUE 1 in
  let t := {| world := w; item_objects := ∅; inventories := ∅;
              encounter_deck := snd (Deque.__new__ [card]) |} in
  fst (ActionHandlers.resolve_encounter 0%nat t)
    = Raise (AttributeError
        "'EncounterCard' object has no attribute '_strategy'") /\
  represents (encounter_deck (snd (ActionHandlers.resolve_encounter 0%nat t)))
    [].
Proof.
  intros w card t.
  destruct (proj2 (proj2 (resolve_encounter_spec t 0%nat [] 3 3 [card]
                            eq_refl eq_refl ltac:(lia) ltac:(lia)
                            (proj2 (new_represents [card]))))
              eq_refl "A clue in the dust" GAIN_CLUE 1 [] eq_refl)
    as (Hdeck & Hraise & _).
  split; [exact Hraise|exact Hdeck].
Defined.

Ltac mem_crush :=
  first
    [ lia
    | exfalso;
      repeat match goal with
             | H : context [ _ ∈ _ ] |- _ =>
                 progress rewrite ?elem_of_cons, ?elem_of_app,
                   ?list_elem_of_singleton, ?elem_of_nil in H
             end;
      intuition (subst; done) ].

Lemma add_item_step {CardT} (t : Table CardT) (investigator item : nat)
    (items : list nat) (object : Item.t) :
  inventories t !! investigator = Some items ->
  item_objects t !! item = Some object ->
  add_item investigator item t
    = (Return tt,
       if decide (item ∈ items)
       then with_item_objects
              (<[item := Item.with_amount (Item.amount object + 1) object]>
                 (item_objects t)) t
       else with_inventories
              (<[investigator := items ++ [item]]> (inventories t)) t).
Proof.
  intros Hi Ho. unfold add_item. unfold_monad. rewrite Hi.
  destruct (decide (item ∈ items)); [by rewrite Ho|done].
Qed.

(** X30: [add_item] calls for items that exist all return; the items of
    the investigator stay free of duplicates, keep the items held before in
    front, and hold exactly those and the ones added; the amount of an item
    has gone up by the number of times it was added, less one when it was
    not held before (the call that puts it into the list leaves its
    amount). *)
Theorem add_item_counts {CardT} (t : Table CardT) (investigator : nat)
    (items added : list nat) :
  inventories t !! investigator = Some items ->
  NoDup items ->
  (forall item, item ∈ items ++ added -> is_Some (item_objects t !! item)) ->
  let r := run_calls (add_item investigator) added t in
  Forall (fun o => o = Return tt) (fst r) /\
  exists items',
    inventories (snd r) !! investigator = Some items' /\
    NoDup items' /\
    items `prefix_of` items' /\
    (forall item, item ∈ items' <-> item ∈ items \/ item ∈ added) /\
    forall item object,
      item_objects t !! item = Some object ->
      Item.amount <$> item_objects (snd r) !! item
        = Some (Item.amount object + times_added item added
                - (if decide (item ∈ items) then 0
                   else if decide (item ∈ added) then 1 else 0)).
Proof.
  revert t items.
  induction added as [|x added IH]; intros t items Hi Hnd Hobjects r.
  - subst r. simpl. split; [constructor|]. exists items.
    split; [done|]. split; [done|]. split; [done|].
    split.
    + intros item. split; [auto|]. intros [H|H]; [done|].
      by apply not_elem_of_nil in H.
    + intros item object Ho. rewrite Ho. simpl. f_equal.
      unfold times_added. simpl.
      repeat case_decide; mem_crush.
  - destruct (Hobjects x) as [ox Hox].
    { apply elem_of_app. right. left. }
    pose proof (add_item_step t investigator x items ox Hi Hox) as Hstep.
    subst r. simpl. rewrite Hstep.
    destruct (decide (x ∈ items)) as [Hin|Hout].
    + set (t1 := with_item_objects _ t).
      specialize (IH t1 items).
      destruct IH as (Hall & items' & Hi' & Hnd' & Hpre & Hmem & Hamount).
      { done. }
      { done. }
      { intros item Hitem. unfold t1. simpl.
        destruct (decide (item = x)) as [->|Hne].
        - rewrite lookup_insert_eq. by eexists.
        - rewrite lookup_insert_ne by done. apply Hobjects.
          apply elem_of_app in Hitem as [H|H]; apply elem_of_app;
            [by left|right; by right]. }
      destruct (run_calls (add_item investigator) added t1) as [os t2].
      simpl in *. split; [by constructor|]. exists items'.
      split; [done|]. split; [done|]. split; [done|]. split.
      * intros item. rewrite Hmem, elem_of_cons. split.
        -- intros [H|H]; auto.
        -- intros [H|[->|H]]; auto.
      * intros item object Ho.
        destruct (decide (item = x)) as [->|Hne].
        -- rewrite (Hamount x (Item.with_amount (Item.amount ox + 1) ox))
             by (unfold t1; simpl; by rewrite lookup_insert_eq).
           assert (object = ox) as -> by congruence.
           f_equal. unfold times_added. simpl.
           rewrite ?filter_cons; repeat case_decide; simpl; mem_crush.
        -- rewrite (Hamount item object)
             by (unfold t1; simpl; by rewrite lookup_insert_ne).
           f_equal. unfold times_added. simpl.
           rewrite ?filter_cons; repeat case_decide; simpl; mem_crush.
    + set (t1 := with_inventories _ t).
      specialize (IH t1 (items ++ [x])).
      destruct IH as (Hall & items' & Hi' & Hnd' & Hpre & Hmem & Hamount).
      { unfold t1. simpl. by rewrite lookup_insert_eq. }
      { apply NoDup_app. split; [done|]. split; [|apply NoDup_singleton].
        intros y Hy Hy'. apply list_elem_of_singleton in Hy'. by subst. }
      { intros item Hitem. unfold t1. simpl. apply Hobjects.
        rewrite <- app_assoc in Hitem. by simpl in Hitem. }
      destruct (run_calls (add_item investigator) added t1) as [os t2].
      simpl in *. split; [by constructor|]. exists items'.
      split; [done|]. split; [done|].
      split; [by eapply prefix_app_l|]. split.
      * intros item. rewrite Hmem, elem_of_app, list_elem_of_singleton,
          elem_of_cons. tauto.
      * intros item object Ho. rewrite (Hamount item object Ho). f_equal.
        unfold times_added. simpl.
        rewrite ?filter_cons; repeat case_decide; simpl; mem_crush.
Qed.

Lemma add_item_counts_witness :
  let lamp := Item.__init__ "Lamp" "An oil lamp" "light" 1 in
  let t : Table nat :=
    {| world := board {| Random.stream := fun _ => 0; Random.cursor := 0 |};
       item_objects := {[ 5%nat := lamp ]};
       inventories := {[ 0%nat := [] ]};
       encounter_deck := Deque.empty |} in
  let t' := snd (run_calls (add_item 0%nat) [5%nat; 5%nat; 5%nat] t) in
  inventories t' !! 0%nat = Some [5%nat] /\
  Item.amount <$> item_objects t' !! 5%nat = Some 3.
Proof.
  intros lamp t t'. split; [by vm_compute|].
  destruct (add_item_counts t 0%nat [] [5%nat; 5%nat; 5%nat] eq_refl
              (NoDup_nil_2 (A := nat)))
    as (_ & items' & _ & _ & _ & _ & Hamount).
  - intros item Hitem. simpl in Hitem.
    repeat (apply elem_of_cons in Hitem as [->|Hitem]; [by eexists|]).
    by apply not_elem_of_nil in Hitem.
  - exact (Hamount 5%nat lamp eq_refl).
Defined.
